(** * The transaction submission engine of large_transactioneer

    A shallow embedding of the Python scripts [sender.py],
    [transactioneer_with_queue.py], [claim_master_all_addresses.py] and
    [quick_funding.py]: the nonce allocator, the round-robin endpoint
    cursor, the retry-on-collision submission, the work queue and the
    funding schedule, followed by the properties the specification states
    about them.

    Python integers are unbounded and are modelled by [Z]; dictionaries
    are [gmap]s; a raised exception is a [Raise] carrying [str(e)]; the
    remote nodes are an abstract [World] threaded through every RPC call.
    The scripts run their submissions on one thread, so the locks are
    omitted. Logging and printing are omitted too: they do not touch the
    state the properties talk about. *)

From stdpp Require Import gmap strings list fin_maps pretty.
From Stdlib Require Import ZArith Lia Sorted.

Local Open Scope Z_scope.

(** ** Python values and control flow *)

(** The result of evaluating a Python expression or block: a value, or an
    exception, represented by its message [str(e)]. *)
Inductive result (A : Type) : Type :=
| Return (a : A)
| Raise (msg : string).
Arguments Return {A} a.
Arguments Raise {A} msg.

(** [needle in hay] on Python strings. *)
Fixpoint str_contains (needle hay : string) : bool :=
  String.prefix needle hay ||
  match hay with
  | EmptyString => false
  | String _ rest => str_contains needle rest
  end.

(** [range(n)]: empty when [n <= 0]. *)
Definition range (n : Z) : list Z := Z.of_nat <$> seq 0 (Z.to_nat n).

(** ** Accounts

    [accounts.json] is written by [generate_sender_addresses]
    (fund_accounts.py): every entry carries an integer [index], a
    [private_key] and an [address]. *)
Record Account : Type := mkAccount {
  address : string;
  private_key : string;
  index : Z
}.

#[global] Instance Account_eq_dec : EqDecision Account.
Proof. solve_decision. Defined.

(** ** Nonce allocator

    [account_nonces] is a [defaultdict(int)]: reading a missing key yields
    0. *)
Module Nonces.

Definition nonce_of (account_nonces : gmap string Z) (addr : string) : Z :=
  default 0 (account_nonces !! addr).

(** [get_next_nonce] (sender.py 228-233, transactioneer_with_queue.py
    260-265; the same text in both): returns the current counter and
    stores the counter plus one. *)
Definition get_next_nonce (addr : string) (account_nonces : gmap string Z)
  : Z * gmap string Z :=
  let current_nonce := nonce_of account_nonces addr in
  (current_nonce, <[addr := current_nonce + 1]> account_nonces).

(** The block under the lock in [realign_all_nonces] (sender.py 191-197):
    the local counter is overwritten when the ledger value differs. The
    read of [account_nonces[address]] on a missing key stores the default
    0 first, as a [defaultdict] does. *)
Definition reconcile (addr : string) (blockchain_nonce : Z)
    (account_nonces : gmap string Z) : gmap string Z :=
  let local_nonce := nonce_of account_nonces addr in
  let touched := <[addr := local_nonce]> account_nonces in
  if decide (blockchain_nonce ≠ local_nonce)
  then <[addr := blockchain_nonce]> touched
  else touched.

(** [n] sequential calls of [get_next_nonce] for one account: the values
    returned, in call order, and the final map. *)
Fixpoint reserve_many (n : nat) (addr : string) (account_nonces : gmap string Z)
  : list Z * gmap string Z :=
  match n with
  | O => ([], account_nonces)
  | S k =>
      let '(v, m1) := get_next_nonce addr account_nonces in
      let '(vs, m2) := reserve_many k addr m1 in
      (v :: vs, m2)
  end.

End Nonces.

(** ** The remote nodes and the web3 client

    A [Web3] handle is the object built by
    [Web3(Web3.HTTPProvider(node_url))] in [initialize_sync_nodes]; the
    objects are created one per URL, in order, and [w3_slot] stands for the
    identity of the object (its position in [w3_instances]). *)
Record Web3 : Type := mkWeb3 {
  w3_slot : nat;
  provider_url : string
}.

#[global] Instance Web3_eq_dec : EqDecision Web3.
Proof. solve_decision. Defined.

Record Contract : Type := mkContract {
  contract_w3 : Web3;
  contract_address : string
}.

(** The arguments of [SpotData]. *)
Record SpotDataParams : Type := mkParams {
  file_hashs : list string;
  url_domains : list string;
  item_counts : list Z;
  extra : string
}.

(** The dictionary handed to [build_transaction]. *)
Record TxOptions : Type := mkTxOptions {
  tx_from : string;
  tx_nonce : Z;
  tx_value : Z;
  tx_gas : Z;
  tx_gasPrice : Z;
  tx_chainId : Z
}.

(** What [build_transaction] returns: the options completed with the
    callee and the encoded call. *)
Record Tx : Type := mkTx {
  tx_options : TxOptions;
  tx_to : string;
  tx_data : string
}.

(** The calls into web3.py. Building and signing are local computations
    that may raise; the RPC calls read and change the state of the remote
    nodes, the [World]. Signed transactions are byte strings. *)
Class Web3Api : Type := {
  World : Type;
  build_transaction : Contract → SpotDataParams → TxOptions → result Tx;
  build_claim_master : Contract → string → TxOptions → result Tx;
  sign_transaction : Web3 → Tx → string → result string;
  send_raw_transaction : World → Web3 → string → World * result string;
  get_transaction_count : World → Web3 → string → World * result Z;
  eth_gas_price : World → Web3 → World * result Z
}.

(** What an execution did, in order: the instrumentation the properties
    are stated on. *)
Inductive Event : Type :=
| EvReserve (addr : string) (nonce : Z)
| EvSign (raw : string)
| EvSend (w3 : Web3) (raw : string) (response : result string)
| EvRead (w3 : Web3) (addr : string) (response : result Z).

Definition is_reserve (ev : Event) : bool :=
  match ev with EvReserve _ _ => true | _ => false end.

Definition is_sign (ev : Event) : bool :=
  match ev with EvSign _ => true | _ => false end.

(** How many events of a trace satisfy [p]. *)
Definition count_events (p : Event → bool) (tr : list Event) : nat :=
  length (List.filter p tr).

(** A broadcast attempt: the node, the bytes, the answer. *)
Definition Broadcast : Type := Web3 * string * result string.

Definition send_event (b : Broadcast) : Event := EvSend b.1.1 b.1.2 b.2.

(** The broadcast attempts of a trace, in order. *)
Definition broadcasts (tr : list Event) : list Broadcast :=
  omap (λ ev, match ev with EvSend w raw r => Some (w, raw, r) | _ => None end) tr.

(** The message of the nonce collision, as the nodes word it. *)
Definition NONCE_COLLISION : string := "same nonce already exists".

Definition is_nonce_collision (error_msg : string) : bool :=
  str_contains NONCE_COLLISION error_msg.

(** A broadcast answered by the nonce collision error. *)
Definition is_collision_response (response : result string) : bool :=
  match response with
  | Raise error_msg => is_nonce_collision error_msg
  | Return _ => false
  end.

(** ** Stateful computations

    The machine state: the Python object [self], the remote nodes, the
    events so far (oldest first). *)
Section Machine.
Context `{Api : Web3Api} {Obj : Type}.

Record St : Type := mkSt {
  self : Obj;
  world : World;
  trace : list Event
}.

(** Computations that read and write the state and may raise. A raised
    exception keeps the state reached when it was raised. *)
Definition M (A : Type) : Type := St → result A * St.

Definition ret {A} (a : A) : M A := λ st, (Return a, st).

Definition throw {A} (msg : string) : M A := λ st, (Raise msg, st).

Definition bind {A B} (m : M A) (k : A → M B) : M B :=
  λ st, match m st with
        | (Return a, st1) => k a st1
        | (Raise msg, st1) => (Raise msg, st1)
        end.

(** [try: body except Exception as e: handler(str(e))] *)
Definition try_except {A} (body : M A) (handler : string → M A) : M A :=
  λ st, match body st with
        | (Return a, st1) => (Return a, st1)
        | (Raise msg, st1) => handler msg st1
        end.

Definition lift {A} (r : result A) : M A := λ st, (r, st).

Definition update_self (f : Obj → Obj) : M unit :=
  λ st, (Return tt, mkSt (f (self st)) (world st) (trace st)).

Definition read_self : M Obj := λ st, (Return (self st), st).

Definition emit (ev : Event) : M unit :=
  λ st, (Return tt, mkSt (self st) (world st) (trace st ++ [ev])).

(** An RPC call: the world moves on, the response is returned as it is
    (not yet raised), so that the caller can log it. *)
Definition rpc {A} (call : World → World * result A) : M (result A) :=
  λ st, let '(w1, r) := call (world st) in
        (Return r, mkSt (self st) w1 (trace st)).

(** A [for x in l] loop whose body returns nothing. *)
Fixpoint for_each {A} (body : A → M unit) (l : list A) : M unit :=
  match l with
  | [] => ret tt
  | x :: rest => bind (body x) (λ _, for_each body rest)
  end.

(** The events a run added to the trace. *)
Definition new_events (st st' : St) : list Event :=
  drop (length (trace st)) (trace st').

End Machine.

Arguments St {Api} Obj.
Arguments M {Api} Obj A.

Declare Scope engine_scope.
Delimit Scope engine_scope with engine.
Notation "'let*' x ':=' m 'in' k" := (bind m (λ x, k))
  (at level 10, x name, m at level 100, k at level 200) : engine_scope.
Notation "m '>>' k" := (bind m (λ _, k))
  (at level 100, k at level 200, right associativity) : engine_scope.

(** ** The sender (sender.py, transactioneer_with_queue.py)

    The fields of [ExordeHighSpeedSender] the submission path reads or
    writes. [w3_instances] holds one handle per entry of [sync_nodes]. *)
Record Sender : Type := mkSender {
  sync_nodes : list string;
  contracts : gmap string (list Contract);
  chain_id : option Z;
  gas_limit : Z;
  gas_price : Z;
  accounts : list Account;
  current_account_index : nat;
  current_sync_node_index : nat;
  account_nonces : gmap string Z;
  submissions_count : Z;
  successful_submissions : Z;
  failed_submissions : Z;
  nonce_realignments : Z
}.

Definition w3_instances (s : Sender) : list Web3 := imap mkWeb3 (sync_nodes s).

Definition set_current_account_index (i : nat) (s : Sender) : Sender :=
  mkSender (sync_nodes s) (contracts s) (chain_id s) (gas_limit s) (gas_price s)
    (accounts s) i (current_sync_node_index s) (account_nonces s)
    (submissions_count s) (successful_submissions s) (failed_submissions s)
    (nonce_realignments s).

Definition set_current_sync_node_index (i : nat) (s : Sender) : Sender :=
  mkSender (sync_nodes s) (contracts s) (chain_id s) (gas_limit s) (gas_price s)
    (accounts s) (current_account_index s) i (account_nonces s)
    (submissions_count s) (successful_submissions s) (failed_submissions s)
    (nonce_realignments s).

Definition set_account_nonces (m : gmap string Z) (s : Sender) : Sender :=
  mkSender (sync_nodes s) (contracts s) (chain_id s) (gas_limit s) (gas_price s)
    (accounts s) (current_account_index s) (current_sync_node_index s) m
    (submissions_count s) (successful_submissions s) (failed_submissions s)
    (nonce_realignments s).

Definition set_counters (total ok failed : Z) (s : Sender) : Sender :=
  mkSender (sync_nodes s) (contracts s) (chain_id s) (gas_limit s) (gas_price s)
    (accounts s) (current_account_index s) (current_sync_node_index s)
    (account_nonces s) total ok failed (nonce_realignments s).

Definition set_nonce_realignments (n : Z) (s : Sender) : Sender :=
  mkSender (sync_nodes s) (contracts s) (chain_id s) (gas_limit s) (gas_price s)
    (accounts s) (current_account_index s) (current_sync_node_index s)
    (account_nonces s) (submissions_count s) (successful_submissions s)
    (failed_submissions s) n.

Definition DATASPOTTING_ADDRESS : string :=
  "0xC9FCBEd3a27666c539EE00f7a3D2b3ae6F0fa22E".

(** The object of [__init__] once [initialize_sync_nodes],
    [initialize_dataspotting_contract] and [load_accounts] have run: one
    contract per handle, cursors and counters at zero, no nonce yet. *)
Definition init_sender (nodes : list string) (chain : option Z)
    (accts : list Account) : Sender :=
  mkSender nodes
    {[ "DataSpotting" :=
         imap (λ i url, mkContract (mkWeb3 i url) DATASPOTTING_ADDRESS) nodes ]}
    chain 700000 200000 accts 0%nat 0%nat ∅ 0 0 0 0.

(** [self.spot_data_params] of sender.py, never changed after [__init__]. *)
Definition spot_data_params : SpotDataParams :=
  mkParams ["QmUtQJK2YncnLcBL6W9d8xeJzSmThb2CU7mpbdiC4CpkcE"] [""] [0] "".

(** What one pass through the body of the retry loop decides. *)
Inductive LoopExit : Type :=
| Returned (success : bool) (tx_hash : option string)
| Broke
| Exhausted.

Section Submission.
Context `{Api : Web3Api}.
Local Open Scope engine_scope.

(** [get_next_account] (sender.py 208-213). *)
Definition get_next_account : M Sender Account :=
  let* s := read_self in
  match accounts s !! current_account_index s with
  | None => throw "list index out of range"
  | Some account =>
      update_self (set_current_account_index
        ((current_account_index s + 1) `mod` length (accounts s))%nat) >>
      ret account
  end.

(** [get_next_sync_node] (sender.py 215-220): the handle under the
    cursor, the cursor moved on by one modulo the pool size. An empty
    pool raises on the subscript, before the modulo. *)
Definition get_next_sync_node : M Sender Web3 :=
  let* s := read_self in
  match w3_instances s !! current_sync_node_index s with
  | None => throw "list index out of range"
  | Some w3 =>
      update_self (set_current_sync_node_index
        ((current_sync_node_index s + 1) `mod` length (w3_instances s))%nat) >>
      ret w3
  end.

(** [get_next_contract] (sender.py 222-226): the contract under the
    cursor; the cursor is left where it is. *)
Definition get_next_contract : M Sender Contract :=
  let* s := read_self in
  match contracts s !! "DataSpotting" with
  | None => throw "'DataSpotting'"
  | Some cs =>
      match cs !! current_sync_node_index s with
      | None => throw "list index out of range"
      | Some contract => ret contract
      end
  end.

(** [get_next_nonce], on the object. *)
Definition get_next_nonce (addr : string) : M Sender Z :=
  let* s := read_self in
  let '(current_nonce, m) := Nonces.get_next_nonce addr (account_nonces s) in
  update_self (set_account_nonces m) >>
  emit (EvReserve addr current_nonce) >>
  ret current_nonce.

(** [int(self.chain_id)] *)
Definition int_chain_id : M Sender Z :=
  let* s := read_self in
  match chain_id s with
  | None => throw "int() argument must be a string, a bytes-like object or a real number, not 'NoneType'"
  | Some c => ret c
  end.

(** [w3.eth.account.sign_transaction(transaction, private_key)] *)
Definition sign {Obj} (w3 : Web3) (transaction : Tx) (key : string) : M Obj string :=
  let* signed_tx := lift (sign_transaction w3 transaction key) in
  emit (EvSign signed_tx) >>
  ret signed_tx.

(** [w3.eth.send_raw_transaction(signed_tx.rawTransaction)] *)
Definition send {Obj} (w3 : Web3) (raw : string) : M Obj string :=
  let* response := rpc (λ w, send_raw_transaction w w3 raw) in
  emit (EvSend w3 raw response) >>
  lift response.

(** [w3.eth.get_transaction_count(address)] *)
Definition read_count {Obj} (w3 : Web3) (addr : string) : M Obj Z :=
  let* response := rpc (λ w, get_transaction_count w w3 addr) in
  emit (EvRead w3 addr response) >>
  lift response.

Definition count_success : M Sender unit :=
  update_self (λ s, set_counters (submissions_count s + 1)
                      (successful_submissions s + 1) (failed_submissions s) s).

Definition count_failure : M Sender unit :=
  update_self (λ s, set_counters (submissions_count s)
                      (successful_submissions s) (failed_submissions s + 1) s).

(** The [for retry_attempt in range(max_retries)] loop (sender.py
    269-302) over the attempts still to make. The [try] covers the
    choice of the node, the broadcast and the counters; the handler
    goes on with the next attempt on a collision ([continue], or the
    fall through of the last attempt) and leaves the loop on anything
    else ([break]). *)
Fixpoint retry_loop (raw : string) (max_retries : Z) (attempts : list Z)
  : M Sender LoopExit :=
  match attempts with
  | [] => ret Exhausted
  | retry_attempt :: rest =>
      try_except
        (let* w3_write := get_next_sync_node in
         let* tx_hash := send w3_write raw in
         count_success >>
         ret (Returned true (Some tx_hash)))
        (λ error_msg,
           if is_nonce_collision error_msg then
             if retry_attempt <? max_retries - 1
             then retry_loop raw max_retries rest
             else retry_loop raw max_retries rest
           else ret Broke)
  end.

(** [submit_spotdata_transaction] (sender.py 235-311;
    transactioneer_with_queue.py 267-343 is the same text with the
    parameters taken from the queue instead of [self.spot_data_params]). *)
Definition submit_spotdata_transaction (account : Account)
    (transaction_params : SpotDataParams) (max_retries : Z)
  : M Sender (bool * option string) :=
  try_except
    (let addr := address account in
     let key := private_key account in
     let* nonce := get_next_nonce addr in
     let* contract := get_next_contract in
     let* w3_read := get_next_sync_node in
     let* s := read_self in
     let* chain := int_chain_id in
     let* transaction :=
       lift (build_transaction contract transaction_params
               (mkTxOptions addr nonce 0 (gas_limit s) (gas_price s) chain)) in
     let* signed_tx := sign w3_read transaction key in
     let* exit := retry_loop signed_tx max_retries (range max_retries) in
     match exit with
     | Returned success tx_hash => ret (success, tx_hash)
     | Broke | Exhausted => count_failure >> ret (false, None)
     end)
    (λ _, count_failure >> ret (false, None)).

(** The body of the loop of [realign_all_nonces] (sender.py 185-200) for
    one account: a failed read leaves the counter as it is. *)
Definition realign_account (account : Account) : M Sender unit :=
  let addr := address account in
  try_except
    (let* w3 := get_next_sync_node in
     let* blockchain_nonce := read_count w3 addr in
     update_self (λ s, set_account_nonces
                         (Nonces.reconcile addr blockchain_nonce (account_nonces s)) s))
    (λ _, ret tt).

(** [realign_all_nonces] (sender.py 176-206), the settling delay left
    out. *)
Definition realign_all_nonces : M Sender unit :=
  let* s := read_self in
  for_each realign_account (accounts s) >>
  update_self (λ s, set_nonce_realignments (nonce_realignments s + 1) s).

(** [n] selections of a node in a row, in call order. *)
Fixpoint select_nodes (n : nat) : M Sender (list Web3) :=
  match n with
  | O => ret []
  | S k =>
      let* w3 := get_next_sync_node in
      let* rest := select_nodes k in
      ret (w3 :: rest)
  end.

End Submission.

(** The state after [get_next_sync_node] picked the handle under the
    cursor. *)
Definition advance_cursor (s : Sender) : Sender :=
  set_current_sync_node_index
    ((current_sync_node_index s + 1) `mod` length (w3_instances s))%nat s.

(** The counters after a WorkItem that was accepted by a node. *)
Definition counted_success (s s' : Sender) : Prop :=
  submissions_count s' = submissions_count s + 1
  ∧ successful_submissions s' = successful_submissions s + 1
  ∧ failed_submissions s' = failed_submissions s.

(** The counters after a WorkItem that failed. *)
Definition counted_failure (s s' : Sender) : Prop :=
  submissions_count s' = submissions_count s
  ∧ successful_submissions s' = successful_submissions s
  ∧ failed_submissions s' = failed_submissions s + 1.

Definition counters_kept (s s' : Sender) : Prop :=
  submissions_count s' = submissions_count s
  ∧ successful_submissions s' = successful_submissions s
  ∧ failed_submissions s' = failed_submissions s.

Section SubmissionSpec.
Context `{Api : Web3Api}.

(** The state after [self.failed_submissions += 1]. *)
Definition failed_state (st : St Sender) : St Sender :=
  mkSt (set_counters (submissions_count (self st))
          (successful_submissions (self st))
          (failed_submissions (self st) + 1) (self st))
    (world st) (trace st).

(** What one call of [submit_spotdata_transaction] leaves behind: after
    one reservation, either nothing more (the build or the signature
    raised) or one signature followed by broadcasts of the signed bytes. *)
Definition submit_spec (account : Account) (max_retries : Z)
    (st : St Sender) (out : bool * option string) (st' : St Sender) : Prop :=
  let addr := address account in
  let n := Nonces.nonce_of (account_nonces (self st)) addr in
  ∃ tail,
    trace st' = trace st ++ EvReserve addr n :: tail
    ∧ account_nonces (self st') = <[addr := n + 1]> (account_nonces (self st))
    ∧ ((tail = [] ∧ out = (false, None)
        ∧ counted_failure (self st) (self st'))
       ∨ (∃ raw bs,
            tail = EvSign raw :: (send_event <$> bs)
            ∧ Forall (λ b : Broadcast, b.1.2 = raw) bs
            ∧ (length bs ≤ Z.to_nat max_retries)%nat
            ∧ ((∃ tx_hash, out = (true, Some tx_hash)
                           ∧ counted_success (self st) (self st'))
               ∨ (out = (false, None)
                  ∧ counted_failure (self st) (self st'))))).

End SubmissionSpec.

(** ** The work queue (transactioneer_with_queue.py)

    [queue.Queue] is a class of Python's standard library, not of this
    repository: [put], [get] and [qsize] are modelled after its
    documentation. A call that has to wait for another thread is a
    [Blocks]: in that state the call does not return. With a timeout the
    wait ends by itself, and the call raises if nothing changed
    meanwhile. Timeouts are in milliseconds. *)
Module PyQueue.

Record Queue (A : Type) : Type := mkQueue {
  maxsize : Z;
  queue : list A
}.
Arguments mkQueue {A} maxsize queue.
Arguments maxsize {A} q.
Arguments queue {A} q.

Inductive Outcome (A : Type) : Type :=
| Done (a : A)
| Blocks
| Raises (msg : string).
Arguments Done {A} a.
Arguments Blocks {A}.
Arguments Raises {A} msg.

Definition qsize {A} (q : Queue A) : Z := Z.of_nat (length (queue q)).

(** [0 < self.maxsize <= self._qsize()] *)
Definition full {A} (q : Queue A) : bool :=
  (0 <? maxsize q) && (maxsize q <=? qsize q).

Definition append_item {A} (q : Queue A) (item : A) : Queue A :=
  mkQueue (maxsize q) (queue q ++ [item]).

(** [Queue.put(item, block=True, timeout=None)] *)
Definition put {A} (q : Queue A) (item : A) (block : bool) (timeout : option Z)
  : Outcome (Queue A) :=
  if 0 <? maxsize q then
    if negb block then
      if maxsize q <=? qsize q then Raises "Full" else Done (append_item q item)
    else
      match timeout with
      | None =>
          if maxsize q <=? qsize q then Blocks else Done (append_item q item)
      | Some t =>
          if t <? 0 then Raises "'timeout' must be a non-negative number"
          else if maxsize q <=? qsize q then Raises "Full"
          else Done (append_item q item)
      end
  else Done (append_item q item).

(** [Queue.get(block=True, timeout=None)] *)
Definition get {A} (q : Queue A) (block : bool) (timeout : option Z)
  : Outcome (A * Queue A) :=
  let take :=
    match queue q with
    | item :: rest => Some (item, mkQueue (maxsize q) rest)
    | [] => None
    end in
  if negb block then
    match take with Some r => Done r | None => Raises "Empty" end
  else
    match timeout with
    | None => match take with Some r => Done r | None => Blocks end
    | Some t =>
        if t <? 0 then Raises "'timeout' must be a non-negative number"
        else match take with Some r => Done r | None => Raises "Empty" end
    end.

End PyQueue.

(** The queue-driven sender: the fields of sender.py's class, the queue
    and the stop flag. *)
Record QueueSender : Type := mkQueueSender {
  base : Sender;
  transaction_queue : PyQueue.Queue SpotDataParams;
  queue_empty_timeout : Z;
  running : bool
}.

Definition QUEUE_MAXSIZE : Z := 1000000.

(** [__init__] (transactioneer_with_queue.py 21-63), the sender part as
    after the initialisation. *)
Definition init_queue_sender (s : Sender) : QueueSender :=
  mkQueueSender s (PyQueue.mkQueue QUEUE_MAXSIZE []) 1000 false.

Definition set_transaction_queue (q : PyQueue.Queue SpotDataParams)
    (qs : QueueSender) : QueueSender :=
  mkQueueSender (base qs) q (queue_empty_timeout qs) (running qs).

(** [get_queue_size] *)
Definition get_queue_size (qs : QueueSender) : Z :=
  PyQueue.qsize (transaction_queue qs).

(** [add_transaction] (transactioneer_with_queue.py 65-82):
    [self.transaction_queue.put(transaction_params)], a blocking put
    without timeout. *)
Definition add_transaction (file_hashs url_domains : list string)
    (item_counts : list Z) (extra : string) (qs : QueueSender)
  : PyQueue.Outcome QueueSender :=
  let transaction_params := mkParams file_hashs url_domains item_counts extra in
  match PyQueue.put (transaction_queue qs) transaction_params true None with
  | PyQueue.Done q => PyQueue.Done (set_transaction_queue q qs)
  | PyQueue.Blocks => PyQueue.Blocks
  | PyQueue.Raises msg => PyQueue.Raises msg
  end.

(** [add_transactions_batch] (transactioneer_with_queue.py 84-93): the
    state reached, and how the loop ended there. *)
Fixpoint add_transactions_batch (transactions_list : list SpotDataParams)
    (qs : QueueSender) : QueueSender * PyQueue.Outcome unit :=
  match transactions_list with
  | [] => (qs, PyQueue.Done tt)
  | tx_params :: rest =>
      match PyQueue.put (transaction_queue qs) tx_params true None with
      | PyQueue.Done q => add_transactions_batch rest (set_transaction_queue q qs)
      | PyQueue.Blocks => (qs, PyQueue.Blocks)
      | PyQueue.Raises msg => (qs, PyQueue.Raises msg)
      end
  end.

(** The [get] of [run_high_speed_loop] (transactioneer_with_queue.py
    380-384): the next parameters, or nothing when [queue.Empty] is
    caught and the loop goes round. *)
Definition take_transaction (qs : QueueSender)
  : option (SpotDataParams * QueueSender) :=
  match PyQueue.get (transaction_queue qs) true (Some (queue_empty_timeout qs)) with
  | PyQueue.Done (transaction_params, q) =>
      Some (transaction_params, set_transaction_queue q qs)
  | _ => None
  end.

(** Producers and the consumer acting on the queue, one call at a time. A
    producer whose [put] blocks has not handed its item over. *)
Inductive QueueOp : Type :=
| OpAdd (transaction_params : SpotDataParams)
| OpTake.

Record QueueLog : Type := mkQueueLog {
  accepted : list SpotDataParams;
  dequeued : list SpotDataParams
}.

Definition queue_step (op : QueueOp) (state : QueueSender * QueueLog)
  : QueueSender * QueueLog :=
  let '(qs, log) := state in
  match op with
  | OpAdd p =>
      match add_transaction (file_hashs p) (url_domains p) (item_counts p)
              (extra p) qs with
      | PyQueue.Done qs' => (qs', mkQueueLog (accepted log ++ [p]) (dequeued log))
      | _ => (qs, log)
      end
  | OpTake =>
      match take_transaction qs with
      | Some (p, qs') => (qs', mkQueueLog (accepted log) (dequeued log ++ [p]))
      | None => (qs, log)
      end
  end.

Definition run_queue_ops (ops : list QueueOp) (state : QueueSender * QueueLog)
  : QueueSender * QueueLog :=
  foldl (λ st op, queue_step op st) state ops.

(** What the producers and the consumer keep true of the queue of a
    sender: the bound of [__init__], a timeout that is not negative,
    nothing lost and nothing above the bound. *)
Definition queue_invariant (state : QueueSender * QueueLog) : Prop :=
  let q := transaction_queue state.1 in
  PyQueue.maxsize q = QUEUE_MAXSIZE
  ∧ 0 ≤ queue_empty_timeout state.1
  ∧ accepted state.2 = dequeued state.2 ++ PyQueue.queue q
  ∧ PyQueue.qsize q ≤ QUEUE_MAXSIZE.

(** ** The ClaimMaster script (claim_master_all_addresses.py) *)
Module ClaimMaster.

Record Script : Type := mkScript {
  w3 : option Web3;
  chain_id : option Z;
  address_manager_obj : option Contract;
  target_master_address : string;
  account_nonces : gmap string Z;
  total_claims_attempted : Z;
  total_claims_successful : Z;
  total_claims_failed : Z
}.

Definition set_account_nonces (m : gmap string Z) (s : Script) : Script :=
  mkScript (w3 s) (chain_id s) (address_manager_obj s) (target_master_address s)
    m (total_claims_attempted s) (total_claims_successful s) (total_claims_failed s).

Definition set_counters (attempted ok failed : Z) (s : Script) : Script :=
  mkScript (w3 s) (chain_id s) (address_manager_obj s) (target_master_address s)
    (account_nonces s) attempted ok failed.

Section Claim.
Context `{Api : Web3Api}.
Local Open Scope engine_scope.

Definition the_w3 : M Script Web3 :=
  let* s := read_self in
  match w3 s with
  | None => throw "'NoneType' object has no attribute 'eth'"
  | Some w => ret w
  end.

(** [claim_master_single_account] (claim_master_all_addresses.py
    146-184). *)
Definition claim_master_single_account (account : Account)
  : M Script (bool * option string) :=
  try_except
    (let addr := address account in
     let key := private_key account in
     let* s := read_self in
     let nonce := Nonces.nonce_of (account_nonces s) addr in
     update_self (set_account_nonces (<[addr := nonce + 1]> (account_nonces s))) >>
     emit (EvReserve addr nonce) >>
     let* w := the_w3 in
     let* price := rpc (λ world, eth_gas_price world w) in
     let* gas_price := lift price in
     let* contract :=
       match address_manager_obj s with
       | None => throw "'NoneType' object has no attribute 'functions'"
       | Some c => ret c
       end in
     let* chain :=
       match chain_id s with
       | None => throw "int() argument must be a string, a bytes-like object or a real number, not 'NoneType'"
       | Some c => ret c
       end in
     let* transaction :=
       lift (build_claim_master contract (target_master_address s)
               (mkTxOptions addr nonce 0 200000 gas_price chain)) in
     let* signed_tx := sign w transaction key in
     let* tx_hash := send w signed_tx in
     update_self (λ s, set_counters (total_claims_attempted s + 1)
                         (total_claims_successful s + 1) (total_claims_failed s) s) >>
     ret (true, Some tx_hash))
    (λ _,
       update_self (λ s, set_counters (total_claims_attempted s)
                           (total_claims_successful s) (total_claims_failed s + 1) s) >>
       ret (false, None)).

End Claim.
End ClaimMaster.

(** ** The funding script (quick_funding.py) *)
Module Funder.

Record Script : Type := mkScript {
  w3 : option Web3;
  all_accounts : list Account;
  funding_accounts : list Account;
  target_accounts : list Account;
  funding_nonces : gmap string Z;
  funding_schedule : gmap string (list Account)
}.

(** [__init__] *)
Definition init (w : option Web3) : Script := mkScript w [] [] [] ∅ ∅.

Definition set_all_accounts (l : list Account) (s : Script) : Script :=
  mkScript (w3 s) l (funding_accounts s) (target_accounts s) (funding_nonces s)
    (funding_schedule s).

Definition set_split (funders targets : list Account) (s : Script) : Script :=
  mkScript (w3 s) (all_accounts s) funders targets (funding_nonces s)
    (funding_schedule s).

Definition set_funding_nonces (m : gmap string Z) (s : Script) : Script :=
  mkScript (w3 s) (all_accounts s) (funding_accounts s) (target_accounts s) m
    (funding_schedule s).

Definition set_funding_schedule (m : gmap string (list Account)) (s : Script)
  : Script :=
  mkScript (w3 s) (all_accounts s) (funding_accounts s) (target_accounts s)
    (funding_nonces s) m.

(** [self.funding_schedule[key]] on the [defaultdict(list)]. *)
Definition targets_of (schedule : gmap string (list Account)) (key : string)
  : list Account :=
  default [] (schedule !! key).

(** [self.funding_schedule[key].append(target)] *)
Definition schedule_append (key : string) (target : Account)
    (schedule : gmap string (list Account)) : gmap string (list Account) :=
  <[key := targets_of schedule key ++ [target]]> schedule.

(** Reading [self.funding_schedule[key]] creates the key. *)
Definition schedule_touch (key : string)
    (schedule : gmap string (list Account)) : gmap string (list Account) :=
  <[key := targets_of schedule key]> schedule.

(** The targets among [entries] (positions and accounts) whose position
    modulo the number of funders designates a funder with address [key],
    in order. *)
Definition assigned (funders : list Account) (key : string)
    (entries : list (nat * Account)) : list Account :=
  snd <$> filter (λ e : nat * Account,
            address <$> funders !! (e.1 `mod` length funders)%nat = Some key)
          entries.

(** The fields the schedule is built from and into are those of [s]. *)
Definition same_accounts (s s' : Script) : Prop :=
  funding_accounts s' = funding_accounts s
  ∧ target_accounts s' = target_accounts s.

Section Funding.
Context `{Api : Web3Api}.
Local Open Scope engine_scope.

(** [load_accounts] (quick_funding.py 76-98); [file] is the content of
    accounts.json, if the file exists. The exception is logged and raised
    again. *)
Definition load_accounts (file : option (list Account)) : M Script unit :=
  match file with
  | None => throw "Accounts file not found: exorde_accounts/accounts.json"
  | Some content =>
      update_self (set_all_accounts content) >>
      if (length content <? 2000)%nat
      then throw "Need at least 2000 accounts"
      else update_self (set_split (take 200 content)
                          (take (2000 - 200) (drop 200 content)))
  end.

(** The first loop of [initialize_funding_nonces_and_schedule]
    (quick_funding.py 105-116), for one funding account. *)
Definition fetch_nonce (account : Account) : M Script unit :=
  let addr := address account in
  try_except
    (let* s := read_self in
     let* w :=
       match w3 s with
       | None => throw "'NoneType' object has no attribute 'eth'"
       | Some w => ret w
       end in
     let* current_nonce := read_count w addr in
     update_self (λ s, set_funding_nonces (<[addr := current_nonce]> (funding_nonces s)) s))
    (λ _,
       update_self (λ s, set_funding_nonces (<[addr := 0]> (funding_nonces s)) s)).

(** The body of the scheduling loop (quick_funding.py 123-127) for the
    target at position [i]. *)
Definition schedule_target (entry : nat * Account) : M Script unit :=
  let '(i, target_account) := entry in
  let* s := read_self in
  if decide (length (funding_accounts s) = 0%nat)
  then throw "integer modulo by zero"
  else
    let funder_index := (i `mod` length (funding_accounts s))%nat in
    match funding_accounts s !! funder_index with
    | None => throw "list index out of range"
    | Some funding_account =>
        update_self (λ s, set_funding_schedule
          (schedule_append (address funding_account) target_account
             (funding_schedule s)) s)
    end.

(** The summary loop (quick_funding.py 130-134) reads the schedule of the
    first five funders. *)
Definition log_funder (funding_account : Account) : M Script unit :=
  update_self (λ s, set_funding_schedule
    (schedule_touch (address funding_account) (funding_schedule s)) s).

(** [initialize_funding_nonces_and_schedule] (quick_funding.py 100-136). *)
Definition initialize_funding_nonces_and_schedule : M Script unit :=
  let* s := read_self in
  for_each fetch_nonce (funding_accounts s) >>
  for_each schedule_target (imap pair (target_accounts s)) >>
  for_each log_funder (take 5 (funding_accounts s)) >>
  if decide (length (funding_accounts s) = 0%nat)
  then throw "integer division or modulo by zero"
  else ret tt.

End Funding.
End Funder.

(** ** Concrete nodes and accounts for the scenarios of the specification *)
Module Scenario.

(** Nodes that answer the broadcasts with a script, in order, and accept
    every broadcast once the script is used up; the ledger holds the
    transaction count of each address. *)
Record Nodes : Type := mkNodes {
  answers : list (result string);
  ledger : gmap string Z
}.

(** A web3 whose [build_transaction] and [sign_transaction] raise the
    given errors, if any. *)
Definition scripted (build_error sign_error : option string) : Web3Api := {|
  World := Nodes;
  build_transaction c _ o :=
    match build_error with
    | Some e => Raise e
    | None => Return (mkTx o (contract_address c) "SpotData")
    end;
  build_claim_master c _ o :=
    match build_error with
    | Some e => Raise e
    | None => Return (mkTx o (contract_address c) "ClaimMaster")
    end;
  sign_transaction _ tx key :=
    match sign_error with
    | Some e => Raise e
    | None => Return ("signed:" +:+ tx_from (tx_options tx) +:+ ":" +:+ key)
    end;
  send_raw_transaction w _ _ :=
    match answers w with
    | [] => (w, Return "0xhash")
    | r :: rest => (mkNodes rest (ledger w), r)
    end;
  get_transaction_count w _ addr :=
    (w, match ledger w !! addr with
        | Some n => Return n
        | None => Raise "unknown account"
        end);
  eth_gas_price w _ := (w, Return 200000)
|}.

Definition healthy : Web3Api := scripted None None.

Definition collision : result string :=
  Raise "Transaction with the same nonce already exists in the queue".

Definition rejection : result string :=
  Raise "insufficient funds for gas * price + value".

Definition acct1 : Account := mkAccount "0xA1" "key1" 0.
Definition acct2 : Account := mkAccount "0xA2" "key2" 1.
Definition acct3 : Account := mkAccount "0xA3" "key3" 2.

Definition seeded : gmap string Z := {[ "0xA1" := 5; "0xA2" := 0; "0xA3" := 12 ]}.

Definition node_a : Web3 := mkWeb3 0 "https://node-a".
Definition node_b : Web3 := mkWeb3 1 "https://node-b".
Definition node_c : Web3 := mkWeb3 2 "https://node-c".

(** A sender over [nodes] with the three accounts, nonces seeded at
    5, 0 and 12. *)
Definition sender_on (nodes : list string) : Sender :=
  set_account_nonces seeded (init_sender nodes (Some 2139927552) [acct1; acct2; acct3]).

Definition two_nodes : Sender := sender_on ["https://node-a"; "https://node-b"].

Definition three_nodes : Sender :=
  sender_on ["https://node-a"; "https://node-b"; "https://node-c"].

(** The machine over [s] whose nodes will give [script] as answers. *)
Definition start {Obj} (s : Obj) (script : list (result string))
  : @St healthy Obj :=
  @mkSt healthy Obj s (mkNodes script seeded) [].

(** The same machine with a web3 that cannot build the transaction. *)
Definition start_unbuildable (s : Sender) : @St (scripted (Some "Could not identify the intended function") None) Sender :=
  @mkSt (scripted (Some "Could not identify the intended function") None)
    Sender s (mkNodes [] seeded) [].

(** The ClaimMaster script ready to run against the first node. *)
Definition claim_script : ClaimMaster.Script :=
  ClaimMaster.mkScript (Some node_a) (Some 2139927552)
    (Some (mkContract node_a "0x797E0E87aDCf9845D2af2c5eee6F226feA3f0eFc"))
    "0x5AEDA56215b167893e80B4fE645BA6d5Bab767DE" seeded 0 0 0.

(** A queue filled to its bound. *)
Definition million : nat := Z.to_nat QUEUE_MAXSIZE.

Definition full_queue_sender : QueueSender :=
  set_transaction_queue
    (PyQueue.mkQueue QUEUE_MAXSIZE (replicate million spot_data_params))
    (init_queue_sender three_nodes).

(** The 2000 accounts of accounts.json: account [i] has the address
    ["0x" ++ i]. *)
Definition numbered_account (i : nat) : Account :=
  mkAccount ("0x" +:+ pretty i) ("key" +:+ pretty i) (Z.of_nat i).

Definition generated_accounts : list Account := numbered_account <$> seq 0 2000.

End Scenario.

(** ** The rest of the sender: initialisation and the main loop *)

(** Running a method of a part of the object: [get] reads the part, [set]
    writes it back. *)
Section Zoom.
Context `{Api : Web3Api} {Outer Inner : Type}.

Definition zoom (get : Outer → Inner) (set : Inner → Outer → Outer) {A}
    (m : M Inner A) : M Outer A :=
  λ st, let '(r, st1) := m (mkSt (get (self st)) (world st) (trace st)) in
        (r, mkSt (set (self st1) (self st)) (world st1) (trace st1)).

End Zoom.

(** How a [while] loop watched for a bounded number of cycles ended: by
    its [break] on the target, by its condition turning false, by an
    exception caught around it, or not yet. A cycle yields [None] to go
    on with the next cycle. *)
Inductive LoopEnd : Type :=
| TargetReached
| Stopped
| Crashed (error_msg : string)
| StillRunning.

Definition NONCE_REALIGNMENT_ITERATIONS : Z := 10000.

(** [if num_transactions and ...]: [None] and 0 are both false. *)
Definition has_target (num_transactions : option Z) : bool :=
  match num_transactions with
  | Some n => negb (n =? 0)
  | None => false
  end.

(** The sender of sender.py with the bookkeeping of its loop. *)
Record Runner : Type := mkRunner {
  runner_sender : Sender;
  last_nonce_check : Z
}.

Definition set_runner_sender (s : Sender) (r : Runner) : Runner :=
  mkRunner s (last_nonce_check r).

Definition set_last_nonce_check (n : Z) (r : Runner) : Runner :=
  mkRunner (runner_sender r) n.

(** The contracts were built one per handle, in order, as
    [initialize_dataspotting_contract] does (sender.py 132-138). *)
Definition contracts_aligned (s : Sender) : Prop :=
  ∃ cs, contracts s !! "DataSpotting" = Some cs
        ∧ contract_w3 <$> cs = w3_instances s.

Section SenderLoop.
Context `{Api : Web3Api}.
Local Open Scope engine_scope.

(** [n] calls of [get_next_account] in a row, in call order. *)
Fixpoint select_accounts (n : nat) : M Sender (list Account) :=
  match n with
  | O => ret []
  | S k =>
      let* account := get_next_account in
      let* rest := select_accounts k in
      ret (account :: rest)
  end.

(** The body of the loop of [initialize_nonces] (sender.py 164-172): a
    failed read sets the counter to 0. *)
Definition initialize_nonce (account : Account) : M Sender unit :=
  let addr := address account in
  try_except
    (let* w3 := get_next_sync_node in
     let* current_nonce := read_count w3 addr in
     update_self (λ s, set_account_nonces
                         (<[addr := current_nonce]> (account_nonces s)) s))
    (λ _,
       update_self (λ s, set_account_nonces (<[addr := 0]> (account_nonces s)) s)).

(** [initialize_nonces] (sender.py 160-174). *)
Definition initialize_nonces : M Sender unit :=
  let* s := read_self in
  for_each initialize_nonce (accounts s).

Definition on_sender {A} (m : M Sender A) : M Runner A :=
  zoom runner_sender set_runner_sender m.

(** The realignment test at the top of the cycle (sender.py 338-342). *)
Definition maybe_realign : M Runner unit :=
  let* r := read_self in
  let count := submissions_count (runner_sender r) in
  if (0 <? count) && (count `mod` NONCE_REALIGNMENT_ITERATIONS =? 0) then
    if negb (count =? last_nonce_check r) then
      on_sender realign_all_nonces >>
      let* r := read_self in
      update_self (set_last_nonce_check (submissions_count (runner_sender r)))
    else ret tt
  else ret tt.

(** One cycle of the [while True] loop of [run_high_speed_loop] (sender.py
    334-360), the pause left out. *)
Definition loop_cycle (num_transactions : option Z) : M Runner (option LoopEnd) :=
  let* r := read_self in
  if has_target num_transactions
     && (default 0 num_transactions <=? submissions_count (runner_sender r))
  then ret (Some TargetReached)
  else
    maybe_realign >>
    let* account := on_sender get_next_account in
    let* _ := on_sender (submit_spotdata_transaction account spot_data_params 3) in
    ret None.

Fixpoint loop_cycles (cycles : nat) (num_transactions : option Z)
  : M Runner LoopEnd :=
  match cycles with
  | O => ret StillRunning
  | S k =>
      let* exit := loop_cycle num_transactions in
      match exit with
      | Some reason => ret reason
      | None => loop_cycles k num_transactions
      end
  end.

(** [run_high_speed_loop] (sender.py 313-365) watched for at most
    [cycles] cycles: an exception raised in a cycle is logged and ends the
    loop. *)
Definition run_high_speed_loop (cycles : nat) (num_transactions : option Z)
  : M Runner LoopEnd :=
  try_except (loop_cycles cycles num_transactions)
    (λ error_msg, ret (Crashed error_msg)).

End SenderLoop.

(** ** The queue-driven loop (transactioneer_with_queue.py) *)
Record QueueRunner : Type := mkQueueRunner {
  queue_sender : QueueSender;
  queue_last_nonce_check : Z
}.

Definition set_queue_sender (qs : QueueSender) (r : QueueRunner) : QueueRunner :=
  mkQueueRunner qs (queue_last_nonce_check r).

Definition set_queue_last_nonce_check (n : Z) (r : QueueRunner) : QueueRunner :=
  mkQueueRunner (queue_sender r) n.

Definition set_base (s : Sender) (qs : QueueSender) : QueueSender :=
  mkQueueSender s (transaction_queue qs) (queue_empty_timeout qs) (running qs).

Definition set_running (b : bool) (qs : QueueSender) : QueueSender :=
  mkQueueSender (base qs) (transaction_queue qs) (queue_empty_timeout qs) b.

Definition runner_base (r : QueueRunner) : Sender := base (queue_sender r).

Definition set_runner_base (s : Sender) (r : QueueRunner) : QueueRunner :=
  set_queue_sender (set_base s (queue_sender r)) r.

(** [stop] (transactioneer_with_queue.py 433-436) *)
Definition stop (r : QueueRunner) : QueueRunner :=
  set_queue_sender (set_running false (queue_sender r)) r.

Section QueueLoop.
Context `{Api : Web3Api}.
Local Open Scope engine_scope.

Definition on_base {A} (m : M Sender A) : M QueueRunner A :=
  zoom runner_base set_runner_base m.

(** The realignment test (transactioneer_with_queue.py 373-377). *)
Definition queue_maybe_realign : M QueueRunner unit :=
  let* r := read_self in
  let count := submissions_count (runner_base r) in
  if (0 <? count) && (count `mod` NONCE_REALIGNMENT_ITERATIONS =? 0) then
    if negb (count =? queue_last_nonce_check r) then
      on_base realign_all_nonces >>
      let* r := read_self in
      update_self (set_queue_last_nonce_check (submissions_count (runner_base r)))
    else ret tt
  else ret tt.

(** One cycle of the [while self.running] loop (transactioneer_with_queue.py
    368-405). The flag is read by the test of the [while] only, so a
    [stop] of another thread takes effect at the next test:
    [stop_requested] tells whether it was called since the last one.
    [queue.Empty] is caught and the loop goes round; any other exception
    of the [get] leaves the loop. [task_done] only counts the finished
    tasks of the queue. *)
Definition queue_loop_cycle (stop_requested : bool) (num_transactions : option Z)
  : M QueueRunner (option LoopEnd) :=
  (if stop_requested then update_self stop else ret tt) >>
  let* r := read_self in
  if negb (running (queue_sender r)) then ret (Some Stopped)
  else if has_target num_transactions
          && (default 0 num_transactions <=? submissions_count (runner_base r))
  then ret (Some TargetReached)
  else
    queue_maybe_realign >>
    let* r := read_self in
    let qs := queue_sender r in
    match PyQueue.get (transaction_queue qs) true (Some (queue_empty_timeout qs)) with
    | PyQueue.Raises msg =>
        if String.eqb msg "Empty" then ret None else throw msg
    | PyQueue.Blocks => ret (Some StillRunning)
    | PyQueue.Done (transaction_params, q) =>
        update_self (set_queue_sender (set_transaction_queue q qs)) >>
        let* account := on_base get_next_account in
        let* _ := on_base (submit_spotdata_transaction account transaction_params 3) in
        ret None
    end.

(** The loop watched for one cycle per entry of [stops]. *)
Fixpoint queue_loop_cycles (stops : list bool) (num_transactions : option Z)
  : M QueueRunner LoopEnd :=
  match stops with
  | [] => ret StillRunning
  | stop_requested :: rest =>
      let* exit := queue_loop_cycle stop_requested num_transactions in
      match exit with
      | Some reason => ret reason
      | None => queue_loop_cycles rest num_transactions
      end
  end.

(** [run_high_speed_loop] (transactioneer_with_queue.py 345-412):
    [self.running = True], the loop, and [self.running = False] when an
    exception ends it. *)
Definition queue_run_high_speed_loop (stops : list bool) (num_transactions : option Z)
  : M QueueRunner LoopEnd :=
  update_self (λ r, set_queue_sender (set_running true (queue_sender r)) r) >>
  try_except (queue_loop_cycles stops num_transactions)
    (λ error_msg, update_self stop >> ret (Crashed error_msg)).

End QueueLoop.

(** ** What the loops are measured by *)

(** A broadcast a node answered with a transaction hash. *)
Definition is_accepted (ev : Event) : bool :=
  match ev with EvSend _ _ (Return _) => true | _ => false end.

(** The parts of the sender that only [load_accounts],
    [initialize_sync_nodes] and [get_next_account] write. *)
Definition same_pools (s s' : Sender) : Prop :=
  accounts s' = accounts s
  ∧ sync_nodes s' = sync_nodes s
  ∧ current_account_index s' = current_account_index s.

Definition keeps_pools `{Api : Web3Api} {A} (m : M Sender A) : Prop :=
  ∀ st, same_pools (self st) (self (m st).2).

(** The counters after a run whose new events are [evs]: one accepted
    broadcast per counted submission, one reservation per item. *)
Definition counters_follow (evs : list Event) (s s' : Sender) : Prop :=
  submissions_count s'
  = submissions_count s + Z.of_nat (count_events is_accepted evs)
  ∧ successful_submissions s'
    = successful_submissions s + Z.of_nat (count_events is_accepted evs)
  ∧ failed_submissions s' + Z.of_nat (count_events is_accepted evs)
    = failed_submissions s + Z.of_nat (count_events is_reserve evs).

(** The nonce reservations of a trace, in order: the address and the
    nonce handed out. *)
Definition reservations (tr : list Event) : list (string * Z) :=
  omap (λ ev, match ev with EvReserve addr n => Some (addr, n) | _ => None end) tr.

(** ** The loops of the ClaimMaster script (claim_master_all_addresses.py) *)
Module ClaimLoop.

(** The script with the list [load_all_accounts] read. *)
Record Claimer : Type := mkClaimer {
  script : ClaimMaster.Script;
  all_accounts : list Account
}.

Definition set_script (s : ClaimMaster.Script) (c : Claimer) : Claimer :=
  mkClaimer s (all_accounts c).

(** [self.total_claims_failed += 1] *)
Definition count_failed (s : ClaimMaster.Script) : ClaimMaster.Script :=
  ClaimMaster.set_counters (ClaimMaster.total_claims_attempted s)
    (ClaimMaster.total_claims_successful s)
    (ClaimMaster.total_claims_failed s + 1) s.

(** What a call leaves alone: the connection, the contract, the target. *)
Definition same_setup (s s' : ClaimMaster.Script) : Prop :=
  ClaimMaster.w3 s' = ClaimMaster.w3 s
  ∧ ClaimMaster.chain_id s' = ClaimMaster.chain_id s
  ∧ ClaimMaster.address_manager_obj s' = ClaimMaster.address_manager_obj s
  ∧ ClaimMaster.target_master_address s' = ClaimMaster.target_master_address s.

Section Loops.
Context `{Api : Web3Api}.
Local Open Scope engine_scope.

Definition on_script {A} (m : M ClaimMaster.Script A) : M Claimer A :=
  zoom script set_script m.

(** The body of the loop of [initialize_account_nonces]
    (claim_master_all_addresses.py 130-142): a failed read, also for
    want of a connection, sets the counter to 0. *)
Definition initialize_account_nonce (account : Account)
  : M ClaimMaster.Script unit :=
  let addr := address account in
  try_except
    (let* w := ClaimMaster.the_w3 in
     let* current_nonce := read_count w addr in
     update_self (λ s, ClaimMaster.set_account_nonces
                         (<[addr := current_nonce]> (ClaimMaster.account_nonces s)) s))
    (λ _,
       update_self (λ s, ClaimMaster.set_account_nonces
                           (<[addr := 0]> (ClaimMaster.account_nonces s)) s)).

(** [initialize_account_nonces] (claim_master_all_addresses.py 126-144) *)
Definition initialize_account_nonces : M Claimer unit :=
  let* c := read_self in
  for_each (λ account, on_script (initialize_account_nonce account))
    (all_accounts c).

(** The body of the loop of [sequential_claim_master_all_accounts]
    (claim_master_all_addresses.py 203-225), the pause left out. *)
Definition claim_account (account : Account) : M Claimer unit :=
  try_except
    (let* _ := on_script (ClaimMaster.claim_master_single_account account) in
     ret tt)
    (λ _, on_script (update_self count_failed)).

(** [sequential_claim_master_all_accounts]
    (claim_master_all_addresses.py 186-242) *)
Definition sequential_claim_master_all_accounts : M Claimer unit :=
  let* c := read_self in
  for_each claim_account (all_accounts c).

End Loops.
End ClaimLoop.

(** ** The funding run of quick_funding.py *)
Module FundingProcess.

(** The funder with the fields its transfers read and count in. *)
Record Process : Type := mkProcess {
  funder : Funder.Script;
  chain_id : option Z;
  funding_amount : Z;
  funding_attempts : Z;
  successful_fundings : Z;
  failed_fundings : Z
}.

Definition set_funder (f : Funder.Script) (p : Process) : Process :=
  mkProcess f (chain_id p) (funding_amount p) (funding_attempts p)
    (successful_fundings p) (failed_fundings p).

Definition set_counters (attempts ok failed : Z) (p : Process) : Process :=
  mkProcess (funder p) (chain_id p) (funding_amount p) attempts ok failed.

(** The targets scheduled for a funding account. *)
Definition scheduled (p : Process) (funding_account : Account) : list Account :=
  Funder.targets_of (Funder.funding_schedule (funder p)) (address funding_account).

(** The nonce counter of a funding address, if it has one. *)
Definition funding_nonce (p : Process) (funding_address : string) : option Z :=
  Funder.funding_nonces (funder p) !! funding_address.

Section Transfers.
Context `{Api : Web3Api}.
(** [Web3.to_checksum_address]: the address in checksum form; it raises
    on a string that is no address. *)
Variable to_checksum_address : string → result string.
Local Open Scope engine_scope.

Definition on_funder {A} (m : M Funder.Script A) : M Process A :=
  zoom funder set_funder m.

(** [get_next_nonce] (quick_funding.py 138-143), on the plain dict
    [funding_nonces]: a funding address without counter raises
    [KeyError]. *)
Definition get_next_nonce (funding_address : string) : M Funder.Script Z :=
  let* s := read_self in
  match Funder.funding_nonces s !! funding_address with
  | None => throw ("'" +:+ funding_address +:+ "'")
  | Some current_nonce =>
      update_self (Funder.set_funding_nonces
                     (<[funding_address := current_nonce + 1]>
                        (Funder.funding_nonces s))) >>
      emit (EvReserve funding_address current_nonce) >>
      ret current_nonce
  end.

(** [fund_single_target] (quick_funding.py 185-221). The transfer is a
    plain dict without sender and without data: both are left empty. *)
Definition fund_single_target (target_account funding_account : Account)
  : M Process (bool * option string) :=
  try_except
    (let target_address := address target_account in
     let funding_address := address funding_account in
     let funding_private_key := private_key funding_account in
     let* nonce := on_funder (get_next_nonce funding_address) in
     let* p := read_self in
     let* w :=
       match Funder.w3 (funder p) with
       | None => throw "'NoneType' object has no attribute 'eth'"
       | Some w => ret w
       end in
     let* price := rpc (λ world, eth_gas_price world w) in
     let* gas_price := lift price in
     let* to := lift (to_checksum_address target_address) in
     let* chain :=
       match chain_id p with
       | None => throw "int() argument must be a string, a bytes-like object or a real number, not 'NoneType'"
       | Some c => ret c
       end in
     let transaction :=
       mkTx (mkTxOptions "" nonce (funding_amount p) 21000 gas_price chain) to "" in
     let* signed_txn := sign w transaction funding_private_key in
     let* tx_hash := send w signed_txn in
     update_self (λ p, set_counters (funding_attempts p + 1)
                         (successful_fundings p + 1) (failed_fundings p) p) >>
     ret (true, Some tx_hash))
    (λ _,
       update_self (λ p, set_counters (funding_attempts p)
                           (successful_fundings p) (failed_fundings p + 1) p) >>
       ret (false, None)).

(** The loop of [fund_sequential_worker] (quick_funding.py 234-254) over
    the targets still to fund, the pauses left out. *)
Fixpoint worker_loop (funding_account : Account) (targets : list Account)
    (funder_success funder_failed : Z) : M Process (Z * Z) :=
  match targets with
  | [] => ret (funder_success, funder_failed)
  | target_account :: rest =>
      let* counts :=
        try_except
          (let* out := fund_single_target target_account funding_account in
           ret (if out.1 then (funder_success + 1, funder_failed)
                else (funder_success, funder_failed + 1)))
          (λ _, ret (funder_success, funder_failed + 1)) in
      worker_loop funding_account rest counts.1 counts.2
  end.

(** [fund_sequential_worker] (quick_funding.py 223-257): reading the
    schedule of the funder creates its key. *)
Definition fund_sequential_worker (funding_account : Account)
  : M Process (Z * Z) :=
  let* p := read_self in
  let targets := scheduled p funding_account in
  update_self (λ p, set_funder
    (Funder.set_funding_schedule
       (Funder.schedule_touch (address funding_account)
          (Funder.funding_schedule (funder p))) (funder p)) p) >>
  worker_loop funding_account targets 0 0.

(** The loop of [sequential_funding_process] (quick_funding.py 281-315)
    over the funding accounts still to process; [totals] are
    [completed_funders], [total_funding_success] and
    [total_funding_failed]. *)
Fixpoint process_loop (funders : list Account) (totals : Z * Z * Z)
  : M Process (Z * Z * Z) :=
  match funders with
  | [] => ret totals
  | funding_account :: rest =>
      let* totals' :=
        try_except
          (let* counts := fund_sequential_worker funding_account in
           ret (totals.1.1 + 1, totals.1.2 + counts.1, totals.2 + counts.2))
          (λ _, ret (totals.1.1 + 1, totals.1.2, totals.2 + 1)) in
      process_loop rest totals'
  end.

(** [sequential_funding_process] up to its summary: the totals it
    logs. The banner needs the connection. *)
Definition sequential_funding_totals : M Process (Z * Z * Z) :=
  let* p := read_self in
  (match Funder.w3 (funder p) with
   | None => throw "'NoneType' object has no attribute 'from_wei'"
   | Some _ => ret tt
   end) >>
  process_loop (Funder.funding_accounts (funder p)) (0, 0, 0).

(** [sequential_funding_process] (quick_funding.py 259-337) *)
Definition sequential_funding_process : M Process unit :=
  sequential_funding_totals >> ret tt.

End Transfers.

(** What a transfer leaves alone: the accounts, the targets scheduled for
    every funder, the connection, the chain and the amount. *)
Definition same_plan (p p' : Process) : Prop :=
  Funder.funding_accounts (funder p') = Funder.funding_accounts (funder p)
  ∧ Funder.target_accounts (funder p') = Funder.target_accounts (funder p)
  ∧ Funder.w3 (funder p') = Funder.w3 (funder p)
  ∧ chain_id p' = chain_id p
  ∧ funding_amount p' = funding_amount p
  ∧ ∀ key, Funder.targets_of (Funder.funding_schedule (funder p')) key
           = Funder.targets_of (Funder.funding_schedule (funder p)) key.

(** How many targets the schedule holds for the funders of a list. *)
Definition scheduled_total (p : Process) (funders : list Account) : nat :=
  sum_list ((λ f, length (scheduled p f)) <$> funders).

End FundingProcess.

(** ** The pool monitor (monitor_nonces_increase.py) *)
Module Monitor.

(** An entry of [monitored_accounts]. *)
Record Monitored : Type := mkMonitored {
  m_index : Z;
  m_address : string;
  m_position : nat
}.

(** The fields of [ExordePoolMonitor] the monitoring reads or writes; a
    history entry is a time and the nonce read then. *)
Record State : Type := mkState {
  sample_every_nth : nat;
  w3 : option Web3;
  monitored_accounts : list Monitored;
  nonce_history : gmap string (list (Z * Z))
}.

Definition set_monitored (l : list Monitored) (s : State) : State :=
  mkState (sample_every_nth s) (w3 s) l (nonce_history s).

Definition set_nonce_history (h : gmap string (list (Z * Z))) (s : State) : State :=
  mkState (sample_every_nth s) (w3 s) (monitored_accounts s) h.

(** [__init__] (monitor_nonces_increase.py 16-30), the connection made. *)
Definition init (w : option Web3) : State := mkState 10 w [] ∅.

(** [range(start, stop, step)] for a positive [step], at most [fuel]
    numbers of it. *)
Fixpoint range_from (fuel start stop step : nat) : list nat :=
  match fuel with
  | O => []
  | S k =>
      if (start <? stop)%nat
      then start :: range_from k (start + step) stop step
      else []
  end.

(** [range(0, stop, step)]: there are at most [stop] numbers in it. *)
Definition range_step (stop step : nat) : list nat :=
  range_from stop 0 stop step.

(** [self.nonce_history[address]] on the [defaultdict(list)]. *)
Definition history_of (h : gmap string (list (Z * Z))) (addr : string)
  : list (Z * Z) :=
  default [] (h !! addr).

(** [l[-n:]] for a positive [n]. *)
Definition last_n {A} (n : nat) (l : list A) : list A :=
  drop (length l - n) l.

Definition HISTORY_LENGTH : nat := 10.

(** The history of [addr] after a reading: appended, then cut to the
    last 10 entries (monitor_nonces_increase.py 98-102). *)
Definition record_nonce (addr : string) (entry : Z * Z)
    (h : gmap string (list (Z * Z))) : gmap string (list (Z * Z)) :=
  let appended := history_of h addr ++ [entry] in
  <[addr := if (HISTORY_LENGTH <? length appended)%nat
            then last_n HISTORY_LENGTH appended else appended]> h.

(** An entry of [increases_data], without the rate, a float. *)
Record Increase : Type := mkIncrease {
  inc_account : Monitored;
  current_nonce : Z;
  prev_nonce : Z;
  increase : Z
}.

(** [history[-2]], for a history of at least two entries. *)
Definition second_last (history : list (Z * Z)) : option (Z * Z) :=
  history !! (length history - 2)%nat.

(** The nonce an increase is measured against
    (monitor_nonces_increase.py 121-130): the one of [history[-2]], or
    the current one for a history of less than two entries. *)
Definition previous_nonce (history : list (Z * Z)) (current : Z) : Z :=
  if (2 <=? length history)%nat
  then default current (snd <$> second_last history)
  else current.

(** The summary of [display_monitoring_results]
    (monitor_nonces_increase.py 147-148) *)
Definition total_increases (increases_data : list Increase) : Z :=
  foldr Z.add 0 (increase <$> increases_data).

Definition active_accounts (increases_data : list Increase) : nat :=
  length (filter (λ data, 0 < increase data) increases_data).

Section Monitoring.
Context `{Api : Web3Api}.
Local Open Scope engine_scope.

(** [load_monitored_accounts] (monitor_nonces_increase.py 61-84);
    [file] is the content of accounts.json, if the file exists. The
    exception is logged and raised again. *)
Definition load_monitored_accounts (file : option (list Account))
  : M State unit :=
  match file with
  | None => throw "Accounts file not found: exorde_accounts/accounts.json"
  | Some all_accounts =>
      update_self (set_monitored []) >>
      let* s := read_self in
      if decide (sample_every_nth s = 0%nat)
      then throw "range() arg 3 must not be zero"
      else
        for_each
          (λ i,
             match all_accounts !! i with
             | None => throw "list index out of range"
             | Some account =>
                 update_self (λ s, set_monitored
                   (monitored_accounts s
                    ++ [mkMonitored (index account) (address account) i]) s)
             end)
          (range_step (length all_accounts) (sample_every_nth s))
  end.

(** The body of the loop of [get_current_nonces]
    (monitor_nonces_increase.py 92-106) *)
Definition read_nonce (current_time : Z) (account : Monitored)
    (nonces_data : gmap string (option Z)) : M State (gmap string (option Z)) :=
  let addr := m_address account in
  try_except
    (let* s := read_self in
     let* w :=
       match w3 s with
       | None => throw "'NoneType' object has no attribute 'eth'"
       | Some w => ret w
       end in
     let* nonce := read_count w addr in
     update_self (λ s, set_nonce_history
                         (record_nonce addr (current_time, nonce)
                            (nonce_history s)) s) >>
     ret (<[addr := Some nonce]> nonces_data))
    (λ _, ret (<[addr := None]> nonces_data)).

Fixpoint read_nonces (current_time : Z) (accounts : list Monitored)
    (nonces_data : gmap string (option Z)) : M State (gmap string (option Z)) :=
  match accounts with
  | [] => ret nonces_data
  | account :: rest =>
      let* nonces_data := read_nonce current_time account nonces_data in
      read_nonces current_time rest nonces_data
  end.

(** [get_current_nonces] (monitor_nonces_increase.py 86-108);
    [current_time] is [datetime.now()]. *)
Definition get_current_nonces (current_time : Z)
  : M State (gmap string (option Z) * Z) :=
  let* s := read_self in
  let* nonces_data := read_nonces current_time (monitored_accounts s) ∅ in
  ret (nonces_data, current_time).

(** The body of the loop of [calculate_nonce_increases]
    (monitor_nonces_increase.py 113-139): nothing for an account without
    nonce; reading the history of an account creates its key. *)
Definition nonce_increase (current_nonces : gmap string (option Z))
    (account : Monitored) : M State (list Increase) :=
  let addr := m_address account in
  match mjoin (current_nonces !! addr) with
  | None => ret []
  | Some current =>
      let* s := read_self in
      let history := history_of (nonce_history s) addr in
      update_self (set_nonce_history (<[addr := history]> (nonce_history s))) >>
      if (2 <=? length history)%nat then
        match second_last history with
        | None => throw "list index out of range"
        | Some (prev_time, prev) =>
            ret [mkIncrease account current prev (current - prev)]
        end
      else ret [mkIncrease account current current 0]
  end.

Fixpoint nonce_increases (current_nonces : gmap string (option Z))
    (accounts : list Monitored) : M State (list Increase) :=
  match accounts with
  | [] => ret []
  | account :: rest =>
      let* data := nonce_increase current_nonces account in
      let* more := nonce_increases current_nonces rest in
      ret (data ++ more)
  end.

(** [calculate_nonce_increases] (monitor_nonces_increase.py 110-141) *)
Definition calculate_nonce_increases (current_nonces : gmap string (option Z))
    (current_time : Z) : M State (list Increase) :=
  let* s := read_self in
  nonce_increases current_nonces (monitored_accounts s).

(** [run_monitoring_cycle] (monitor_nonces_increase.py 198-215) up to
    the display: the data displayed, or nothing after an exception. *)
Definition run_monitoring_cycle (current_time : Z)
  : M State (option (list Increase)) :=
  try_except
    (let* reading := get_current_nonces current_time in
     let* increases_data := calculate_nonce_increases reading.1 reading.2 in
     ret (Some increases_data))
    (λ _, ret None).

End Monitoring.
End Monitor.

(** ** The faucet (fund_accounts.py) *)
Module Faucet.

(** The fields of [ExordeAccountFunder] the funding reads or writes. *)
Record State : Type := mkState {
  main_faucet_pk : string;
  VALUE_FUNDING : Z;
  w3 : option Web3;
  chain_id : option Z;
  main_address : option string;
  main_nonce : option Z
}.

Definition set_main_nonce (n : option Z) (s : State) : State :=
  mkState (main_faucet_pk s) (VALUE_FUNDING s) (w3 s) (chain_id s)
    (main_address s) n.

(** An entry of [funding_results]. *)
Record FundingResult : Type := mkFundingResult {
  result_account : Account;
  result_success : bool;
  result_tx_hash : option string
}.

(** What a transfer leaves alone: everything but the nonce. *)
Definition same_faucet (s s' : State) : Prop :=
  main_faucet_pk s' = main_faucet_pk s
  ∧ VALUE_FUNDING s' = VALUE_FUNDING s
  ∧ w3 s' = w3 s
  ∧ chain_id s' = chain_id s
  ∧ main_address s' = main_address s.

Section Funding.
Context `{Api : Web3Api}.
(** [Web3.to_checksum_address], [w3.eth.wait_for_transaction_receipt],
    which answers with the status of the receipt, and
    [w3.eth.get_balance]. *)
Variable to_checksum_address : string → result string.
Variable wait_for_transaction_receipt : World → Web3 → string → World * result Z.
Variable get_balance : World → Web3 → string → World * result Z.
Local Open Scope engine_scope.

(** [get_next_main_nonce] (fund_accounts.py 137-142): before
    [initialize_network_config] the nonce is [None], and the increment
    raises. *)
Definition get_next_main_nonce : M State Z :=
  let* s := read_self in
  match main_nonce s with
  | None => throw "unsupported operand type(s) for +=: 'NoneType' and 'int'"
  | Some current_nonce =>
      update_self (set_main_nonce (Some (current_nonce + 1))) >>
      emit (EvReserve (default "" (main_address s)) current_nonce) >>
      ret current_nonce
  end.

(** [fund_single_address] (fund_accounts.py 181-247). The transfer is a
    plain dict without sender and without data: both are left empty. *)
Definition fund_single_address (account : Account) (attempt_number : nat)
  : M State (bool * option string) :=
  try_except
    (let target_address := address account in
     let* nonce := get_next_main_nonce in
     let* s := read_self in
     let* w :=
       match w3 s with
       | None => throw "'NoneType' object has no attribute 'to_checksum_address'"
       | Some w => ret w
       end in
     let* target_address := lift (to_checksum_address target_address) in
     let gas_price := 150000 in
     let* chain :=
       match chain_id s with
       | None => throw "int() argument must be a string, a bytes-like object or a real number, not 'NoneType'"
       | Some c => ret c
       end in
     let transaction :=
       mkTx (mkTxOptions "" nonce (VALUE_FUNDING s) 21000 gas_price chain)
         target_address "" in
     let* signed_txn := sign w transaction (main_faucet_pk s) in
     let* tx_hash := send w signed_txn in
     let* receipt := rpc (λ world, wait_for_transaction_receipt world w tx_hash) in
     let* status := lift receipt in
     if status =? 1 then
       let* balance := rpc (λ world, get_balance world w target_address) in
       let* new_balance := lift balance in
       ret (true, Some tx_hash)
     else ret (false, Some tx_hash))
    (λ _, ret (false, None)).

(** The loop of [fund_all_addresses_sequential] (fund_accounts.py
    261-285) over the accounts still to fund, numbered from [i]; the
    pauses left out. *)
Fixpoint funding_loop (accounts_data : list Account) (i : nat)
    (successful_funding : Z) (failed_accounts : list Z)
    (funding_results : list FundingResult)
  : M State (Z * list Z * list FundingResult) :=
  match accounts_data with
  | [] => ret (successful_funding, failed_accounts, funding_results)
  | account :: rest =>
      let* out := fund_single_address account i in
      let funding_results :=
        funding_results ++ [mkFundingResult account out.1 out.2] in
      if out.1
      then funding_loop rest (S i) (successful_funding + 1) failed_accounts
             funding_results
      else funding_loop rest (S i) successful_funding
             (failed_accounts ++ [index account]) funding_results
  end.

(** [fund_all_addresses_sequential] (fund_accounts.py 249-298) *)
Definition fund_all_addresses_sequential (accounts_data : list Account)
  : M State (Z * list FundingResult) :=
  let* totals := funding_loop accounts_data 1 0 [] [] in
  ret (totals.1.1, totals.2).

End Funding.
End Faucet.

(** A faucet to run the funding on. *)
Module FaucetScenario.

(** The faucet configured against the first node, with its nonce read. *)
Definition faucet (main_nonce : option Z) : Faucet.State :=
  Faucet.mkState "faucet-key" 100 (Some Scenario.node_a) (Some 2139927552)
    (Some "0xFA") main_nonce.

(** Receipts that report success but for the transaction "0xbad". *)
Definition receipts (w : Scenario.Nodes) (_ : Web3) (tx_hash : string)
  : Scenario.Nodes * result Z :=
  (w, Return (if String.eqb tx_hash "0xbad" then 0 else 1)).

Definition balances (w : Scenario.Nodes) (_ : Web3) (_ : string)
  : Scenario.Nodes * result Z :=
  (w, Return 100).

End FaucetScenario.

(** ** What a run signed *)


Section Signed.
Context `{Api : Web3Api}.

(** [raw] is what [submit_spotdata_transaction] signs for [account] and
    [transaction_params] when it is called on the sender [s] (sender.py
    244-265): the contract and the node under the cursor exist, the chain
    id is set, the transaction built from the parameters, with the
    current counter of the account as nonce, is signed with the key of
    the account, and the signature is [raw]. *)
Definition signs_as (s : Sender) (account : Account)
    (transaction_params : SpotDataParams) (raw : string) : Prop :=
  let addr := address account in
  let nonce := Nonces.nonce_of (account_nonces s) addr in
  ∃ cs contract w3_read chain transaction,
    contracts s !! "DataSpotting" = Some cs
    ∧ cs !! current_sync_node_index s = Some contract
    ∧ w3_instances s !! current_sync_node_index s = Some w3_read
    ∧ chain_id s = Some chain
    ∧ build_transaction contract transaction_params
        (mkTxOptions addr nonce 0 (gas_limit s) (gas_price s) chain)
      = Return transaction
    ∧ sign_transaction w3_read transaction (private_key account) = Return raw.




End Signed.

(** ** The transfers of the funding process, target by target *)
Section SignedTransfers.
Context `{Api : Web3Api}.
Variable to_checksum_address : string → result string.



End SignedTransfers.


(** ** Accounts as the file gives them

    [load_accounts] keeps what [json.load] returns and no script checks
    the entries. The submission reads an entry by its three keys; here an
    entry is what these subscripts can find: a key may be missing; the
    address and the private key, when present, are strings; the index,
    when present, is an integer, a string or [null]. *)
Module Unvalidated.

Inductive PyValue : Type :=
| PyInt (n : Z)
| PyStr (s : string)
| PyNone.

Record AccountInput : Type := mkAccountInput {
  input_address : option string;
  input_private_key : option string;
  input_index : option PyValue
}.

(** The entry [generate_sender_addresses] writes for an account. *)
Definition of_account (account : Account) : AccountInput :=
  mkAccountInput (Some (address account)) (Some (private_key account))
    (Some (PyInt (index account))).

(** [account[key]]: a missing key raises [KeyError], whose text is the
    key in quotes. *)
Definition subscript {A} (key : string) (entry : option A) : result A :=
  match entry with
  | Some value => Return value
  | None => Raise ("'" +:+ key +:+ "'")
  end.

(** [f"{index:02d}"]: the format code [d] is for integers only. The text
    produced goes to the log and is left out. *)
Definition format_02d (index : PyValue) : result unit :=
  match index with
  | PyInt _ => Return tt
  | PyStr _ => Raise "Unknown format code 'd' for object of type 'str'"
  | PyNone => Raise "unsupported format string passed to NoneType.__format__"
  end.

(** The local variable [index] of [submit_spotdata_transaction]: it is
    bound by the third subscript, so only when all three returned. *)
Definition bound_index (account : AccountInput) : option PyValue :=
  match input_address account, input_private_key account with
  | Some _, Some _ => input_index account
  | _, _ => None
  end.

(** Reading the local variable: unbound, it raises [UnboundLocalError]
    (the text is the one of Python 3.11 and later). *)
Definition local_index (index : option PyValue) : result PyValue :=
  match index with
  | Some value => Return value
  | None =>
      Raise "cannot access local variable 'index' where it is not associated with a value"
  end.

Section Submission.
Context `{Api : Web3Api}.
Local Open Scope engine_scope.

(** A message of the log that formats the index. *)
Definition log_index (index : PyValue) : M Sender unit :=
  lift (format_02d index).

(** The retry loop (sender.py 269-302) with its messages: the [print]
    after the broadcast, before the counters; the message of a retry
    that succeeded; and the messages of the handler, which are outside
    the inner [try]. *)
Fixpoint retry_loop (index : PyValue) (raw : string) (max_retries : Z)
    (attempts : list Z) : M Sender LoopExit :=
  match attempts with
  | [] => ret Exhausted
  | retry_attempt :: rest =>
      try_except
        (let* w3_write := get_next_sync_node in
         let* tx_hash := send w3_write raw in
         log_index index >>
         count_success >>
         (if 0 <? retry_attempt then log_index index else ret tt) >>
         ret (Returned true (Some tx_hash)))
        (λ error_msg,
           if is_nonce_collision error_msg then
             if retry_attempt <? max_retries - 1
             then log_index index >> retry_loop index raw max_retries rest
             else log_index index >> retry_loop index raw max_retries rest
           else log_index index >> ret Broke)
  end.

(** [submit_spotdata_transaction] (sender.py 235-311,
    transactioneer_with_queue.py 267-343) on an entry as it is: the
    three subscripts are the first statements of the [try], and the
    handler at the end counts the failure and then formats [index] for
    its message. *)
Definition submit_spotdata_transaction (account : AccountInput)
    (transaction_params : SpotDataParams) (max_retries : Z)
  : M Sender (bool * option string) :=
  try_except
    (let* addr := lift (subscript "address" (input_address account)) in
     let* key := lift (subscript "private_key" (input_private_key account)) in
     let* index := lift (subscript "index" (input_index account)) in
     let* nonce := get_next_nonce addr in
     let* contract := get_next_contract in
     let* w3_read := get_next_sync_node in
     let* s := read_self in
     let* chain := int_chain_id in
     let* transaction :=
       lift (build_transaction contract transaction_params
               (mkTxOptions addr nonce 0 (gas_limit s) (gas_price s) chain)) in
     let* signed_tx := sign w3_read transaction key in
     let* exit := retry_loop index signed_tx max_retries (range max_retries) in
     match exit with
     | Returned success tx_hash => ret (success, tx_hash)
     | Broke | Exhausted => count_failure >> ret (false, None)
     end)
    (λ _,
       count_failure >>
       let* index := lift (local_index (bound_index account)) in
       log_index index >>
       ret (false, None)).

End Submission.

End Unvalidated.

(** ** A web3 whose bytes can be read

    The encoded call spells out the arguments of [SpotData], and the
    signed bytes spell out the sender, the nonce, the callee, the call
    and the key; the nodes are the scripted ones. *)
Module Legible.

Definition encode (p : SpotDataParams) : string :=
  "SpotData(" +:+ String.concat "," (file_hashs p) +:+ ";" +:+ extra p +:+ ")".

Definition signed (tx : Tx) (key : string) : string :=
  "signed(" +:+ tx_from (tx_options tx) +:+ "," +:+ pretty (tx_nonce (tx_options tx))
  +:+ "," +:+ tx_to tx +:+ "," +:+ tx_data tx +:+ ")by:" +:+ key.

Definition web3 : Web3Api := {|
  World := Scenario.Nodes;
  build_transaction c p o := Return (mkTx o (contract_address c) (encode p));
  build_claim_master c _ o := Return (mkTx o (contract_address c) "ClaimMaster");
  sign_transaction _ tx key := Return (signed tx key);
  send_raw_transaction := @send_raw_transaction Scenario.healthy;
  get_transaction_count := @get_transaction_count Scenario.healthy;
  eth_gas_price := @eth_gas_price Scenario.healthy
|}.

(** The machine over [s], with the nodes of [Scenario.start]. *)
Definition start {Obj} (s : Obj) (script : list (result string))
  : @St web3 Obj :=
  @mkSt web3 Obj s (Scenario.mkNodes script Scenario.seeded) [].

(** Two items to tell apart. *)
Definition item (name : string) : SpotDataParams := mkParams [name] [""] [0] "".

End Legible.

(** * Properties *)

(** ** The nonce allocator *)
Section NonceFacts.
Import Nonces.

Lemma nonce_of_insert_eq addr v m : nonce_of (<[addr := v]> m) addr = v.
Proof. unfold nonce_of. by rewrite lookup_insert_eq. Qed.

Lemma nonce_of_insert_ne addr other v m :
  addr ≠ other → nonce_of (<[addr := v]> m) other = nonce_of m other.
Proof. intros Hne. unfold nonce_of. by rewrite lookup_insert_ne. Qed.

Lemma get_next_nonce_other addr other m :
  addr ≠ other → nonce_of (get_next_nonce addr m).2 other = nonce_of m other.
Proof. apply nonce_of_insert_ne. Qed.

Lemma reconcile_counter addr v m : nonce_of (reconcile addr v m) addr = v.
Proof.
  unfold reconcile. case_decide as Hd.
  - apply nonce_of_insert_eq.
  - rewrite nonce_of_insert_eq.
    destruct (decide (v = nonce_of m addr)) as [Heq|Hne]; [by symmetry|].
    by destruct Hd.
Qed.

Lemma reconcile_other addr other v m :
  addr ≠ other → nonce_of (reconcile addr v m) other = nonce_of m other.
Proof.
  intros Hne. unfold reconcile.
  case_decide; rewrite ?nonce_of_insert_ne; done.
Qed.

Lemma reserve_many_spec n : ∀ addr m,
  (reserve_many n addr m).1 = (λ k, nonce_of m addr + Z.of_nat k) <$> seq 0 n
  ∧ nonce_of (reserve_many n addr m).2 addr = nonce_of m addr + Z.of_nat n.
Proof.
  induction n as [|n IH]; intros addr m.
  - simpl. split; [done | lia].
  - cbn [reserve_many]. unfold get_next_nonce.
    set (m1 := <[addr := nonce_of m addr + 1]> m).
    specialize (IH addr m1).
    destruct (reserve_many n addr m1) as [vs m2] eqn:Hrun.
    cbn [fst snd] in *. destruct IH as [IHv IHc].
    assert (Hm1 : nonce_of m1 addr = nonce_of m addr + 1)
      by apply nonce_of_insert_eq.
    rewrite Hm1 in IHv, IHc. split.
    + cbn [seq fmap list_fmap]. f_equal; [lia|].
      rewrite IHv, <- seq_shift, <- list_fmap_compose.
      apply list_fmap_ext. intros _ k _. simpl. lia.
    + lia.
Qed.

(** Consecutive integers from [v] are strictly increasing. *)
Lemma consecutive_sorted v n :
  StronglySorted Z.lt ((λ k, v + Z.of_nat k) <$> seq 0 n).
Proof.
  assert (H : ∀ start, StronglySorted Z.lt ((λ k, v + Z.of_nat k) <$> seq start n)).
  { induction n as [|n IH]; intros start; cbn; constructor; [apply IH|].
    apply Forall_fmap, Forall_forall. intros k Hk%elem_of_seq. cbn. lia. }
  apply H.
Qed.

Lemma consecutive_NoDup v n : NoDup ((λ k, v + Z.of_nat k) <$> seq 0 n).
Proof.
  apply NoDup_fmap_2; [|apply NoDup_seq]. intros a b Hab. lia.
Qed.

End NonceFacts.

(** ** One submission, step by step *)
Section SubmissionFacts.
Context `{Api : Web3Api}.

Lemma length_range n : length (range n) = Z.to_nat n.
Proof. unfold range. by rewrite length_fmap, length_seq. Qed.

Lemma broadcasts_app tr1 tr2 : broadcasts (tr1 ++ tr2) = broadcasts tr1 ++ broadcasts tr2.
Proof. unfold broadcasts. apply omap_app. Qed.

Lemma broadcasts_send_events bs : broadcasts (send_event <$> bs) = bs.
Proof.
  induction bs as [|[[w raw] r] bs IH]; [done|].
  cbn. unfold broadcasts in IH. by rewrite IH.
Qed.

Lemma new_events_app {Obj} (st st' : St Obj) evs :
  trace st' = trace st ++ evs → new_events st st' = evs.
Proof. intros Htr. unfold new_events. by rewrite Htr, drop_app_length. Qed.

Lemma w3_instances_length s : length (w3_instances s) = length (sync_nodes s).
Proof. apply length_imap. Qed.

Lemma w3_instances_slot s i w3 : w3_instances s !! i = Some w3 → w3_slot w3 = i.
Proof.
  unfold w3_instances. rewrite list_lookup_imap.
  destruct (sync_nodes s !! i); cbn; [|done]. by intros [= <-].
Qed.

Lemma w3_instances_NoDup s : NoDup (w3_instances s).
Proof.
  apply NoDup_alt. intros i j w3 Hi Hj.
  apply w3_instances_slot in Hi, Hj. congruence.
Qed.

Lemma get_next_sync_node_run st :
  get_next_sync_node st =
  match w3_instances (self st) !! current_sync_node_index (self st) with
  | None => (Raise "list index out of range", st)
  | Some w3 =>
      (Return w3, mkSt (advance_cursor (self st)) (world st) (trace st))
  end.
Proof.
  unfold get_next_sync_node, bind, read_self. simpl.
  destruct (w3_instances (self st) !! _); reflexivity.
Qed.

(** One pass through the body of the retry loop. *)
Lemma retry_loop_cons raw max_retries retry_attempt rest st :
  retry_loop raw max_retries (retry_attempt :: rest) st =
  match w3_instances (self st) !! current_sync_node_index (self st) with
  | None => (Return Broke, st)
  | Some w3 =>
      let s1 := advance_cursor (self st) in
      let '(w1, response) := send_raw_transaction (world st) w3 raw in
      let st2 := mkSt s1 w1 (trace st ++ [EvSend w3 raw response]) in
      match response with
      | Return tx_hash =>
          (Return (Returned true (Some tx_hash)),
           mkSt (set_counters (submissions_count s1 + 1)
                   (successful_submissions s1 + 1) (failed_submissions s1) s1)
             w1 (trace st2))
      | Raise error_msg =>
          if is_nonce_collision error_msg
          then retry_loop raw max_retries rest st2
          else (Return Broke, st2)
      end
  end.
Proof.
  cbn [retry_loop]. unfold try_except at 1. unfold bind at 1.
  rewrite get_next_sync_node_run.
  destruct (w3_instances (self st) !! _) as [w3|]; [|reflexivity].
  unfold send, count_success, rpc, emit, lift, update_self, ret, bind. simpl.
  destruct (send_raw_transaction (world st) w3 raw) as [w1 [h|e]]; simpl.
  - reflexivity.
  - destruct (is_nonce_collision e); [|reflexivity].
    destruct (retry_attempt <? max_retries - 1); reflexivity.
Qed.

(** A run of the loop started with the cursor on slot [c] of a pool of
    [N] nodes. It never raises; it only broadcasts the bytes it was given,
    attempt [i] on slot [(c + i) mod N]; it leaves the nonces alone; an
    answer that is not a collision ends it; collisions only use up all
    the attempts. *)
Lemma retry_loop_run raw max_retries attempts : ∀ st,
  let pool := w3_instances (self st) in
  let c := current_sync_node_index (self st) in
  ∃ exit st' bs,
    retry_loop raw max_retries attempts st = (Return exit, st')
    ∧ trace st' = trace st ++ (send_event <$> bs)
    ∧ Forall (λ b : Broadcast, b.1.2 = raw) bs
    ∧ (length bs ≤ length attempts)%nat
    ∧ account_nonces (self st') = account_nonces (self st)
    ∧ match exit with
      | Returned success tx_hash =>
          success = true ∧ is_Some tx_hash
          ∧ counted_success (self st) (self st')
      | Broke | Exhausted => counters_kept (self st) (self st')
      end
    ∧ (∀ i (b : Broadcast), bs !! i = Some b →
         pool !! ((c + i) `mod` length pool)%nat = Some b.1.1)
    ∧ (∀ i (b : Broadcast), bs !! i = Some b →
         is_collision_response b.2 = false →
         S i = length bs
         ∧ exit = match b.2 with
                  | Return tx_hash => Returned true (Some tx_hash)
                  | Raise _ => Broke
                  end)
    ∧ ((c < length pool)%nat →
       Forall (λ b : Broadcast, is_collision_response b.2 = true) bs →
       exit = Exhausted ∧ length bs = length attempts).
Proof.
  induction attempts as [|k rest IH]; intros st pool c.
  - exists Exhausted, st, []. cbn. rewrite app_nil_r.
    repeat split; done.
  - rewrite retry_loop_cons. fold pool c.
    destruct (pool !! c) as [w3|] eqn:Hw3.
    2:{ exists Broke, st, []. cbn. rewrite app_nil_r.
        apply lookup_ge_None in Hw3.
        repeat split; try done; lia. }
    assert (Hc : (c < length pool)%nat) by by apply lookup_lt_Some in Hw3.
    assert (Hslot0 : pool !! ((c + 0) `mod` length pool)%nat = Some w3).
    { by rewrite Nat.add_0_r, Nat.mod_small. }
    cbv zeta.
    destruct (send_raw_transaction (world st) w3 raw) as [w1 [h|e]].
    { exists (Returned true (Some h)), (mkSt (set_counters
               (submissions_count (advance_cursor (self st)) + 1)
               (successful_submissions (advance_cursor (self st)) + 1)
               (failed_submissions (advance_cursor (self st)))
               (advance_cursor (self st))) w1
               (trace st ++ [EvSend w3 raw (Return h)])), [(w3, raw, Return h)].
      split; [done|]. split; [done|]. split; [by repeat constructor|].
      split; [cbn; lia|]. split; [done|]. split; [by cbn; eauto|].
      split; [|split].
      - intros [|i] b Hi; [|done]. by injection Hi as <-.
      - intros [|i] b Hi _; [|done]. by injection Hi as <-.
      - intros _ Hall. by apply Forall_cons in Hall as [[=] _]. }
    destruct (is_nonce_collision e) eqn:He.
    2:{ exists Broke, (mkSt (advance_cursor (self st)) w1
                        (trace st ++ [EvSend w3 raw (Raise e)])),
          [(w3, raw, Raise e)].
        split; [done|]. split; [done|]. split; [by repeat constructor|].
        split; [cbn; lia|]. split; [done|]. split; [done|].
        split; [|split].
        - intros [|i] b Hi; [|done]. by injection Hi as <-.
        - intros [|i] b Hi _; [|done]. by injection Hi as <-.
        - intros _ Hall. apply Forall_cons in Hall as [Hr _].
          cbn in Hr. congruence. }
    destruct (IH (mkSt (advance_cursor (self st)) w1
                    (trace st ++ [EvSend w3 raw (Raise e)])))
      as (exit & st' & bs & Hrun & Htr & Hraw & Hlen & Hn & Hcnt
          & Hslots & Hlast & Hall).
    cbn [self trace] in Htr, Hn, Hcnt, Hslots, Hlast, Hall.
    change (w3_instances (advance_cursor (self st))) with pool in Hslots, Hall.
    change (current_sync_node_index (advance_cursor (self st)))
      with ((c + 1) `mod` length pool)%nat in Hslots, Hall.
    exists exit, st', ((w3, raw, Raise e) :: bs).
    split; [exact Hrun|].
    split; [by rewrite Htr, <- app_assoc|].
    split; [by constructor|]. split; [cbn; lia|]. split; [done|].
    split; [by destruct exit|]. split; [|split].
    + intros [|i] b Hi.
      * by injection Hi as <-.
      * cbn in Hi. apply Hslots in Hi.
        rewrite Nat.Div0.add_mod_idemp_l in Hi.
        by replace (c + S i)%nat with (c + 1 + i)%nat by lia.
    + intros [|i] b Hi Hr.
      * injection Hi as <-. cbn in Hr. congruence.
      * cbn in Hi. destruct (Hlast _ _ Hi Hr) as [Hl Hexit].
        cbn. split; [lia | done].
    + intros _ Hall'. apply Forall_cons in Hall' as [_ Hall'].
      destruct Hall as [-> Hl]; [apply Nat.mod_upper_bound; lia | done |].
      cbn. split; [done | lia].
Qed.

(** The two ways through [submit_spotdata_transaction]: the part before
    the loop raises and the handler at the end records the failure; or
    the bytes [raw] are signed and the loop runs from a state [st3] whose
    cursor stands one slot after the node used for signing. *)
Lemma submit_run account params max_retries st :
  let addr := address account in
  let n := Nonces.nonce_of (account_nonces (self st)) addr in
  let c := current_sync_node_index (self st) in
  let N := length (w3_instances (self st)) in
  (∃ st',
      submit_spotdata_transaction account params max_retries st
      = (Return (false, None), st')
      ∧ trace st' = trace st ++ [EvReserve addr n]
      ∧ account_nonces (self st') = <[addr := n + 1]> (account_nonces (self st))
      ∧ counted_failure (self st) (self st'))
  ∨ (∃ raw st3 exit st4,
      trace st3 = trace st ++ [EvReserve addr n; EvSign raw]
      ∧ account_nonces (self st3) = <[addr := n + 1]> (account_nonces (self st))
      ∧ counters_kept (self st) (self st3)
      ∧ w3_instances (self st3) = w3_instances (self st)
      ∧ (c < N)%nat
      ∧ current_sync_node_index (self st3) = ((c + 1) `mod` N)%nat
      ∧ retry_loop raw max_retries (range max_retries) st3 = (Return exit, st4)
      ∧ submit_spotdata_transaction account params max_retries st
        = match exit with
          | Returned success tx_hash => (Return (success, tx_hash), st4)
          | Broke | Exhausted => (Return (false, None), failed_state st4)
          end).
Proof.
  intros addr n c N.
  remember (submit_spotdata_transaction account params max_retries st)
    as run eqn:Hsub.
  unfold submit_spotdata_transaction, try_except in Hsub.
  unfold get_next_nonce at 1 in Hsub. do 2 unfold bind at 1 in Hsub.
  unfold read_self at 1 in Hsub. cbn [Nonces.get_next_nonce] in Hsub.
  fold addr in Hsub. fold n in Hsub.
  unfold bind at 1 in Hsub. unfold update_self at 1 in Hsub.
  unfold bind at 1 in Hsub. unfold emit at 1 in Hsub.
  cbn [self world trace] in Hsub.
  unfold ret at 1 in Hsub. unfold bind at 1 in Hsub.
  set (st1 := mkSt _ _ _) in Hsub.
  assert (Hfail : ∀ st2 : St Sender,
    trace st2 = trace st1 →
    account_nonces (self st2) = account_nonces (self st1) →
    counters_kept (self st1) (self st2) →
    ∃ st',
      (count_failure >> ret (false, @None string))%engine st2
      = (Return (false, None), st')
      ∧ trace st' = trace st ++ [EvReserve addr n]
      ∧ account_nonces (self st')
        = <[addr := n + 1]> (account_nonces (self st))
      ∧ counted_failure (self st) (self st')).
  { intros st2 Htr Hn (Hc1 & Hc2 & Hc3).
    eexists. split; [reflexivity|]. cbn.
    rewrite Htr, Hn. split; [reflexivity|]. split; [reflexivity|].
    cbn in Hc1, Hc2, Hc3. repeat split; cbn; congruence. }
  unfold get_next_contract at 1 in Hsub. unfold bind at 1 in Hsub.
  unfold read_self at 1 in Hsub.
  destruct (contracts (self st1) !! "DataSpotting") as [cs|];
    [|by left; rewrite Hsub; apply Hfail].
  destruct (cs !! current_sync_node_index (self st1)) as [contract|];
    [|by left; rewrite Hsub; apply Hfail].
  unfold ret at 1 in Hsub. unfold bind at 1 in Hsub.
  rewrite get_next_sync_node_run in Hsub.
  destruct (w3_instances (self st1) !! _) as [w3_read|] eqn:Hread;
    [|by left; rewrite Hsub; apply Hfail].
  set (st2 := mkSt _ _ _) in Hsub.
  unfold bind at 1 in Hsub. unfold read_self at 1 in Hsub.
  unfold int_chain_id, bind at 1 in Hsub. unfold bind at 1 in Hsub.
  unfold read_self at 1 in Hsub.
  destruct (chain_id (self st2)) as [chain|];
    [|by left; rewrite Hsub; apply Hfail].
  unfold ret at 1 in Hsub. unfold bind at 1 in Hsub. unfold lift at 1 in Hsub.
  destruct (build_transaction _ _ _) as [transaction|];
    [|by left; rewrite Hsub; apply Hfail].
  unfold sign at 1 in Hsub. do 2 unfold bind at 1 in Hsub.
  unfold lift at 1 in Hsub.
  destruct (sign_transaction _ _ _) as [raw|];
    [|by left; rewrite Hsub; apply Hfail].
  unfold bind at 1 in Hsub. unfold emit at 1 in Hsub.
  unfold ret at 1 in Hsub. unfold bind at 1 in Hsub.
  set (st3 := mkSt _ _ _) in Hsub.
  destruct (retry_loop_run raw max_retries (range max_retries) st3)
    as (exit & st4 & bs & Hrun & _).
  right. exists raw, st3, exit, st4. rewrite Hrun in Hsub.
  split; [by cbn; rewrite <- app_assoc|]. split; [done|]. split; [done|].
  split; [done|]. split; [by apply lookup_lt_Some in Hread|].
  split; [done|]. split; [done|].
  rewrite Hsub. by destruct exit.
Qed.

Lemma submit_post account params max_retries st :
  ∃ out st',
    submit_spotdata_transaction account params max_retries st = (Return out, st')
    ∧ submit_spec account max_retries st out st'.
Proof.
  destruct (submit_run account params max_retries st)
    as [(st' & Hrun & Htr & Hn & Hc)
       |(raw & st3 & exit & st4 & Htr3 & Hn3 & Hc3 & _ & _ & _ & Hloop & Hrun)].
  - exists (false, None), st'. split; [done|]. exists [].
    split; [done|]. split; [done|]. by left.
  - destruct (retry_loop_run raw max_retries (range max_retries) st3)
      as (exit' & st4' & bs & Hloop' & Htr & Hraw & Hlen & Hn & Hc & _).
    rewrite Hloop in Hloop'. injection Hloop' as <- <-.
    rewrite length_range in Hlen.
    assert (Htr4 : trace st4 = trace st ++ EvReserve (address account)
              (Nonces.nonce_of (account_nonces (self st)) (address account))
              :: EvSign raw :: (send_event <$> bs)).
    { rewrite Htr, Htr3. by rewrite <- app_assoc. }
    destruct Hc3 as (Ha & Hb & Hd).
    destruct exit as [success tx_hash| |].
    + destruct Hc as (-> & [h ->] & Hc1 & Hc2 & Hc3).
      exists (true, Some h), st4. split; [done|].
      exists (EvSign raw :: (send_event <$> bs)).
      split; [done|]. split; [congruence|]. right. exists raw, bs.
      repeat split; try done. left. exists h.
      repeat split; congruence.
    + destruct Hc as (Hc1 & Hc2 & Hc3).
      exists (false, None), (failed_state st4). split; [done|].
      exists (EvSign raw :: (send_event <$> bs)).
      split; [done|]. split; [cbn; congruence|].
      right. exists raw, bs. repeat split; try done. right.
      repeat split; cbn; congruence.
    + destruct Hc as (Hc1 & Hc2 & Hc3).
      exists (false, None), (failed_state st4). split; [done|].
      exists (EvSign raw :: (send_event <$> bs)).
      split; [done|]. split; [cbn; congruence|].
      right. exists raw, bs. repeat split; try done. right.
      repeat split; cbn; congruence.
Qed.

End SubmissionFacts.

(** ** The claims on one submission *)
Section SubmissionClaims.
Context `{Api : Web3Api}.

Lemma count_events_sends p bs :
  (∀ b, p (send_event b) = false) → count_events p (send_event <$> bs) = 0%nat.
Proof.
  intros Hp. unfold count_events.
  induction bs as [|b bs IH]; [done|]. cbn. by rewrite Hp.
Qed.

Lemma count_events_cons p ev tr :
  count_events p (ev :: tr)
  = ((if p ev then 1 else 0) + count_events p tr)%nat.
Proof. unfold count_events. cbn. by destruct (p ev). Qed.

(** What is signed for an item is determined by the sender, the account
    and the parameters. *)
Lemma signs_as_inj s account params raw raw' :
  signs_as s account params raw → signs_as s account params raw' → raw = raw'.
Proof.
  intros (cs & c & w & ch & tx & H1 & H2 & H3 & H4 & H5 & H6)
         (cs' & c' & w' & ch' & tx' & H1' & H2' & H3' & H4' & H5' & H6').
  rewrite H1 in H1'. injection H1' as <-.
  rewrite H2 in H2'. injection H2' as <-.
  rewrite H3 in H3'. injection H3' as <-.
  rewrite H4 in H4'. injection H4' as <-.
  rewrite H5 in H5'. injection H5' as <-.
  rewrite H6 in H6'. by injection H6'.
Qed.

(** The two ways through [submit_spotdata_transaction], told apart by
    what the part before the loop finds: when the contract, the node,
    the chain id, the build or the signature fails, nothing is signed
    and the handler at the end records the failure; when all of them
    return, the signature of the transaction built with the reserved
    nonce is what the loop broadcasts. *)
Lemma submit_cases account params max_retries (st : St Sender) :
  let addr := address account in
  let n := Nonces.nonce_of (account_nonces (self st)) addr in
  (∃ st',
      submit_spotdata_transaction account params max_retries st
      = (Return (false, None), st')
      ∧ trace st' = trace st ++ [EvReserve addr n]
      ∧ counted_failure (self st) (self st')
      ∧ ∀ raw, ¬ signs_as (self st) account params raw)
  ∨ (∃ raw st3 exit st4,
      signs_as (self st) account params raw
      ∧ trace st3 = trace st ++ [EvReserve addr n; EvSign raw]
      ∧ counters_kept (self st) (self st3)
      ∧ retry_loop raw max_retries (range max_retries) st3 = (Return exit, st4)
      ∧ submit_spotdata_transaction account params max_retries st
        = match exit with
          | Returned success tx_hash => (Return (success, tx_hash), st4)
          | Broke | Exhausted => (Return (false, None), failed_state st4)
          end).
Proof.
  intros addr n.
  remember (submit_spotdata_transaction account params max_retries st)
    as run eqn:Hsub.
  unfold submit_spotdata_transaction, try_except, get_next_nonce,
    get_next_contract, get_next_sync_node, int_chain_id, sign, count_failure,
    bind, read_self, update_self, emit, lift, ret, throw in Hsub.
  cbn in Hsub. fold addr n in Hsub.
  assert (Hfail : ∀ st' : St Sender,
    run = (Return (false, None), st') →
    trace st' = trace st ++ [EvReserve addr n] →
    counted_failure (self st) (self st') →
    (∀ raw, ¬ signs_as (self st) account params raw) →
    (∃ st',
      run = (Return (false, None), st')
      ∧ trace st' = trace st ++ [EvReserve addr n]
      ∧ counted_failure (self st) (self st')
      ∧ ∀ raw, ¬ signs_as (self st) account params raw)
    ∨ (∃ raw st3 exit st4,
      signs_as (self st) account params raw
      ∧ trace st3 = trace st ++ [EvReserve addr n; EvSign raw]
      ∧ counters_kept (self st) (self st3)
      ∧ retry_loop raw max_retries (range max_retries) st3 = (Return exit, st4)
      ∧ run
        = match exit with
          | Returned success tx_hash => (Return (success, tx_hash), st4)
          | Broke | Exhausted => (Return (false, None), failed_state st4)
          end)).
  { intros st' H1 H2 H3 H4. left. by exists st'. }
  destruct (contracts (self st) !! "DataSpotting") as [cs|] eqn:Hcs;
    cbn in Hsub.
  2:{ eapply Hfail; [exact Hsub|done|by repeat split|].
      intros raw (cs' & c' & w' & ch' & tx' & H1 & _). congruence. }
  destruct (cs !! current_sync_node_index (self st)) as [contract|] eqn:Hcontract;
    cbn in Hsub.
  2:{ eapply Hfail; [exact Hsub|done|by repeat split|].
      intros raw (cs' & c' & w' & ch' & tx' & H1 & H2 & _). congruence. }
  change (imap mkWeb3 (sync_nodes (self st))) with (w3_instances (self st))
    in Hsub.
  destruct (w3_instances (self st) !! current_sync_node_index (self st))
    as [w3_read|] eqn:Hread; cbn in Hsub.
  2:{ eapply Hfail; [exact Hsub|done|by repeat split|].
      intros raw (cs' & c' & w' & ch' & tx' & H1 & H2 & H3 & _). congruence. }
  destruct (chain_id (self st)) as [chain|] eqn:Hchain; cbn in Hsub.
  2:{ eapply Hfail; [exact Hsub|done|by repeat split|].
      intros raw (cs' & c' & w' & ch' & tx' & H1 & H2 & H3 & H4 & _).
      congruence. }
  destruct (build_transaction contract params _) as [transaction|e] eqn:Hbuild;
    cbn in Hsub.
  2:{ eapply Hfail; [exact Hsub|done|by repeat split|].
      intros raw (cs' & c' & w' & ch' & tx' & H1 & H2 & H3 & H4 & H5 & _).
      fold addr n in H5. congruence. }
  destruct (sign_transaction w3_read transaction (private_key account))
    as [raw|e] eqn:Hsign; cbn in Hsub.
  2:{ eapply Hfail; [exact Hsub|done|by repeat split|].
      intros raw (cs' & c' & w' & ch' & tx' & H1 & H2 & H3 & H4 & H5 & H6).
      fold addr n in H5. congruence. }
  clear Hfail. right.
  match type of Hsub with
  | context [retry_loop raw max_retries (range max_retries) ?x] =>
      set (st3 := x) in Hsub
  end.
  destruct (retry_loop_run raw max_retries (range max_retries) st3)
    as (exit & st4 & bs & Hrun & _).
  rewrite Hrun in Hsub.
  exists raw, st3, exit, st4.
  split.
  { exists cs, contract, w3_read, chain, transaction. by repeat split. }
  split; [by cbn; rewrite <- app_assoc|]. split; [done|]. split; [done|].
  rewrite Hsub. by destruct exit.
Qed.

(** The events of one call, with what was signed. *)
Lemma submit_events account params max_retries (st : St Sender) :
  let addr := address account in
  let n := Nonces.nonce_of (account_nonces (self st)) addr in
  ∃ out st',
    submit_spotdata_transaction account params max_retries st = (Return out, st')
    ∧ ((trace st' = trace st ++ [EvReserve addr n] ∧ out = (false, None)
        ∧ ∀ raw, ¬ signs_as (self st) account params raw)
       ∨ ∃ raw bs,
           signs_as (self st) account params raw
           ∧ trace st'
             = trace st ++ EvReserve addr n :: EvSign raw :: (send_event <$> bs)
           ∧ Forall (λ b : Broadcast, b.1.2 = raw) bs
           ∧ (length bs ≤ Z.to_nat max_retries)%nat).
Proof.
  intros addr n.
  destruct (submit_cases account params max_retries st)
    as [(st' & Hrun & Htr & _ & Hnot)
       |(raw & st3 & exit & st4 & Hsigns & Htr3 & _ & Hloop & Hrun)].
  - exists (false, None), st'. split; [done|]. left. by repeat split.
  - destruct (retry_loop_run raw max_retries (range max_retries) st3)
      as (exit' & st4' & bs & Hloop' & Htr & Hraw & Hlen & _).
    rewrite Hloop in Hloop'. injection Hloop' as <- <-.
    rewrite length_range in Hlen.
    assert (Htr4 : trace st4 = trace st ++ EvReserve addr n
              :: EvSign raw :: (send_event <$> bs)).
    { rewrite Htr, Htr3. by rewrite <- app_assoc. }
    destruct exit as [success tx_hash| |];
      eexists _, _; (split; [exact Hrun|]); right; exists raw, bs;
      by repeat split.
Qed.

(** C1, as amended: a call of [submit_spotdata_transaction] reserves the
    sequence number exactly once, first of all, and never a second time,
    whether the WorkItem succeeds or fails. It signs at most once. It
    signs nothing exactly when the part before the retry loop fails, that
    is when the contract or the node under the cursor is missing, the
    chain id is not set, or building or signing raises ([signs_as] holds
    of no bytes): the WorkItem then ends failed with the reservation as
    its only event. When all of these return, it signs exactly once,
    before the first broadcast, and what it signs is the signature of
    the transaction built with the reserved sequence number; every
    broadcast attempt carries these bytes, and there are at most
    [max_retries] of them. *)
Theorem one_reservation_one_signature account params max_retries (st : St Sender) :
  let run := submit_spotdata_transaction account params max_retries st in
  let evs := new_events st run.2 in
  let addr := address account in
  let n := Nonces.nonce_of (account_nonces (self st)) addr in
  count_events is_reserve evs = 1%nat
  ∧ Nonces.nonce_of (account_nonces (self run.2)) addr = n + 1
  ∧ (count_events is_sign evs ≤ 1)%nat
  ∧ ((evs = [EvReserve addr n] ∧ run.1 = Return (false, None)
      ∧ ∀ raw, ¬ signs_as (self st) account params raw)
     ∨ ∃ raw bs,
         signs_as (self st) account params raw
         ∧ evs = EvReserve addr n :: EvSign raw :: (send_event <$> bs)
         ∧ count_events is_sign evs = 1%nat
         ∧ Forall (λ b : Broadcast, b.1.2 = raw) bs
         ∧ (length bs ≤ Z.to_nat max_retries)%nat)
  ∧ (∀ raw, signs_as (self st) account params raw →
       ∃ bs,
         evs = EvReserve addr n :: EvSign raw :: (send_event <$> bs)
         ∧ count_events is_sign evs = 1%nat
         ∧ Forall (λ b : Broadcast, b.1.2 = raw) bs
         ∧ (length bs ≤ Z.to_nat max_retries)%nat).
Proof.
  intros run evs addr n. subst run evs.
  destruct (submit_post account params max_retries st)
    as (out0 & st0 & Hrun0 & tail & _ & Hn & _).
  destruct (submit_events account params max_retries st)
    as (out & st' & Hrun & Hcases).
  rewrite Hrun in Hrun0. injection Hrun0 as <- <-.
  rewrite Hrun. cbn [fst snd].
  fold addr n in Hn, Hcases |- *. rewrite Hn, nonce_of_insert_eq.
  assert (Hsent : ∀ raw bs,
    count_events is_reserve
      (EvReserve addr n :: EvSign raw :: (send_event <$> bs)) = 1%nat
    ∧ count_events is_sign
        (EvReserve addr n :: EvSign raw :: (send_event <$> bs)) = 1%nat).
  { intros raw bs.
    assert (Hs : count_events is_sign (send_event <$> bs) = 0%nat)
      by by apply count_events_sends.
    assert (Hr : count_events is_reserve (send_event <$> bs) = 0%nat)
      by by apply count_events_sends.
    by rewrite !count_events_cons, Hs, Hr. }
  destruct Hcases as [(Htr & -> & Hnot) | (raw & bs & Hsigns & Htr & Hraw & Hlen)];
    rewrite (new_events_app _ _ _ Htr).
  - split; [done|]. split; [done|]. split; [cbn; lia|].
    split; [by left|]. intros raw Hsigns. by destruct (Hnot raw).
  - destruct (Hsent raw bs) as [Hr Hs]. rewrite Hr, Hs.
    split; [done|]. split; [done|]. split; [done|].
    split; [right; by exists raw, bs|].
    intros raw' Hsigns'.
    rewrite (signs_as_inj _ _ _ _ _ Hsigns' Hsigns). by exists bs.
Qed.

(** The messages of the log cannot fail on an integer index: the retry
    loop on the entry of the file is the retry loop. *)
Lemma retry_loop_of_int i raw max_retries attempts : ∀ st : St Sender,
  Unvalidated.retry_loop (Unvalidated.PyInt i) raw max_retries attempts st
  = retry_loop raw max_retries attempts st.
Proof.
  induction attempts as [|k rest IH]; intros st; [done|].
  rewrite retry_loop_cons. cbn [Unvalidated.retry_loop].
  unfold try_except, Unvalidated.log_index, get_next_sync_node, send,
    count_success, bind, read_self, update_self, rpc, emit, lift, ret, throw.
  cbn.
  change (imap mkWeb3 (sync_nodes (self st))) with (w3_instances (self st)).
  destruct (w3_instances (self st) !! current_sync_node_index (self st))
    as [w3|]; cbn; [|done].
  destruct (send_raw_transaction (world st) w3 raw) as [w1 [h|e]]; cbn.
  - by destruct (0 <? k).
  - destruct (is_nonce_collision e); [|done].
    destruct (k <? max_retries - 1); apply IH.
Qed.

(** On the entry [generate_sender_addresses] writes, the submission is
    the one on the account. *)
Lemma submit_of_account account params max_retries (st : St Sender) :
  Unvalidated.submit_spotdata_transaction (Unvalidated.of_account account)
    params max_retries st
  = submit_spotdata_transaction account params max_retries st.
Proof.
  unfold Unvalidated.submit_spotdata_transaction, submit_spotdata_transaction,
    try_except, Unvalidated.log_index, get_next_nonce, get_next_contract,
    get_next_sync_node, int_chain_id, sign, count_failure,
    bind, read_self, update_self, emit, lift, ret, throw.
  cbn.
  destruct (contracts (self st) !! "DataSpotting") as [cs|]; cbn; [|done].
  destruct (cs !! current_sync_node_index (self st)) as [contract|]; cbn;
    [|done].
  destruct (imap mkWeb3 (sync_nodes (self st)) !! current_sync_node_index (self st))
    as [w3_read|]; cbn; [|done].
  destruct (chain_id (self st)) as [chain|]; cbn; [|done].
  destruct (build_transaction contract params _) as [transaction|e]; cbn;
    [|done].
  destruct (sign_transaction w3_read transaction (private_key account))
    as [raw|e]; cbn; [|done].
  rewrite retry_loop_of_int.
  destruct (retry_loop raw max_retries (range max_retries) _)
    as [[[success tx_hash| |]|e] st4]; done.
Qed.

(** C9, as amended: for every account entry that carries an address, a
    private key and an integer index, and whatever building, signing or
    broadcasting raise, [submit_spotdata_transaction] returns a pair of
    a success flag and a transaction id or [None]: no exception leaves
    it. A failure shows in the pair and in the failure counter only. The
    submission is the one that reads the entry by its three subscripts
    and formats the index in its messages. *)
Theorem submit_never_raises (account : Unvalidated.AccountInput)
    addr key (i : Z) params max_retries (st : St Sender) :
  Unvalidated.input_address account = Some addr →
  Unvalidated.input_private_key account = Some key →
  Unvalidated.input_index account = Some (Unvalidated.PyInt i) →
  ∃ success tx_hash st',
    Unvalidated.submit_spotdata_transaction account params max_retries st
    = (Return (success, tx_hash), st')
    ∧ match success with
      | true => is_Some tx_hash ∧ counted_success (self st) (self st')
      | false => tx_hash = None ∧ counted_failure (self st) (self st')
      end.
Proof.
  intros Haddr Hkey Hindex.
  assert (Hentry : account = Unvalidated.of_account (mkAccount addr key i)).
  { destruct account as [a k v]. cbn in Haddr, Hkey, Hindex. by subst. }
  rewrite Hentry, submit_of_account.
  destruct (submit_post (mkAccount addr key i) params max_retries st)
    as (out & st' & Hrun & tail & _ & _ & Hcases).
  destruct Hcases as [(_ & -> & Hc) | (raw & bs & _ & _ & _ & Hout)].
  - by exists false, None, st'.
  - destruct Hout as [(h & -> & Hc) | (-> & Hc)].
    + exists true, (Some h), st'. eauto.
    + by exists false, None, st'.
Qed.

(** An entry without one of the three keys: the subscript raises, the
    handler counts the failure, and its message raises in turn, out of
    the call; nothing was reserved. *)
Lemma missing_key_raises (account : Unvalidated.AccountInput) params max_retries
    (st : St Sender) :
  Unvalidated.bound_index account = None →
  Unvalidated.submit_spotdata_transaction account params max_retries st
  = (Raise "cannot access local variable 'index' where it is not associated with a value",
     failed_state st).
Proof.
  intros Hunbound.
  unfold Unvalidated.submit_spotdata_transaction, try_except,
    Unvalidated.log_index, count_failure, bind, update_self, lift, ret.
  rewrite Hunbound.
  destruct account as [[a|] [k|] [v|]]; cbn in Hunbound |- *; done.
Qed.

(** Whatever happens, the two counters [submissions_count] and
    [successful_submissions] move together. *)
Lemma attempted_tracks_successes account params max_retries (st : St Sender) :
  let s' := self (submit_spotdata_transaction account params max_retries st).2 in
  submissions_count s' - successful_submissions s'
  = submissions_count (self st) - successful_submissions (self st).
Proof.
  destruct (submit_post account params max_retries st)
    as (out & st' & -> & tail & _ & _ & Hcases). cbn.
  destruct Hcases as [(_ & _ & Hc) | (raw & bs & _ & _ & _ & Hout)].
  - destruct Hc as (H1 & H2 & H3). lia.
  - destruct Hout as [(h & _ & H1 & H2 & H3) | (_ & H1 & H2 & H3)]; lia.
Qed.

(** The events of a run that reached the retry loop, and the run of the
    loop inside it. *)
Lemma submit_signed account params max_retries (st : St Sender) raw :
  let run := submit_spotdata_transaction account params max_retries st in
  let c := current_sync_node_index (self st) in
  let pool := w3_instances (self st) in
  EvSign raw ∈ new_events st run.2 →
  ∃ st3 exit st4 bs,
    retry_loop raw max_retries (range max_retries) st3 = (Return exit, st4)
    ∧ w3_instances (self st3) = pool
    ∧ (c < length pool)%nat
    ∧ current_sync_node_index (self st3) = ((c + 1) `mod` length pool)%nat
    ∧ counters_kept (self st) (self st3)
    ∧ trace st4 = trace st3 ++ (send_event <$> bs)
    ∧ broadcasts (new_events st run.2) = bs
    ∧ run = match exit with
            | Returned success tx_hash => (Return (success, tx_hash), st4)
            | Broke | Exhausted => (Return (false, None), failed_state st4)
            end.
Proof.
  intros run c pool Hsigned. subst run.
  destruct (submit_run account params max_retries st)
    as [(st' & Hrun & Htr & _)
       |(raw' & st3 & exit & st4 & Htr3 & _ & Hc3 & Hpool & Hc & Hcur & Hloop & Hrun)].
  - rewrite Hrun in Hsigned. cbn in Hsigned.
    rewrite (new_events_app _ _ _ Htr) in Hsigned.
    apply list_elem_of_singleton in Hsigned. done.
  - destruct (retry_loop_run raw' max_retries (range max_retries) st3)
      as (exit' & st4' & bs & Hloop' & Htr & _).
    rewrite Hloop in Hloop'. injection Hloop' as <- <-.
    assert (Htr4 : trace (submit_spotdata_transaction account params max_retries st).2
                   = trace st ++ [EvReserve (address account)
                       (Nonces.nonce_of (account_nonces (self st)) (address account));
                       EvSign raw'] ++ (send_event <$> bs)).
    { rewrite Hrun. destruct exit; cbn; rewrite Htr, Htr3; by rewrite <- app_assoc. }
    rewrite (new_events_app _ _ _ Htr4) in Hsigned |- *.
    assert (raw' = raw) as ->.
    { cbn in Hsigned. apply elem_of_cons in Hsigned as [[=]|Hsigned].
      apply elem_of_cons in Hsigned as [[= ->]|Hsigned]; [done|].
      apply list_elem_of_fmap in Hsigned as (b & Hb & _). done. }
    exists st3, exit, st4, bs.
    split; [done|]. split; [done|]. split; [done|]. split; [done|].
    split; [done|]. split; [done|]. split; [|done].
    rewrite broadcasts_app. cbn. apply broadcasts_send_events.
Qed.

(** Slots [a + k] modulo [N] are distinct for distinct [k < N]. *)
Lemma rotation_inj (N a i j : nat) :
  (i < N)%nat → (j < N)%nat →
  ((a + i) `mod` N = (a + j) `mod` N)%nat → i = j.
Proof.
  intros Hi Hj Heq.
  pose proof (Nat.Div0.div_mod (a + i) N) as Ei.
  pose proof (Nat.Div0.div_mod (a + j) N) as Ej.
  rewrite Heq in Ei.
  set (qi := ((a + i) / N)%nat) in Ei. set (qj := ((a + j) / N)%nat) in Ej.
  set (r := ((a + j) `mod` N)%nat) in Ei, Ej.
  destruct (Nat.lt_trichotomy qi qj) as [Hlt|[Heq'|Hgt]]; [| |]; nia.
Qed.

(** C2: when the transaction was built and signed, every broadcast is
    answered by the nonce collision and [0 <= R <= N] for the retry budget
    [R = max_retries] and the number [N] of nodes, the call makes exactly
    [R] broadcast attempts, the [k]-th on the node the rotation yields
    ([k + 1] slots after the cursor, the slot under the cursor having
    served for signing), all on distinct nodes, and then records the
    WorkItem as failed. *)
Theorem collision_retry_bound account params (R : Z) (st : St Sender) :
  let pool := w3_instances (self st) in
  let N := length pool in
  let c := current_sync_node_index (self st) in
  let run := submit_spotdata_transaction account params R st in
  let attempts := broadcasts (new_events st run.2) in
  0 ≤ R ≤ Z.of_nat N →
  (∃ raw, EvSign raw ∈ new_events st run.2) →
  Forall (λ b : Broadcast, is_collision_response b.2 = true) attempts →
  run.1 = Return (false, None)
  ∧ counted_failure (self st) (self run.2)
  ∧ length attempts = Z.to_nat R
  ∧ (∀ k (b : Broadcast), attempts !! k = Some b →
       pool !! ((c + 1 + k) `mod` N)%nat = Some b.1.1)
  ∧ NoDup ((λ b : Broadcast, b.1.1) <$> attempts).
Proof.
  intros pool N c run attempts HR [raw Hsigned] Hall.
  destruct (submit_signed account params R st raw Hsigned)
    as (st3 & exit & st4 & bs & Hloop & Hpool & Hc & Hcur & Hc3 & Htr & Hbs & Hrun).
  fold run in Hbs, Hrun. fold attempts in Hbs. fold pool in Hpool, Hc, Hcur.
  fold c in Hc, Hcur. fold N in Hc, Hcur. subst bs.
  destruct (retry_loop_run raw R (range R) st3)
    as (exit' & st4' & bs & Hloop' & Htr' & _ & _ & _ & Hcnt & Hslots & _ & Hex).
  rewrite Hloop in Hloop'. injection Hloop' as <- <-.
  rewrite Htr in Htr'. apply app_inv_head in Htr'.
  apply (f_equal broadcasts) in Htr'. rewrite !broadcasts_send_events in Htr'.
  subst bs. rewrite Hpool, Hcur in Hslots, Hex. fold N in Hslots, Hex.
  destruct Hex as [-> Hlen]; [apply Nat.mod_upper_bound; lia | done |].
  rewrite length_range in Hlen.
  assert (Hk : ∀ k (b : Broadcast), attempts !! k = Some b →
            pool !! ((c + 1 + k) `mod` N)%nat = Some b.1.1).
  { intros k b Hb. apply Hslots in Hb.
    by rewrite Nat.Div0.add_mod_idemp_l in Hb. }
  rewrite Hrun. cbn [fst snd]. split; [done|]. split; [|split; [done|split; [done|]]].
  - destruct Hc3 as (H1 & H2 & H3), Hcnt as (H4 & H5 & H6).
    repeat split; cbn; congruence.
  - apply NoDup_alt. intros i j w Hi Hj.
    rewrite list_lookup_fmap in Hi, Hj.
    destruct (attempts !! i) as [bi|] eqn:Ei; [|done].
    destruct (attempts !! j) as [bj|] eqn:Ej; [|done].
    cbn in Hi, Hj. injection Hi as Hi. injection Hj as Hj.
    pose proof (lookup_lt_Some _ _ _ Ei) as Li.
    pose proof (lookup_lt_Some _ _ _ Ej) as Lj.
    apply Hk in Ei, Ej. rewrite Hi in Ei. rewrite Hj in Ej.
    apply w3_instances_slot in Ei, Ej.
    apply (rotation_inj N (c + 1)); lia.
Qed.

(** C3: a broadcast answered by an error that is not the nonce collision
    is the last broadcast of the call, whatever is left of the retry
    budget: the loop is left at once and the WorkItem is recorded as
    failed. *)
Theorem other_error_ends_the_retries account params max_retries (st : St Sender) :
  let run := submit_spotdata_transaction account params max_retries st in
  let attempts := broadcasts (new_events st run.2) in
  ∀ k w3 raw error_msg,
    attempts !! k = Some (w3, raw, Raise error_msg) →
    is_nonce_collision error_msg = false →
    S k = length attempts
    ∧ run.1 = Return (false, None)
    ∧ counted_failure (self st) (self run.2).
Proof.
  intros run attempts k w3 raw e Hk He.
  assert (Hsigned : EvSign raw ∈ new_events st run.2).
  { subst run attempts.
    destruct (submit_post account params max_retries st)
      as (out & st' & Hrun & tail & Htr & _ & Hcases).
    rewrite Hrun in Hk |- *. cbn [snd] in *.
    rewrite (new_events_app _ _ _ Htr) in Hk |- *.
    destruct Hcases as [(-> & _) | (raw' & bs & -> & Hraw & _)]; [done|].
    cbn in Hk. fold (broadcasts (send_event <$> bs)) in Hk.
    rewrite broadcasts_send_events in Hk.
    rewrite Forall_lookup in Hraw. apply Hraw in Hk. cbn in Hk. subst raw'.
    set_solver. }
  destruct (submit_signed account params max_retries st raw Hsigned)
    as (st3 & exit & st4 & bs & Hloop & _ & _ & _ & Hc3 & Htr & Hbs & Hrun).
  fold run in Hbs, Hrun. fold attempts in Hbs. subst bs.
  destruct (retry_loop_run raw max_retries (range max_retries) st3)
    as (exit' & st4' & bs & Hloop' & Htr' & _ & _ & _ & Hcnt & _ & Hlast & _).
  rewrite Hloop in Hloop'. injection Hloop' as <- <-.
  rewrite Htr in Htr'. apply app_inv_head in Htr'.
  apply (f_equal broadcasts) in Htr'. rewrite !broadcasts_send_events in Htr'.
  subst bs. destruct (Hlast _ _ Hk He) as [Hlen ->]. cbn in Hrun, Hcnt.
  rewrite Hrun. cbn [fst snd]. split; [done|]. split; [done|].
  destruct Hc3 as (H1 & H2 & H3), Hcnt as (H4 & H5 & H6).
  repeat split; cbn; congruence.
Qed.

End SubmissionClaims.

(** ** The nonce allocator: reservation and reconciliation *)

(** C4: [get_next_nonce] returns the current counter of the account and
    increments it by one; [n] sequential calls on an account whose
    counter stands at [v] return [v, v+1, ..., v+n-1], distinct and
    strictly increasing, and leave the counter at [v+n]; a counter seeded
    at 5 yields 5, 6, 7. *)
Theorem reserve_returns_consecutive_nonces (n : nat) (addr : string)
    (account_nonces : gmap string Z) :
  let v := Nonces.nonce_of account_nonces addr in
  let returned := (Nonces.reserve_many n addr account_nonces).1 in
  (Nonces.get_next_nonce addr account_nonces).1 = v
  ∧ Nonces.nonce_of (Nonces.get_next_nonce addr account_nonces).2 addr = v + 1
  ∧ returned = (λ k, v + Z.of_nat k) <$> seq 0 n
  ∧ Nonces.nonce_of (Nonces.reserve_many n addr account_nonces).2 addr
    = v + Z.of_nat n
  ∧ StronglySorted Z.lt returned
  ∧ NoDup returned
  ∧ (Nonces.reserve_many 3 "0xA1" Scenario.seeded).1 = [5; 6; 7].
Proof.
  intros v returned. subst returned.
  destruct (reserve_many_spec n addr account_nonces) as [Hv Hc].
  fold v in Hv, Hc. rewrite Hv.
  split; [done|]. split; [apply nonce_of_insert_eq|]. split; [done|].
  split; [done|]. split; [apply consecutive_sorted|].
  split; [apply consecutive_NoDup|]. vm_compute. reflexivity.
Qed.

Section ReconcileFacts.
Context `{Api : Web3Api}.

(** One pass of the realignment loop: a node is taken from the rotation
    and asked for the count; the counter is reconciled with the answer,
    and left alone when the read raises. *)
Lemma realign_account_run account (st : St Sender) :
  realign_account account st =
  match w3_instances (self st) !! current_sync_node_index (self st) with
  | None => (Return tt, st)
  | Some w3 =>
      let '(w1, response) :=
        get_transaction_count (world st) w3 (address account) in
      let s1 := advance_cursor (self st) in
      (Return tt,
       mkSt match response with
            | Return blockchain_nonce =>
                set_account_nonces
                  (Nonces.reconcile (address account) blockchain_nonce
                     (account_nonces s1)) s1
            | Raise _ => s1
            end
         w1 (trace st ++ [EvRead w3 (address account) response]))
  end.
Proof.
  unfold realign_account, try_except. unfold bind at 1.
  rewrite get_next_sync_node_run.
  destruct (w3_instances (self st) !! _) as [w3|]; [|reflexivity].
  unfold read_count, rpc, emit, lift, update_self, ret, bind. simpl.
  destruct (get_transaction_count (world st) w3 (address account))
    as [w1 [v|e]]; reflexivity.
Qed.

(** The realignment loop over accounts with pairwise different addresses:
    it never raises, it only reads the counts of these accounts, it leaves
    the counters of all other addresses alone, and the counter of an
    account whose read returned [V] ends at [V]. *)
Lemma realign_accounts_run l : ∀ st : St Sender,
  NoDup (address <$> l) →
  ∃ st' evs,
    for_each realign_account l st = (Return tt, st')
    ∧ trace st' = trace st ++ evs
    ∧ nonce_realignments (self st') = nonce_realignments (self st)
    ∧ (∀ addr, addr ∉ address <$> l →
         Nonces.nonce_of (account_nonces (self st')) addr
         = Nonces.nonce_of (account_nonces (self st)) addr)
    ∧ (∀ w3 addr V, EvRead w3 addr (Return V) ∈ evs →
         Nonces.nonce_of (account_nonces (self st')) addr = V).
Proof.
  induction l as [|a l IH]; intros st Hnd.
  - exists st, []. rewrite app_nil_r. repeat split; try done.
    intros w3 addr V Hin. by apply elem_of_nil in Hin.
  - rewrite fmap_cons in Hnd. apply NoDup_cons in Hnd as [Ha Hnd].
    cbn [for_each]. unfold bind at 1. rewrite realign_account_run.
    destruct (w3_instances (self st) !! _) as [w3|].
    2:{ destruct (IH st Hnd) as (st' & evs & -> & Htr & Hre & Hother & Hread).
        exists st', evs. split; [done|]. split; [done|]. split; [done|].
        split; [|done]. intros addr Hin. apply Hother.
        rewrite fmap_cons in Hin. by apply not_elem_of_cons in Hin as [_ Hin]. }
    cbv zeta.
    destruct (get_transaction_count (world st) w3 (address a)) as [w1 response].
    match goal with |- context [for_each _ _ ?s] => set (st1 := s) end.
    assert (Hst1 : ∀ addr, addr ≠ address a →
              Nonces.nonce_of (account_nonces (self st1)) addr
              = Nonces.nonce_of (account_nonces (self st)) addr).
    { intros addr Hne. subst st1. destruct response as [v|e]; cbn; [|done].
      by apply reconcile_other. }
    destruct (IH st1 Hnd) as (st' & evs & -> & Htr & Hre & Hother & Hread).
    exists st', (EvRead w3 (address a) response :: evs).
    split; [done|]. split; [by rewrite Htr; cbn; rewrite <- app_assoc|].
    split; [rewrite Hre; subst st1; by destruct response|].
    split.
    + intros addr Hin. rewrite fmap_cons in Hin.
      apply not_elem_of_cons in Hin as [Hne Hin].
      rewrite Hother by done. by apply Hst1.
    + intros w addr V Hin. apply elem_of_cons in Hin as [Heq|Hin]; [|by eapply Hread].
      injection Heq as -> -> <-. rewrite Hother by done.
      subst st1. cbn. apply reconcile_counter.
Qed.

Lemma realign_all_nonces_run (st : St Sender) :
  NoDup (address <$> accounts (self st)) →
  ∃ st' evs,
    realign_all_nonces st = (Return tt, st')
    ∧ new_events st st' = evs
    ∧ nonce_realignments (self st') = nonce_realignments (self st) + 1
    ∧ (∀ addr, addr ∉ address <$> accounts (self st) →
         Nonces.nonce_of (account_nonces (self st')) addr
         = Nonces.nonce_of (account_nonces (self st)) addr)
    ∧ (∀ w3 addr V, EvRead w3 addr (Return V) ∈ evs →
         Nonces.nonce_of (account_nonces (self st')) addr = V).
Proof.
  intros Hnd. unfold realign_all_nonces. unfold bind at 1, read_self at 1.
  destruct (realign_accounts_run (accounts (self st)) st Hnd)
    as (st1 & evs & Hrun & Htr & Hre & Hother & Hread).
  unfold bind at 1. rewrite Hrun. unfold update_self, bind.
  eexists _, evs. split; [reflexivity|]. cbn.
  split; [by apply new_events_app|]. split; [by rewrite Hre|]. by split.
Qed.

End ReconcileFacts.

(** C5: after the reconciliation of an account with the observed ledger
    value [V], whether [V] differs from the local counter or not and
    whether the counter stood above or below it, the next reservation for
    that account returns exactly [V] (108 for a counter drifted to 110);
    the other accounts keep their counters. So it is after
    [realign_all_nonces] for every account whose read returned [V], the
    accounts having pairwise different addresses. *)
Theorem reconcile_then_reserve_returns_observed (addr : string) (V : Z)
    (account_nonces : gmap string Z) :
  (Nonces.get_next_nonce addr (Nonces.reconcile addr V account_nonces)).1 = V
  ∧ (∀ other, addr ≠ other →
       Nonces.nonce_of (Nonces.reconcile addr V account_nonces) other
       = Nonces.nonce_of account_nonces other)
  ∧ (Nonces.get_next_nonce "0xA1" (Nonces.reconcile "0xA1" 108 {[ "0xA1" := 110 ]})).1
    = 108
  ∧ (∀ (Api : Web3Api) (st : St Sender) w3,
       let st' := (realign_all_nonces st).2 in
       NoDup (address <$> accounts (self st)) →
       EvRead w3 addr (Return V) ∈ new_events st st' →
       (realign_all_nonces st).1 = Return tt
       ∧ (get_next_nonce addr st').1 = Return V).
Proof.
  split; [apply reconcile_counter|].
  split; [intros other Hne; by apply reconcile_other|].
  split; [by vm_compute|].
  intros Api st w3 st' Hnd Hin. subst st'.
  destruct (realign_all_nonces_run st Hnd) as (st' & evs & Hrun & Hev & _ & _ & Hread).
  rewrite Hrun in Hin |- *. cbn [fst snd] in *. split; [done|].
  rewrite Hev in Hin. apply Hread in Hin.
  unfold get_next_nonce, bind, read_self. cbn. by f_equal.
Qed.

(** ** The rotation of the nodes *)
Section RotationFacts.
Context `{Api : Web3Api}.

Lemma select_nodes_run n : ∀ st : St Sender,
  let pool := w3_instances (self st) in
  let c := current_sync_node_index (self st) in
  (c < length pool)%nat →
  ∃ l st',
    select_nodes n st = (Return l, st')
    ∧ length l = n
    ∧ (∀ k, (k < n)%nat → l !! k = pool !! ((c + k) `mod` length pool)%nat)
    ∧ current_sync_node_index (self st') = ((c + n) `mod` length pool)%nat
    ∧ w3_instances (self st') = pool
    ∧ trace st' = trace st.
Proof.
  induction n as [|n IH]; intros st pool c Hc.
  - exists [], st. cbn. rewrite Nat.add_0_r, Nat.mod_small by done.
    repeat split; try done. intros k Hk. lia.
  - cbn [select_nodes]. unfold bind at 1. rewrite get_next_sync_node_run.
    fold pool c. destruct (pool !! c) as [w3|] eqn:Hw3.
    2:{ apply lookup_ge_None in Hw3. lia. }
    destruct (IH (mkSt (advance_cursor (self st)) (world st) (trace st)))
      as (l & st' & Hrun & Hlen & Hl & Hcur & Hpool & Htr).
    { cbn [self]. change (w3_instances (advance_cursor (self st))) with pool.
      change (current_sync_node_index (advance_cursor (self st)))
        with ((c + 1) `mod` length pool)%nat.
      apply Nat.mod_upper_bound. lia. }
    cbn [self trace] in Hl, Hcur, Hpool, Htr.
    change (w3_instances (advance_cursor (self st))) with pool in Hl, Hcur, Hpool.
    change (current_sync_node_index (advance_cursor (self st)))
      with ((c + 1) `mod` length pool)%nat in Hl, Hcur.
    exists (w3 :: l), st'. unfold bind. rewrite Hrun. cbn.
    split; [done|]. split; [by rewrite Hlen|]. split; [|split; [|done]].
    + intros [|k] Hk.
      * cbn. by rewrite Nat.add_0_r, Nat.mod_small.
      * cbn. rewrite Hl by lia. rewrite Nat.Div0.add_mod_idemp_l.
        by replace (c + 1 + k)%nat with (c + S k)%nat by lia.
    + rewrite Hcur, Nat.Div0.add_mod_idemp_l. f_equal. lia.
Qed.

End RotationFacts.

(** C6, as amended: the pool has one round-robin cursor, shared by the
    selections for reading and for writing (both are
    [get_next_sync_node]): a selection returns the node under the cursor
    and moves the cursor on by one, whoever asks; [N] selections in a row
    on a pool of [N] nodes return every node exactly once, in the pool
    order rotated to the cursor, and bring the cursor back. *)
Theorem single_cursor_rotation `{Api : Web3Api} (st : St Sender) :
  let pool := w3_instances (self st) in
  let N := length pool in
  let c := current_sync_node_index (self st) in
  (c < N)%nat →
  (∃ w3, pool !! c = Some w3 ∧ (get_next_sync_node st).1 = Return w3)
  ∧ current_sync_node_index (self (get_next_sync_node st).2)
    = ((c + 1) `mod` N)%nat
  ∧ (select_nodes N st).1 = Return (rotate c pool)
  ∧ current_sync_node_index (self (select_nodes N st).2) = c
  ∧ rotate c pool ≡ₚ pool
  ∧ NoDup (rotate c pool).
Proof.
  intros pool N c Hc.
  assert (Hperm : rotate c pool ≡ₚ pool).
  { unfold rotate. rewrite Permutation_app_comm. by rewrite take_drop. }
  split; [|split; [|split; [|split; [|split; [done|]]]]].
  - rewrite get_next_sync_node_run. fold pool c.
    destruct (lookup_lt_is_Some_2 pool c Hc) as [w3 Hw3].
    rewrite Hw3. by exists w3.
  - rewrite get_next_sync_node_run. fold pool c.
    destruct (lookup_lt_is_Some_2 pool c Hc) as [w3 Hw3].
    by rewrite Hw3.
  - destruct (select_nodes_run N st Hc) as (l & st' & -> & Hlen & Hl & _).
    cbn. f_equal. apply list_eq. intros k.
    destruct (decide (k < N)%nat) as [Hk|Hk].
    + rewrite Hl by done. fold pool. rewrite lookup_rotate_r by done.
      f_equal. unfold rotate_nat_add.
      by rewrite <- Nat2Z.inj_add, <- Nat2Z.inj_mod, Nat2Z.id.
    + rewrite !lookup_ge_None_2; [done | rewrite length_rotate; lia | lia].
  - destruct (select_nodes_run N st Hc) as (l & st' & -> & _ & _ & Hcur & _).
    cbn. rewrite Hcur. fold pool c N.
    rewrite <- (Nat.mul_1_l N) at 1. rewrite Nat.Div0.mod_add.
    by apply Nat.mod_small.
  - rewrite Hperm. apply w3_instances_NoDup.
Qed.

(** ** The scenarios *)
Section Scenarios.
Import Scenario.

(** C1, the claim as stated refuted: a WorkItem whose transaction cannot
    be built is processed and ends failed, its sequence number reserved,
    without ever being signed. *)
Lemma unbuildable_item_is_never_signed :
  let st := start_unbuildable two_nodes in
  let run := submit_spotdata_transaction acct1 spot_data_params 3 st in
  run.1 = Return (false, None)
  ∧ new_events st run.2 = [EvReserve "0xA1" 5]
  ∧ count_events is_sign (new_events st run.2) ≠ 1%nat.
Proof. vm_compute. repeat split; discriminate. Qed.

(** Three nodes, three collisions, a budget of three: three attempts on
    three nodes, then failed. *)
Lemma collision_retry_bound_witness :
  let st := start three_nodes [collision; collision; collision] in
  let run := submit_spotdata_transaction acct1 spot_data_params 3 st in
  let attempts := broadcasts (new_events st run.2) in
  (λ b : Broadcast, b.1.1) <$> attempts = [node_b; node_c; node_a]
  ∧ run.1 = Return (false, None)
  ∧ counted_failure (self st) (self run.2)
  ∧ length attempts = Z.to_nat 3
  ∧ (∀ k (b : Broadcast), attempts !! k = Some b →
       w3_instances (self st) !! ((0 + 1 + k) `mod` 3)%nat = Some b.1.1)
  ∧ NoDup ((λ b : Broadcast, b.1.1) <$> attempts).
Proof.
  split; [by vm_compute|].
  apply (collision_retry_bound (Api := healthy) acct1 spot_data_params 3
           (start three_nodes [collision; collision; collision])).
  - vm_compute. split; discriminate.
  - exists "signed:0xA1:key1". vm_compute. repeat constructor.
  - vm_compute. repeat constructor.
Defined.

(** Three nodes and a budget of three, the first broadcast rejected for
    lack of funds: one attempt, then failed. *)
Lemma other_error_ends_the_retries_witness :
  let st := start three_nodes [rejection] in
  let run := submit_spotdata_transaction acct1 spot_data_params 3 st in
  let attempts := broadcasts (new_events st run.2) in
  attempts = [(node_b, "signed:0xA1:key1", rejection)]
  ∧ 1%nat = length attempts
  ∧ run.1 = Return (false, None)
  ∧ counted_failure (self st) (self run.2).
Proof.
  split; [by vm_compute|].
  apply (other_error_ends_the_retries (Api := healthy) acct1 spot_data_params 3
           (start three_nodes [rejection]) 0%nat node_b "signed:0xA1:key1"
           "insufficient funds for gas * price + value");
    by vm_compute.
Defined.

(** The scenario of the specification: two nodes, a collision on the
    first write node, success on the other one: two attempts. *)
Lemma collision_then_success :
  let st := start two_nodes [collision] in
  let run := submit_spotdata_transaction acct1 spot_data_params 3 st in
  run.1 = Return (true, Some "0xhash")
  ∧ length (broadcasts (new_events st run.2)) = 2%nat
  ∧ count_events is_reserve (new_events st run.2) = 1%nat
  ∧ count_events is_sign (new_events st run.2) = 1%nat.
Proof. by vm_compute. Qed.

(** The scenario of the specification: the local counter of the first
    account has drifted to 110 while the ledger reports 108; after the
    realignment the next reservation returns 108. *)
Lemma reconcile_then_reserve_witness :
  let drifted :=
    set_account_nonces (<["0xA1" := 110]> seeded) three_nodes in
  let st := @mkSt healthy Sender drifted
              (mkNodes [] (<["0xA1" := 108]> seeded)) [] in
  let st' := (realign_all_nonces st).2 in
  (Nonces.nonce_of (account_nonces (self st)) "0xA1" = 110
   ∧ NoDup (address <$> accounts (self st))
   ∧ EvRead node_a "0xA1" (Return 108) ∈ new_events st st')
  ∧ (realign_all_nonces st).1 = Return tt
  ∧ (get_next_nonce "0xA1" st').1 = Return 108.
Proof.
  intros drifted st st'.
  assert (Hnd : NoDup (address <$> accounts (self st))).
  { apply (bool_decide_unpack (NoDup (address <$> accounts (self st)))).
    by vm_compute. }
  assert (Hin : EvRead node_a "0xA1" (Return 108) ∈ new_events st st').
  { vm_compute. repeat constructor. }
  split; [by repeat split|].
  exact (proj2 (proj2 (proj2
           (reconcile_then_reserve_returns_observed "0xA1" 108 ∅)))
           healthy st node_a Hnd Hin).
Defined.

(** C6, the claim as stated refuted: on a pool of two nodes, a selection
    for reading between two selections for writing makes both writes go
    to the same node; the other node is never written to. *)
Lemma read_selection_advances_write_rotation :
  let st := start two_nodes [] in
  let write1 := get_next_sync_node st in
  let read := get_next_sync_node write1.2 in
  let write2 := get_next_sync_node read.2 in
  write1.1 = Return node_a
  ∧ read.1 = Return node_b
  ∧ write2.1 = Return node_a
  ∧ ¬ NoDup [write1.1; write2.1].
Proof.
  vm_compute. repeat split; try done.
  intros Hnd. apply NoDup_cons in Hnd as [Hin _]. apply Hin. constructor.
Qed.

Lemma single_cursor_rotation_witness :
  let st := start three_nodes [] in
  (∃ w3, w3_instances (self st) !! 0%nat = Some w3
         ∧ (get_next_sync_node st).1 = Return w3)
  ∧ current_sync_node_index (self (get_next_sync_node st).2) = ((0 + 1) `mod` 3)%nat
  ∧ (select_nodes 3 st).1 = Return (rotate 0 (w3_instances (self st)))
  ∧ current_sync_node_index (self (select_nodes 3 st).2) = 0%nat
  ∧ rotate 0 (w3_instances (self st)) ≡ₚ w3_instances (self st)
  ∧ NoDup (rotate 0 (w3_instances (self st))).
Proof.
  apply (single_cursor_rotation (Api := healthy) (start three_nodes [])).
  vm_compute. lia.
Defined.

(** C7, the code at a failing WorkItem: the broadcast is rejected, the
    item is counted as failed and not as attempted, in the sender and in
    the ClaimMaster script alike; attempted is not succeeded plus failed. *)
Theorem failed_item_is_not_counted_as_attempted :
  let s' := self (submit_spotdata_transaction acct1 spot_data_params 3
                    (start two_nodes [rejection])).2 in
  let cm := self (ClaimMaster.claim_master_single_account acct1
                    (start claim_script [rejection])).2 in
  submissions_count s' = 0
  ∧ successful_submissions s' = 0
  ∧ failed_submissions s' = 1
  ∧ submissions_count s' ≠ successful_submissions s' + failed_submissions s'
  ∧ ClaimMaster.total_claims_attempted cm = 0
  ∧ ClaimMaster.total_claims_successful cm = 0
  ∧ ClaimMaster.total_claims_failed cm = 1
  ∧ ClaimMaster.total_claims_attempted cm
    ≠ ClaimMaster.total_claims_successful cm + ClaimMaster.total_claims_failed cm.
Proof. vm_compute. repeat split; discriminate. Qed.

(** C1 on an item that is built and signed: two nodes, a collision on
    the first write node, success on the other one. The bytes signed are
    the signature of the transaction with the reserved nonce 5, and both
    broadcasts carry them. *)
Lemma one_reservation_one_signature_witness :
  let st := Legible.start two_nodes [collision] in
  let run := submit_spotdata_transaction acct1 spot_data_params 3 st in
  let raw := Legible.signed
               (mkTx (mkTxOptions "0xA1" 5 0 700000 200000 2139927552)
                  DATASPOTTING_ADDRESS (Legible.encode spot_data_params))
               "key1" in
  signs_as (Api := Legible.web3) (self st) acct1 spot_data_params raw
  ∧ ∃ bs,
      new_events st run.2 = EvReserve "0xA1" 5 :: EvSign raw :: (send_event <$> bs)
      ∧ count_events is_sign (new_events st run.2) = 1%nat
      ∧ Forall (λ b : Broadcast, b.1.2 = raw) bs
      ∧ (length bs ≤ Z.to_nat 3)%nat.
Proof.
  intros st run raw.
  assert (Hsigns : signs_as (Api := Legible.web3) (self st) acct1
                     spot_data_params raw).
  { eexists _, _, _, _, _. repeat split; by vm_compute. }
  split; [exact Hsigns|].
  exact (proj2 (proj2 (proj2 (proj2
           (one_reservation_one_signature (Api := Legible.web3) acct1
              spot_data_params 3 st)))) raw Hsigns).
Defined.

(** C9 on the entry of the first account, the broadcast rejected: the
    call returns the failure. *)
Lemma submit_never_raises_witness :
  let st := start two_nodes [rejection] in
  let account := Unvalidated.of_account acct1 in
  (Unvalidated.submit_spotdata_transaction account spot_data_params 3 st).1
  = Return (false, None)
  ∧ ∃ success tx_hash st',
      Unvalidated.submit_spotdata_transaction account spot_data_params 3 st
      = (Return (success, tx_hash), st')
      ∧ match success with
        | true => is_Some tx_hash ∧ counted_success (self st) (self st')
        | false => tx_hash = None ∧ counted_failure (self st) (self st')
        end.
Proof.
  intros st account. split; [by vm_compute|].
  exact (submit_never_raises (Api := healthy) account "0xA1" "key1" 0
           spot_data_params 3 st eq_refl eq_refl eq_refl).
Defined.

(** C9, the claim as stated refuted: for an entry without the key
    ['index'] the subscript raises, and the handler at the end, which
    formats [index] for its message, raises [UnboundLocalError] out of
    the call; nothing was reserved or sent. For an entry whose index is
    the string ["0"] the transaction is signed and a node accepts it,
    the [print] that follows raises [ValueError], and so do the messages
    of both handlers: the call raises, the accepted transaction is
    counted as failed and not as submitted. *)
Lemma malformed_account_raises :
  let st := start two_nodes [] in
  let no_index :=
    Unvalidated.mkAccountInput (Some "0xA1") (Some "key1") None in
  let text_index :=
    Unvalidated.mkAccountInput (Some "0xA1") (Some "key1")
      (Some (Unvalidated.PyStr "0")) in
  let run1 := Unvalidated.submit_spotdata_transaction no_index
                spot_data_params 3 st in
  let run2 := Unvalidated.submit_spotdata_transaction text_index
                spot_data_params 3 st in
  (run1.1 = Raise "cannot access local variable 'index' where it is not associated with a value"
   ∧ new_events st run1.2 = []
   ∧ failed_submissions (self run1.2) = 1)
  ∧ (run2.1 = Raise "Unknown format code 'd' for object of type 'str'"
     ∧ new_events st run2.2
       = [EvReserve "0xA1" 5; EvSign "signed:0xA1:key1";
          EvSend node_b "signed:0xA1:key1" (Return "0xhash")]
     ∧ submissions_count (self run2.2) = 0
     ∧ failed_submissions (self run2.2) = 1).
Proof. by vm_compute. Qed.


End Scenarios.

(** ** The work queue *)
Section QueueFacts.

Lemma add_transaction_run file_hashs url_domains item_counts extra qs :
  add_transaction file_hashs url_domains item_counts extra qs =
  if PyQueue.full (transaction_queue qs) then PyQueue.Blocks
  else PyQueue.Done
         (set_transaction_queue
            (PyQueue.append_item (transaction_queue qs)
               (mkParams file_hashs url_domains item_counts extra)) qs).
Proof.
  unfold add_transaction, PyQueue.put, PyQueue.full. cbn [negb].
  destruct (0 <? PyQueue.maxsize (transaction_queue qs)); cbn [andb]; [|done].
  by destruct (PyQueue.maxsize (transaction_queue qs)
               <=? PyQueue.qsize (transaction_queue qs)).
Qed.

Lemma mkParams_eta p :
  mkParams (file_hashs p) (url_domains p) (item_counts p) (extra p) = p.
Proof. by destruct p. Qed.

Lemma queue_step_invariant op state :
  queue_invariant state → queue_invariant (queue_step op state).
Proof.
  destruct state as [qs log]. intros (Hmax & Ht & Hacc & Hsize).
  cbn [fst snd] in *. destruct op as [p|]; cbn [queue_step].
  - rewrite add_transaction_run, mkParams_eta. unfold PyQueue.full.
    rewrite Hmax. change (0 <? QUEUE_MAXSIZE) with true. cbn [andb].
    destruct (QUEUE_MAXSIZE <=? PyQueue.qsize (transaction_queue qs)) eqn:Hfull;
      [done|].
    apply Z.leb_gt in Hfull.
    repeat split; cbn [fst snd transaction_queue set_transaction_queue
                       queue_empty_timeout accepted dequeued
                       PyQueue.maxsize PyQueue.queue PyQueue.append_item];
      try done.
    + by rewrite Hacc, <- app_assoc.
    + unfold PyQueue.qsize, PyQueue.append_item in *. cbn [PyQueue.queue] in *.
      rewrite length_app. cbn [length]. lia.
  - unfold take_transaction, PyQueue.get. cbn [negb].
    destruct (queue_empty_timeout qs <? 0) eqn:Hneg; [apply Z.ltb_lt in Hneg; lia|].
    destruct (PyQueue.queue (transaction_queue qs)) as [|item rest] eqn:Hq.
    { repeat split; cbn [fst snd]; try done. by rewrite Hq. }
    repeat split; cbn [fst snd transaction_queue set_transaction_queue
                       queue_empty_timeout accepted dequeued
                       PyQueue.maxsize PyQueue.queue];
      try done.
    + by rewrite Hacc, <- app_assoc.
    + unfold PyQueue.qsize in *. rewrite Hq in Hsize.
      cbn [PyQueue.queue length] in *. lia.
Qed.

Lemma run_queue_ops_invariant ops : ∀ state,
  queue_invariant state → queue_invariant (run_queue_ops ops state).
Proof.
  induction ops as [|op ops IH]; intros state Hinv; [done|].
  cbn. apply IH. by apply queue_step_invariant.
Qed.

End QueueFacts.

(** C8, as amended: [add_transaction] on a queue at its bound does not
    fail: the blocking [put] waits for a free slot, raising nothing and
    changing nothing; below the bound the item is appended. In no case is
    an item dropped or the bound exceeded: whatever producers and the
    consumer do from the empty queue of [__init__], the items accepted are
    the items dequeued followed by the items still in the queue, in
    order, and the queue holds at most 1000000 of them. *)
Theorem bounded_queue_blocks_and_keeps_items
    (file_hashs url_domains : list string) (item_counts : list Z)
    (extra : string) (qs : QueueSender) (ops : list QueueOp) (s : Sender) :
  let q := transaction_queue qs in
  let final := run_queue_ops ops (init_queue_sender s, mkQueueLog [] []) in
  add_transaction file_hashs url_domains item_counts extra qs
  = (if PyQueue.full q then PyQueue.Blocks
     else PyQueue.Done
            (set_transaction_queue
               (PyQueue.append_item q
                  (mkParams file_hashs url_domains item_counts extra)) qs))
  ∧ (∀ msg, add_transaction file_hashs url_domains item_counts extra qs
            ≠ PyQueue.Raises msg)
  ∧ accepted final.2 = dequeued final.2 ++ PyQueue.queue (transaction_queue final.1)
  ∧ 0 ≤ get_queue_size final.1 ≤ QUEUE_MAXSIZE.
Proof.
  intros q final. split; [apply add_transaction_run|]. split.
  - intros msg. rewrite add_transaction_run.
    by destruct (PyQueue.full (transaction_queue qs)).
  - destruct (run_queue_ops_invariant ops (init_queue_sender s, mkQueueLog [] []))
      as (_ & _ & Hacc & Hsize).
    { repeat split; try done. }
    fold final in Hacc, Hsize. split; [done|].
    unfold get_queue_size, PyQueue.qsize in *. lia.
Qed.

(** C8, the claim as stated refuted: on the queue filled to its bound of
    1000000 items, [add_transaction] does not fail, it blocks. *)
Lemma full_queue_blocks_instead_of_failing :
  get_queue_size Scenario.full_queue_sender = QUEUE_MAXSIZE
  ∧ add_transaction ["QmUtQJK2YncnLcBL6W9d8xeJzSmThb2CU7mpbdiC4CpkcE"] [""] [40] ""
      Scenario.full_queue_sender = PyQueue.Blocks
  ∧ ∀ msg,
      add_transaction ["QmUtQJK2YncnLcBL6W9d8xeJzSmThb2CU7mpbdiC4CpkcE"] [""] [40] ""
        Scenario.full_queue_sender ≠ PyQueue.Raises msg.
Proof.
  assert (Hsize : get_queue_size Scenario.full_queue_sender = QUEUE_MAXSIZE).
  { unfold get_queue_size, PyQueue.qsize, Scenario.full_queue_sender.
    cbn [transaction_queue set_transaction_queue PyQueue.queue].
    rewrite length_replicate. unfold Scenario.million.
    apply Z2Nat.id. unfold QUEUE_MAXSIZE. lia. }
  assert (Hfull : PyQueue.full (transaction_queue Scenario.full_queue_sender) = true).
  { unfold PyQueue.full. fold (get_queue_size Scenario.full_queue_sender).
    rewrite Hsize. reflexivity. }
  split; [done|]. rewrite add_transaction_run, Hfull. by split.
Qed.

(** ** The funding schedule *)
Section FundingFacts.
Context `{Api : Web3Api}.
Import Funder.

Lemma targets_of_append key target schedule k :
  targets_of (schedule_append key target schedule) k
  = targets_of schedule k ++ (if decide (key = k) then [target] else []).
Proof.
  unfold schedule_append, targets_of at 1. case_decide as Hk.
  - subst k. by rewrite lookup_insert_eq.
  - rewrite lookup_insert_ne by done. by rewrite app_nil_r.
Qed.

Lemma targets_of_touch key schedule k :
  targets_of (schedule_touch key schedule) k = targets_of schedule k.
Proof.
  unfold schedule_touch, targets_of at 1.
  destruct (decide (key = k)) as [->|Hk].
  - by rewrite lookup_insert_eq.
  - by rewrite lookup_insert_ne.
Qed.

Lemma fetch_nonce_run account (st : St Script) :
  ∃ st', fetch_nonce account st = (Return tt, st')
         ∧ same_accounts (self st) (self st')
         ∧ funding_schedule (self st') = funding_schedule (self st).
Proof.
  unfold fetch_nonce, try_except. unfold bind at 1. unfold read_self at 1.
  destruct (w3 (self st)) as [w|].
  - unfold read_count, rpc, emit, lift, update_self, ret, bind. simpl.
    destruct (get_transaction_count (world st) w (address account))
      as [w1 [v|e]]; eexists; (split; [reflexivity|]); by repeat split.
  - unfold throw, update_self, bind. simpl.
    eexists; (split; [reflexivity|]); by repeat split.
Qed.

Lemma fetch_nonces_run l : ∀ st : St Script,
  ∃ st', for_each fetch_nonce l st = (Return tt, st')
         ∧ same_accounts (self st) (self st')
         ∧ funding_schedule (self st') = funding_schedule (self st).
Proof.
  induction l as [|a l IH]; intros st.
  - exists st. by repeat split.
  - cbn [for_each]. unfold bind at 1.
    destruct (fetch_nonce_run a st) as (st1 & -> & [Hf Ht] & Hs).
    destruct (IH st1) as (st2 & -> & [Hf2 Ht2] & Hs2).
    exists st2. repeat split; congruence.
Qed.

Lemma log_funders_run l : ∀ st : St Script,
  ∃ st', for_each log_funder l st = (Return tt, st')
         ∧ same_accounts (self st) (self st')
         ∧ ∀ k, targets_of (funding_schedule (self st')) k
                = targets_of (funding_schedule (self st)) k.
Proof.
  induction l as [|a l IH]; intros st.
  - exists st. by repeat split.
  - cbn [for_each]. unfold bind at 1, log_funder at 1, update_self at 1.
    destruct (IH (mkSt (set_funding_schedule
                          (schedule_touch (address a) (funding_schedule (self st)))
                          (self st)) (world st) (trace st)))
      as (st2 & -> & [Hf2 Ht2] & Hs2).
    exists st2. split; [done|]. split; [by split|].
    intros k. rewrite Hs2. cbn. apply targets_of_touch.
Qed.

Lemma assigned_cons funders key i target entries :
  assigned funders key ((i, target) :: entries)
  = (if decide (address <$> funders !! (i `mod` length funders)%nat = Some key)
     then [target] else []) ++ assigned funders key entries.
Proof.
  unfold assigned. rewrite filter_cons. cbn [fst]. by case_decide.
Qed.

(** The scheduling loop appends each target to the list of the funder
    its position designates. *)
Lemma schedule_targets_run entries : ∀ st : St Script,
  funding_accounts (self st) ≠ [] →
  ∃ st', for_each schedule_target entries st = (Return tt, st')
         ∧ same_accounts (self st) (self st')
         ∧ ∀ k, targets_of (funding_schedule (self st')) k
                = targets_of (funding_schedule (self st)) k
                  ++ assigned (funding_accounts (self st)) k entries.
Proof.
  induction entries as [|[i target] entries IH]; intros st Hne.
  - exists st. split; [done|]. split; [done|].
    intros k. by rewrite app_nil_r.
  - cbn [for_each]. unfold bind at 1, schedule_target at 1.
    unfold bind at 1, read_self at 1.
    assert (Hlen : length (funding_accounts (self st)) ≠ 0%nat).
    { by destruct (funding_accounts (self st)). }
    case_decide; [done|].
    destruct (lookup_lt_is_Some_2 (funding_accounts (self st))
                (i `mod` length (funding_accounts (self st)))%nat) as [fa Hfa].
    { apply Nat.mod_upper_bound. done. }
    rewrite Hfa. unfold update_self at 1.
    destruct (IH (mkSt (set_funding_schedule
                          (schedule_append (address fa) target
                             (funding_schedule (self st)))
                          (self st)) (world st) (trace st)))
      as (st2 & -> & [Hf2 Ht2] & Hs2); [done|].
    exists st2. split; [done|]. split; [by split|].
    intros k. rewrite Hs2. cbn [self funding_schedule funding_accounts
                                  set_funding_schedule].
    rewrite targets_of_append, assigned_cons, Hfa, <- app_assoc. cbn [fmap option_fmap option_map].
    f_equal. f_equal.
    destruct (decide (address fa = k)) as [->|Hk]; case_decide; congruence.
Qed.

Lemma snd_imap_pair {A} (l : list A) : snd <$> imap pair l = l.
Proof.
  apply list_eq. intros i. rewrite list_lookup_fmap, list_lookup_imap.
  by destruct (l !! i).
Qed.

Lemma elem_of_assigned funders key targets t :
  t ∈ assigned funders key (imap pair targets)
  ↔ ∃ i f, targets !! i = Some t
           ∧ funders !! (i `mod` length funders)%nat = Some f
           ∧ address f = key.
Proof.
  unfold assigned. rewrite list_elem_of_fmap. split.
  - intros ([i t'] & -> & Hin). apply list_elem_of_filter in Hin as [Hp Hin].
    cbn in Hp. apply list_elem_of_lookup in Hin as [j Hj].
    rewrite list_lookup_imap in Hj.
    destruct (targets !! j) as [tj|] eqn:Htj; [|done].
    cbn in Hj. injection Hj as <- <-.
    destruct (funders !! (j `mod` length funders)%nat) as [f|] eqn:Hf; [|done].
    cbn in Hp. injection Hp as Hp. by exists j, f.
  - intros (i & f & Hi & Hf & Hk). exists (i, t). split; [done|].
    apply list_elem_of_filter. split.
    + cbn. by rewrite Hf, <- Hk.
    + apply list_elem_of_lookup. exists i. rewrite list_lookup_imap. by rewrite Hi.
Qed.

Lemma assigned_NoDup funders key targets :
  NoDup targets → NoDup (assigned funders key (imap pair targets)).
Proof.
  intros Hnd. eapply sublist_NoDup; [exact Hnd|].
  rewrite <- (snd_imap_pair targets) at 2. unfold assigned.
  apply fmap_sublist, sublist_filter.
Qed.

End FundingFacts.

(** C10: the schedule built from the first 200 accounts of accounts.json
    (the funders) and the next 1800 (the targets) is a partition of the
    targets: the target at position [i] is in the list of funder
    [i mod 200] and of no other funder, the targets found in the funders'
    lists are exactly the target accounts, and no list holds a target
    twice. The accounts of the file have pairwise different addresses. *)
Theorem funding_schedule_partitions_targets `{Api : Web3Api}
    (content : list Account) (node : option Web3) (w : World) :
  let st := mkSt (Funder.init node) w [] in
  let run := (Funder.load_accounts (Some content) >>
              Funder.initialize_funding_nonces_and_schedule)%engine st in
  let s' := self run.2 in
  let funders := Funder.funding_accounts s' in
  let targets := Funder.target_accounts s' in
  let scheduled f := Funder.targets_of (Funder.funding_schedule s') (address f) in
  (2000 ≤ length content)%nat →
  NoDup (address <$> content) →
  run.1 = Return tt
  ∧ funders = take 200 content
  ∧ targets = take 1800 (drop 200 content)
  ∧ length funders = 200%nat
  ∧ length targets = 1800%nat
  ∧ (∀ i t j f, targets !! i = Some t → funders !! j = Some f →
       (t ∈ scheduled f ↔ j = (i `mod` 200)%nat))
  ∧ (∀ t, t ∈ targets ↔ ∃ f, f ∈ funders ∧ t ∈ scheduled f)
  ∧ (∀ f, f ∈ funders → NoDup (scheduled f)).
Proof.
  intros st run s' funders targets scheduled Hlen Hnd.
  set (F := take 200 content). set (T := take 1800 (drop 200 content)).
  assert (HlenF : length F = 200%nat).
  { unfold F. rewrite length_take. lia. }
  assert (HlenT : length T = 1800%nat).
  { unfold T. rewrite length_take, length_drop. lia. }
  (* the run, loop by loop *)
  set (st1 := mkSt (Funder.set_split F T (Funder.set_all_accounts content
                                            (Funder.init node))) w []).
  assert (Hload : Funder.load_accounts (Some content) st = (Return tt, st1)).
  { unfold Funder.load_accounts, bind, update_self.
    destruct (length content <? 2000)%nat eqn:Hlt; [|reflexivity].
    apply Nat.ltb_lt in Hlt. lia. }
  destruct (fetch_nonces_run F st1) as (st2 & Hrun2 & [Hf2 Ht2] & Hs2).
  destruct (schedule_targets_run (imap pair T) st2) as (st3 & Hrun3 & [Hf3 Ht3] & Hs3).
  { rewrite Hf2. cbn. intros HF. by rewrite HF in HlenF. }
  destruct (log_funders_run (take 5 F) st3) as (st4 & Hrun4 & [Hf4 Ht4] & Hs4).
  assert (Hrun : run = (Return tt, st4)).
  { unfold run, bind at 1. rewrite Hload.
    unfold Funder.initialize_funding_nonces_and_schedule.
    unfold bind at 1. unfold read_self at 1.
    change (Funder.funding_accounts (self st1)) with F.
    change (Funder.target_accounts (self st1)) with T.
    unfold bind at 1. rewrite Hrun2. unfold bind at 1. rewrite Hrun3.
    unfold bind at 1. rewrite Hrun4.
    case_decide as H0; [by rewrite HlenF in H0 | done]. }
  assert (HF : funders = F).
  { unfold funders, s'. rewrite Hrun. cbn. by rewrite Hf4, Hf3, Hf2. }
  assert (HT : targets = T).
  { unfold targets, s'. rewrite Hrun. cbn. by rewrite Ht4, Ht3, Ht2. }
  assert (Hsched : ∀ f, scheduled f = Funder.assigned F (address f) (imap pair T)).
  { intros f. unfold scheduled, s'. rewrite Hrun. cbn [snd].
    rewrite Hs4, Hs3, Hs2, Hf2. cbn. unfold Funder.targets_of at 1.
    by rewrite lookup_empty. }
  (* the accounts are pairwise different *)
  assert (HndT : NoDup T).
  { apply (sublist_NoDup _ content).
    - by apply NoDup_fmap_1 in Hnd.
    - unfold T. etrans; [apply sublist_take | apply sublist_drop]. }
  assert (HndF : NoDup (address <$> F)).
  { apply (sublist_NoDup _ (address <$> content)); [done|].
    apply fmap_sublist, sublist_take. }
  rewrite HF, HT, Hrun. cbn [fst].
  split; [done|]. split; [done|]. split; [done|]. split; [done|].
  split; [done|]. split; [|split].
  - intros i t j f Hi Hj. rewrite Hsched, elem_of_assigned, HlenF. split.
    + intros (i' & f' & Hi' & Hf' & Haddr).
      assert (i' = i) as -> by exact (NoDup_lookup T i' i t HndT Hi' Hi).
      eapply (NoDup_lookup (address <$> F)); [done| |].
      * rewrite list_lookup_fmap, Hj. reflexivity.
      * rewrite list_lookup_fmap, Hf'. cbn. by rewrite Haddr.
    + intros ->. by exists i, f.
  - intros t. split.
    + intros [i Hi]%list_elem_of_lookup.
      destruct (lookup_lt_is_Some_2 F (i `mod` 200)%nat) as [f Hf].
      { rewrite HlenF. apply Nat.mod_upper_bound. lia. }
      exists f. split; [by eapply list_elem_of_lookup_2|].
      rewrite Hsched, elem_of_assigned, HlenF. by exists i, f.
    + intros (f & _ & Hin). rewrite Hsched, elem_of_assigned in Hin.
      destruct Hin as (i & _ & Hi & _). by eapply list_elem_of_lookup_2.
  - intros f _. rewrite Hsched. by apply assigned_NoDup.
Qed.

(** The 2000 generated accounts: account 200 + [i] is funded by account
    [i mod 200]. *)
Lemma funding_schedule_partitions_targets_witness :
  let content := Scenario.generated_accounts in
  let st := @mkSt Scenario.healthy _ (Funder.init (Some Scenario.node_a))
              (Scenario.mkNodes [] ∅) [] in
  let run := (Funder.load_accounts (Some content) >>
              Funder.initialize_funding_nonces_and_schedule)%engine st in
  let s' := self run.2 in
  let funders := Funder.funding_accounts s' in
  let targets := Funder.target_accounts s' in
  let scheduled f := Funder.targets_of (Funder.funding_schedule s') (address f) in
  ((2000 ≤ length content)%nat ∧ NoDup (address <$> content))
  ∧ run.1 = Return tt
  ∧ funders = take 200 content
  ∧ targets = take 1800 (drop 200 content)
  ∧ length funders = 200%nat
  ∧ length targets = 1800%nat
  ∧ (∀ i t j f, targets !! i = Some t → funders !! j = Some f →
       (t ∈ scheduled f ↔ j = (i `mod` 200)%nat))
  ∧ (∀ t, t ∈ targets ↔ ∃ f, f ∈ funders ∧ t ∈ scheduled f)
  ∧ (∀ f, f ∈ funders → NoDup (scheduled f)).
Proof.
  assert (Hlen : (2000 ≤ length Scenario.generated_accounts)%nat).
  { unfold Scenario.generated_accounts. rewrite length_fmap, length_seq. lia. }
  assert (Hnd : NoDup (address <$> Scenario.generated_accounts)).
  { unfold Scenario.generated_accounts. rewrite <- list_fmap_compose.
    apply NoDup_fmap_2; [|apply NoDup_seq].
    intros i j Hij. cbn in Hij. injection Hij as Hij.
    change ("" +:+ pretty i) with (pretty i) in Hij.
    change ("" +:+ pretty j) with (pretty j) in Hij.
    by apply (inj pretty) in Hij. }
  split; [by split|].
  exact (funding_schedule_partitions_targets (Api := Scenario.healthy)
           Scenario.generated_accounts (Some Scenario.node_a)
           (Scenario.mkNodes [] ∅) Hlen Hnd).
Defined.

(** ** More on the sender: accounts, contracts, cursor, initial nonces *)
Section SenderFacts.
Context `{Api : Web3Api}.

Lemma get_next_account_run (st : St Sender) :
  get_next_account st =
  match accounts (self st) !! current_account_index (self st) with
  | None => (Raise "list index out of range", st)
  | Some account =>
      (Return account,
       mkSt (set_current_account_index
               ((current_account_index (self st) + 1)
                `mod` length (accounts (self st)))%nat (self st))
         (world st) (trace st))
  end.
Proof.
  unfold get_next_account, bind, read_self. simpl.
  destruct (accounts (self st) !! _); reflexivity.
Qed.

Lemma select_accounts_run n : ∀ st : St Sender,
  let l := accounts (self st) in
  let c := current_account_index (self st) in
  (c < length l)%nat →
  ∃ got st',
    select_accounts n st = (Return got, st')
    ∧ length got = n
    ∧ (∀ k, (k < n)%nat → got !! k = l !! ((c + k) `mod` length l)%nat)
    ∧ current_account_index (self st') = ((c + n) `mod` length l)%nat
    ∧ accounts (self st') = l
    ∧ trace st' = trace st.
Proof.
  induction n as [|n IH]; intros st l c Hc.
  - exists [], st. cbn. rewrite Nat.add_0_r, Nat.mod_small by done.
    repeat split; try done. intros k Hk. lia.
  - cbn [select_accounts]. unfold bind at 1. rewrite get_next_account_run.
    fold l c. destruct (l !! c) as [a|] eqn:Ha.
    2:{ apply lookup_ge_None in Ha. lia. }
    set (st1 := mkSt (set_current_account_index ((c + 1) `mod` length l)%nat
                        (self st)) (world st) (trace st)).
    destruct (IH st1) as (got & st' & Hrun & Hlen & Hl & Hcur & Hacc & Htr).
    { subst st1. cbn. fold l c. apply Nat.mod_upper_bound. lia. }
    subst st1. cbn [self trace] in Hl, Hcur, Hacc, Htr.
    cbn [accounts current_account_index set_current_account_index]
      in Hl, Hcur, Hacc.
    fold l c in Hl, Hcur, Hacc.
    exists (a :: got), st'. unfold bind. rewrite Hrun. cbn.
    split; [done|]. split; [by rewrite Hlen|]. split; [|split; [|done]].
    + intros [|k] Hk.
      * cbn. by rewrite Nat.add_0_r, Nat.mod_small.
      * cbn. rewrite Hl by lia. rewrite Nat.Div0.add_mod_idemp_l.
        by replace (c + 1 + k)%nat with (c + S k)%nat by lia.
    + rewrite Hcur, Nat.Div0.add_mod_idemp_l. f_equal. lia.
Qed.

End SenderFacts.

(** X1: [get_next_account] hands the accounts out in round robin: from a
    cursor inside the list, [n] calls in a row return the accounts at
    positions [c, c+1, ...] modulo the number of accounts, so every
    account is used once in every [N] calls; on an empty list the call
    raises and changes nothing. *)
Theorem accounts_are_used_in_round_robin `{Api : Web3Api} (n : nat)
    (st : St Sender) :
  let l := accounts (self st) in
  let N := length l in
  let c := current_account_index (self st) in
  (c < N)%nat →
  (∃ got,
     (select_accounts n st).1 = Return got
     ∧ length got = n
     ∧ ∀ k, (k < n)%nat → got !! k = l !! ((c + k) `mod` N)%nat)
  ∧ (select_accounts N st).1 = Return (rotate c l)
  ∧ current_account_index (self (select_accounts N st).2) = c
  ∧ (∀ st0 : St Sender, accounts (self st0) = [] →
       get_next_account st0 = (Raise "list index out of range", st0)).
Proof.
  intros l N c Hc. split; [|split; [|split]].
  - destruct (select_accounts_run n st Hc) as (got & st' & -> & Hlen & Hl & _).
    by exists got.
  - destruct (select_accounts_run N st Hc) as (got & st' & -> & Hlen & Hl & _).
    cbn. f_equal. apply list_eq. intros k.
    destruct (decide (k < N)%nat) as [Hk|Hk].
    + rewrite Hl by done. fold l. rewrite lookup_rotate_r by done.
      f_equal. unfold rotate_nat_add.
      by rewrite <- Nat2Z.inj_add, <- Nat2Z.inj_mod, Nat2Z.id.
    + rewrite !lookup_ge_None_2; [done | rewrite length_rotate; lia | lia].
  - destruct (select_accounts_run N st Hc) as (got & st' & -> & _ & _ & Hcur & _).
    cbn. rewrite Hcur. fold l c N.
    rewrite <- (Nat.mul_1_l N) at 1. rewrite Nat.Div0.mod_add.
    by apply Nat.mod_small.
  - intros st0 H0. rewrite get_next_account_run, H0. done.
Qed.

Lemma accounts_are_used_in_round_robin_witness :
  let st := Scenario.start Scenario.three_nodes [] in
  (∃ got,
     (select_accounts 4 st).1 = Return got
     ∧ length got = 4%nat
     ∧ ∀ k, (k < 4)%nat →
         got !! k = accounts (self st) !! ((0 + k) `mod` 3)%nat)
  ∧ (select_accounts 3 st).1 = Return (rotate 0 (accounts (self st)))
  ∧ current_account_index (self (select_accounts 3 st).2) = 0%nat
  ∧ (∀ st0 : @St Scenario.healthy Sender, accounts (self st0) = [] →
       get_next_account st0 = (Raise "list index out of range", st0)).
Proof.
  apply (accounts_are_used_in_round_robin (Api := Scenario.healthy) 4
           (Scenario.start Scenario.three_nodes [])).
  vm_compute. lia.
Defined.

Section ContractFacts.
Context `{Api : Web3Api}.

Lemma init_sender_aligned nodes chain accts :
  contracts_aligned (init_sender nodes chain accts).
Proof.
  eexists. split; [apply lookup_singleton_eq|].
  unfold w3_instances. cbn. apply list_eq. intros i.
  rewrite list_lookup_fmap, !list_lookup_imap.
  by destruct (nodes !! i).
Qed.

(** The cursor after a run of the retry loop: one slot further for every
    broadcast. *)
Lemma retry_loop_cursor raw max_retries attempts : ∀ (st : St Sender) exit st',
  retry_loop raw max_retries attempts st = (Return exit, st') →
  let pool := w3_instances (self st) in
  let c := current_sync_node_index (self st) in
  (c < length pool)%nat →
  current_sync_node_index (self st')
  = ((c + length (broadcasts (new_events st st'))) `mod` length pool)%nat.
Proof.
  induction attempts as [|k rest IH]; intros st exit st' Hrun pool c Hc.
  - cbn in Hrun. injection Hrun as <- <-.
    rewrite (new_events_app st st []) by by rewrite app_nil_r.
    cbn. fold c. by rewrite Nat.add_0_r, Nat.mod_small.
  - rewrite retry_loop_cons in Hrun. fold pool c in Hrun.
    destruct (pool !! c) as [w3|] eqn:Hw3.
    2:{ apply lookup_ge_None in Hw3. lia. }
    cbv zeta in Hrun.
    destruct (send_raw_transaction (world st) w3 raw) as [w1 [h|e]].
    { injection Hrun as <- <-.
      rewrite (new_events_app st _ [EvSend w3 raw (Return h)]) by done.
      cbn. done. }
    destruct (is_nonce_collision e).
    2:{ injection Hrun as <- <-.
        rewrite (new_events_app st _ [EvSend w3 raw (Raise e)]) by done.
        cbn. done. }
    destruct (retry_loop_run raw max_retries rest
                (mkSt (advance_cursor (self st)) w1
                   (trace st ++ [EvSend w3 raw (Raise e)])))
      as (exit' & st'' & bs & Hrun' & Htr & _).
    rewrite Hrun in Hrun'. injection Hrun' as <- <-.
    apply IH in Hrun.
    2:{ cbn [self]. change (w3_instances (advance_cursor (self st))) with pool.
        change (current_sync_node_index (advance_cursor (self st)))
          with ((c + 1) `mod` length pool)%nat.
        apply Nat.mod_upper_bound. lia. }
    cbn [self trace] in Hrun, Htr.
    change (w3_instances (advance_cursor (self st))) with pool in Hrun.
    change (current_sync_node_index (advance_cursor (self st)))
      with ((c + 1) `mod` length pool)%nat in Hrun.
    rewrite Hrun.
    rewrite (new_events_app (mkSt (advance_cursor (self st)) w1
               (trace st ++ [EvSend w3 raw (Raise e)])) st' (send_event <$> bs))
      by done.
    rewrite (new_events_app st st' (EvSend w3 raw (Raise e) :: (send_event <$> bs)))
      by by rewrite Htr, <- app_assoc.
    change (broadcasts (EvSend w3 raw (Raise e) :: (send_event <$> bs)))
      with ((w3, raw, Raise e) :: broadcasts (send_event <$> bs)).
    cbn [length]. rewrite Nat.Div0.add_mod_idemp_l. f_equal. lia.
Qed.

End ContractFacts.

(** X2: [get_next_contract] does not rotate: it changes nothing, so a
    second call returns the same contract; with the contracts built one
    per node, the contract it returns belongs to the node that the next
    [get_next_sync_node] returns (the node that signs in a submission);
    before the contracts are built it raises the missing key. *)
Theorem get_next_contract_does_not_rotate `{Api : Web3Api} (st : St Sender) :
  contracts_aligned (self st) →
  (current_sync_node_index (self st) < length (w3_instances (self st)))%nat →
  (∃ contract,
     get_next_contract st = (Return contract, st)
     ∧ get_next_contract (get_next_contract st).2 = (Return contract, st)
     ∧ (get_next_sync_node st).1 = Return (contract_w3 contract))
  ∧ (∀ st0 : St Sender, (get_next_contract st0).2 = st0)
  ∧ (∀ st0 : St Sender, contracts (self st0) !! "DataSpotting" = None →
       get_next_contract st0 = (Raise "'DataSpotting'", st0)).
Proof.
  intros (cs & Hcs & Hal) Hc. split; [|split].
  - destruct (lookup_lt_is_Some_2 _ _ Hc) as [w3 Hw3].
    assert (Hlook : contract_w3 <$> cs !! current_sync_node_index (self st)
                    = Some w3).
    { by rewrite <- list_lookup_fmap, Hal. }
    destruct (cs !! current_sync_node_index (self st)) as [contract|] eqn:Hct;
      [|done].
    cbn in Hlook. injection Hlook as Hlook.
    assert (Hrun : get_next_contract st = (Return contract, st)).
    { unfold get_next_contract, bind, read_self, ret. cbn. by rewrite Hcs, Hct. }
    exists contract. rewrite Hrun. cbn [snd]. rewrite Hrun.
    split; [done|]. split; [done|].
    rewrite get_next_sync_node_run, Hw3. cbn. by rewrite Hlook.
  - intros st0. unfold get_next_contract, bind, read_self, ret, throw. cbn.
    destruct (contracts (self st0) !! "DataSpotting") as [cs0|]; [|done].
    by destruct (cs0 !! current_sync_node_index (self st0)).
  - intros st0 H0. unfold get_next_contract, bind, read_self, throw. cbn.
    by rewrite H0.
Qed.

Lemma get_next_contract_does_not_rotate_witness :
  let st := Scenario.start Scenario.three_nodes [] in
  (∃ contract,
     get_next_contract st = (Return contract, st)
     ∧ get_next_contract (get_next_contract st).2 = (Return contract, st)
     ∧ (get_next_sync_node st).1 = Return (contract_w3 contract))
  ∧ (∀ st0 : @St Scenario.healthy Sender, (get_next_contract st0).2 = st0)
  ∧ (∀ st0 : @St Scenario.healthy Sender,
       contracts (self st0) !! "DataSpotting" = None →
       get_next_contract st0 = (Raise "'DataSpotting'", st0)).
Proof.
  apply (get_next_contract_does_not_rotate (Api := Scenario.healthy)
           (Scenario.start Scenario.three_nodes [])).
  - apply init_sender_aligned.
  - vm_compute. lia.
Defined.

(** X3: a submission that reaches the retry loop moves the node cursor on
    by one slot for the node it signs with and by one slot for every
    broadcast attempt, and by nothing else: the next submission starts
    [1 + attempts] slots further in the rotation. *)
Theorem submission_advances_cursor_per_attempt `{Api : Web3Api}
    account params max_retries (st : St Sender) raw :
  let run := submit_spotdata_transaction account params max_retries st in
  let N := length (w3_instances (self st)) in
  let c := current_sync_node_index (self st) in
  EvSign raw ∈ new_events st run.2 →
  current_sync_node_index (self run.2)
  = ((c + 1 + length (broadcasts (new_events st run.2))) `mod` N)%nat.
Proof.
  intros run N c Hsigned.
  destruct (submit_signed account params max_retries st raw Hsigned)
    as (st3 & exit & st4 & bs & Hloop & Hpool & Hc & Hcur & _ & Htr & Hbs & Hrun).
  fold run in Hbs, Hrun. fold c N in Hc, Hcur.
  pose proof (retry_loop_cursor raw max_retries (range max_retries) st3 exit st4
                Hloop) as Hcursor.
  cbv zeta in Hcursor. rewrite Hpool, Hcur in Hcursor. fold N in Hcursor.
  rewrite (new_events_app st3 st4 (send_event <$> bs)) in Hcursor by done.
  rewrite broadcasts_send_events in Hcursor.
  specialize (Hcursor ltac:(apply Nat.mod_upper_bound; lia)).
  rewrite Nat.Div0.add_mod_idemp_l in Hcursor.
  rewrite Hbs.
  assert (Hfinal : current_sync_node_index (self run.2)
                   = current_sync_node_index (self st4)).
  { rewrite Hrun. by destruct exit. }
  by rewrite Hfinal, Hcursor.
Qed.

Lemma submission_advances_cursor_per_attempt_witness :
  let st := Scenario.start Scenario.three_nodes [Scenario.collision] in
  let run := submit_spotdata_transaction Scenario.acct1 spot_data_params 3 st in
  length (broadcasts (new_events st run.2)) = 2%nat
  ∧ current_sync_node_index (self run.2)
    = ((0 + 1 + length (broadcasts (new_events st run.2))) `mod` 3)%nat.
Proof.
  split; [by vm_compute|].
  apply (submission_advances_cursor_per_attempt (Api := Scenario.healthy)
           Scenario.acct1 spot_data_params 3
           (Scenario.start Scenario.three_nodes [Scenario.collision])
           "signed:0xA1:key1").
  vm_compute. repeat constructor.
Defined.

Section InitialNonceFacts.
Context `{Api : Web3Api}.

Lemma initialize_nonce_run account (st : St Sender) :
  initialize_nonce account st =
  match w3_instances (self st) !! current_sync_node_index (self st) with
  | None =>
      (Return tt,
       mkSt (set_account_nonces
               (<[address account := 0]> (account_nonces (self st))) (self st))
         (world st) (trace st))
  | Some w3 =>
      let '(w1, response) :=
        get_transaction_count (world st) w3 (address account) in
      let s1 := advance_cursor (self st) in
      (Return tt,
       mkSt (set_account_nonces
               (<[address account :=
                    match response with Return v => v | Raise _ => 0 end]>
                  (account_nonces s1)) s1)
         w1 (trace st ++ [EvRead w3 (address account) response]))
  end.
Proof.
  unfold initialize_nonce, try_except. unfold bind at 1.
  rewrite get_next_sync_node_run.
  destruct (w3_instances (self st) !! _) as [w3|]; [|reflexivity].
  unfold read_count, rpc, emit, lift, update_self, ret, bind. simpl.
  destruct (get_transaction_count (world st) w3 (address account))
    as [w1 [v|e]]; reflexivity.
Qed.

(** The initialisation loop over accounts with pairwise different
    addresses. *)
Lemma initialize_nonces_loop l : ∀ st : St Sender,
  NoDup (address <$> l) →
  ∃ st' evs,
    for_each initialize_nonce l st = (Return tt, st')
    ∧ trace st' = trace st ++ evs
    ∧ (w3_instances (self st) = [] → evs = [])
    ∧ (∀ addr, addr ∉ address <$> l →
         account_nonces (self st') !! addr = account_nonces (self st) !! addr)
    ∧ (∀ a, a ∈ l →
         ∃ v, account_nonces (self st') !! address a = Some v
              ∧ (v = 0 ∨ ∃ w3, EvRead w3 (address a) (Return v) ∈ evs))
    ∧ (∀ w3 addr r, EvRead w3 addr r ∈ evs →
         account_nonces (self st') !! addr
         = Some match r with Return v => v | Raise _ => 0 end).
Proof.
  induction l as [|a l IH]; intros st Hnd.
  - exists st, []. rewrite app_nil_r. repeat split; try done.
    + intros a Ha. by apply elem_of_nil in Ha.
    + intros w3 addr r Hin. by apply elem_of_nil in Hin.
  - rewrite fmap_cons in Hnd. apply NoDup_cons in Hnd as [Ha Hnd].
    cbn [for_each]. unfold bind at 1. rewrite initialize_nonce_run.
    destruct (w3_instances (self st) !! current_sync_node_index (self st))
      as [w3|] eqn:Hw3.
    + cbv zeta.
      destruct (get_transaction_count (world st) w3 (address a)) as [w1 r].
      set (v0 := match r with Return v => v | Raise _ => 0 end).
      set (st1 := mkSt _ _ _).
      destruct (IH st1 Hnd) as (st' & evs & -> & Htr & Hempty & Hother & Hall & Hread).
      assert (Ha' : account_nonces (self st') !! address a = Some v0).
      { rewrite Hother by done. subst st1. cbn. apply lookup_insert_eq. }
      exists st', (EvRead w3 (address a) r :: evs).
      split; [done|]. split; [by rewrite Htr; cbn; rewrite <- app_assoc|].
      split; [intros Hnil; by rewrite Hnil in Hw3|]. split; [|split].
      * intros addr Hin. rewrite fmap_cons in Hin.
        apply not_elem_of_cons in Hin as [Hne Hin].
        rewrite Hother by done. subst st1. cbn. by apply lookup_insert_ne.
      * intros b Hb. apply elem_of_cons in Hb as [->|Hb].
        -- exists v0. split; [done|]. subst v0. destruct r as [v|e]; [|by left].
           right. exists w3. by left.
        -- destruct (Hall b Hb) as (v & Hv & [->|[w Hw]]).
           ++ exists 0. split; [done|]. by left.
           ++ exists v. split; [done|]. right. exists w. by right.
      * intros w addr r' Hin. apply elem_of_cons in Hin as [Heq|Hin].
        -- by injection Heq as -> -> ->.
        -- by eapply Hread.
    + set (st1 := mkSt _ _ _).
      destruct (IH st1 Hnd) as (st' & evs & -> & Htr & Hempty & Hother & Hall & Hread).
      assert (Ha' : account_nonces (self st') !! address a = Some 0).
      { rewrite Hother by done. subst st1. cbn. apply lookup_insert_eq. }
      exists st', evs. split; [done|]. split; [done|]. split; [done|].
      split; [|split; [|done]].
      * intros addr Hin. rewrite fmap_cons in Hin.
        apply not_elem_of_cons in Hin as [Hne Hin].
        rewrite Hother by done. subst st1. cbn. by apply lookup_insert_ne.
      * intros b Hb. apply elem_of_cons in Hb as [->|Hb]; [|by apply Hall].
        exists 0. split; [done|]. by left.
Qed.

(** The realignment loop, on the reads that raise: the counter of that
    account, and the key itself, stay as they were. *)
Lemma realign_accounts_keep_on_error l : ∀ st : St Sender,
  NoDup (address <$> l) →
  ∃ st' evs,
    for_each realign_account l st = (Return tt, st')
    ∧ trace st' = trace st ++ evs
    ∧ Forall (λ ev, ∃ w3 a r, ev = EvRead w3 (address a) r ∧ a ∈ l) evs
    ∧ (length evs ≤ length l)%nat
    ∧ counters_kept (self st) (self st')
    ∧ (∀ addr, addr ∉ address <$> l →
         account_nonces (self st') !! addr = account_nonces (self st) !! addr)
    ∧ (∀ w3 addr e, EvRead w3 addr (Raise e) ∈ evs →
         account_nonces (self st') !! addr = account_nonces (self st) !! addr).
Proof.
  induction l as [|a l IH]; intros st Hnd.
  - exists st, []. rewrite app_nil_r. repeat split; try done.
  - rewrite fmap_cons in Hnd. apply NoDup_cons in Hnd as [Ha Hnd].
    cbn [for_each]. unfold bind at 1. rewrite realign_account_run.
    destruct (w3_instances (self st) !! _) as [w3|].
    2:{ destruct (IH st Hnd) as (st' & evs & -> & Htr & Hev & Hlen & Hc & Hother & Herr).
        exists st', evs. split; [done|]. split; [done|].
        split. { eapply Forall_impl; [exact Hev|]. intros ev (w & b & r & -> & Hb).
                 exists w, b, r. split; [done|]. by right. }
        split; [cbn; lia|]. split; [done|]. split; [|done].
        intros addr Hin. apply Hother. rewrite fmap_cons in Hin.
        by apply not_elem_of_cons in Hin as [_ Hin]. }
    cbv zeta.
    destruct (get_transaction_count (world st) w3 (address a)) as [w1 response].
    set (st1 := mkSt _ _ _).
    destruct (IH st1 Hnd) as (st' & evs & -> & Htr & Hev & Hlen & Hc & Hother & Herr).
    exists st', (EvRead w3 (address a) response :: evs).
    split; [done|]. split; [by rewrite Htr; cbn; rewrite <- app_assoc|].
    split.
    { constructor; [exists w3, a, response; split; [done|by left]|].
      eapply Forall_impl; [exact Hev|]. intros ev (w & b & r & -> & Hb).
      exists w, b, r. split; [done|]. by right. }
    split; [cbn; lia|].
    split. { destruct Hc as (H1 & H2 & H3). subst st1.
             destruct response; repeat split; cbn in *; congruence. }
    split.
    + intros addr Hin. rewrite fmap_cons in Hin.
      apply not_elem_of_cons in Hin as [Hne Hin].
      rewrite Hother by done. subst st1. destruct response as [v|e]; cbn; [|done].
      unfold Nonces.reconcile. case_decide; rewrite ?lookup_insert_ne; done.
    + intros w addr e Hin. apply elem_of_cons in Hin as [Heq|Hin].
      * injection Heq as -> -> <-. rewrite Hother by done. by subst st1.
      * rewrite (Herr w addr e Hin).
        assert (Hne : addr ≠ address a).
        { intros ->. rewrite Forall_forall in Hev.
          destruct (Hev _ Hin) as (w' & b & r' & [= _ Hb _] & Hbl).
          apply Ha. rewrite Hb. by apply list_elem_of_fmap_2. }
        subst st1. destruct response as [v|e']; cbn; [|done].
        unfold Nonces.reconcile. case_decide; rewrite ?lookup_insert_ne; done.
Qed.

End InitialNonceFacts.

(** X4: [initialize_nonces] never raises and leaves a counter for every
    account: the count the ledger returned for it, or 0 when the read
    raised; without any node nothing is read and every counter is 0.
    The accounts have pairwise different addresses. *)
Theorem initialize_nonces_reads_or_defaults_to_zero `{Api : Web3Api}
    (st : St Sender) :
  let run := initialize_nonces st in
  let nonces := account_nonces (self run.2) in
  let evs := new_events st run.2 in
  NoDup (address <$> accounts (self st)) →
  run.1 = Return tt
  ∧ (∀ a, a ∈ accounts (self st) →
       ∃ v, nonces !! address a = Some v
            ∧ (v = 0 ∨ ∃ w3, EvRead w3 (address a) (Return v) ∈ evs))
  ∧ (∀ w3 addr v, EvRead w3 addr (Return v) ∈ evs → nonces !! addr = Some v)
  ∧ (∀ w3 addr e, EvRead w3 addr (Raise e) ∈ evs → nonces !! addr = Some 0)
  ∧ (w3_instances (self st) = [] →
       evs = [] ∧ ∀ a, a ∈ accounts (self st) → nonces !! address a = Some 0).
Proof.
  intros run nonces evs Hnd. subst run nonces evs.
  change (initialize_nonces st)
    with (for_each initialize_nonce (accounts (self st)) st).
  destruct (initialize_nonces_loop (accounts (self st)) st Hnd)
    as (st' & evs & -> & Htr & Hempty & _ & Hall & Hread).
  cbn [fst snd]. rewrite (new_events_app _ _ _ Htr).
  split; [done|]. split; [done|]. split; [|split].
  - intros w3 addr v Hin. by rewrite (Hread _ _ _ Hin).
  - intros w3 addr e Hin. by rewrite (Hread _ _ _ Hin).
  - intros Hnil. rewrite (Hempty Hnil). split; [done|].
    intros a Ha. destruct (Hall a Ha) as (v & Hv & [->|[w Hw]]); [done|].
    rewrite (Hempty Hnil) in Hw. by apply elem_of_nil in Hw.
Qed.

Lemma initialize_nonces_witness :
  let st := @mkSt Scenario.healthy Sender
              (init_sender ["https://node-a"] (Some 1)
                 [Scenario.acct1; mkAccount "0xB7" "key" 7])
              (Scenario.mkNodes [] Scenario.seeded) [] in
  let run := initialize_nonces st in
  (account_nonces (self run.2) !! "0xA1" = Some 5
   ∧ account_nonces (self run.2) !! "0xB7" = Some 0)
  ∧ run.1 = Return tt
  ∧ (∀ w3 addr e, EvRead w3 addr (Raise e) ∈ new_events st run.2 →
       account_nonces (self run.2) !! addr = Some 0).
Proof.
  intros st run. split; [by vm_compute|].
  assert (Hnd : NoDup (address <$> accounts (self st))).
  { apply (bool_decide_unpack (NoDup (address <$> accounts (self st)))).
    by vm_compute. }
  pose proof (initialize_nonces_reads_or_defaults_to_zero
                (Api := Scenario.healthy) st Hnd) as (H1 & _ & _ & H4 & _).
  by split.
Defined.

(** X5: [realign_all_nonces] never raises, reads at most once per
    account, counts one more realignment and leaves the submission
    counters alone; an account whose read raised keeps its counter, and so
    does every address that is not in the account list. The accounts have
    pairwise different addresses. *)
Theorem realignment_keeps_counter_on_failed_read `{Api : Web3Api}
    (st : St Sender) :
  let run := realign_all_nonces st in
  let evs := new_events st run.2 in
  NoDup (address <$> accounts (self st)) →
  run.1 = Return tt
  ∧ nonce_realignments (self run.2) = nonce_realignments (self st) + 1
  ∧ counters_kept (self st) (self run.2)
  ∧ (length evs ≤ length (accounts (self st)))%nat
  ∧ (∀ w3 addr e, EvRead w3 addr (Raise e) ∈ evs →
       account_nonces (self run.2) !! addr = account_nonces (self st) !! addr)
  ∧ (∀ addr, addr ∉ address <$> accounts (self st) →
       account_nonces (self run.2) !! addr = account_nonces (self st) !! addr).
Proof.
  intros run evs Hnd. subst run evs.
  destruct (realign_all_nonces_run st Hnd) as (st1 & evs1 & Hrun1 & Hev1 & Hre & _).
  rewrite Hrun1. cbn [fst snd]. rewrite Hev1.
  revert Hrun1. unfold realign_all_nonces. unfold bind at 1, read_self at 1.
  destruct (realign_accounts_keep_on_error (accounts (self st)) st Hnd)
    as (st' & evs & Hloop & Htr & _ & Hlen & Hc & Hother & Herr).
  unfold bind at 1. rewrite Hloop. unfold update_self, bind. cbn.
  intros [= <-]. rewrite (new_events_app st _ evs) in Hev1 by done. subst evs1.
  split; [done|]. split; [done|]. split; [done|]. by split.
Qed.

Lemma realignment_keeps_counter_witness :
  let st := @mkSt Scenario.healthy Sender
              (set_account_nonces Scenario.seeded
                 (init_sender ["https://node-a"] (Some 1)
                    [Scenario.acct1; mkAccount "0xB7" "key" 7]))
              (Scenario.mkNodes [] (<["0xA1" := 3]> ∅)) [] in
  let run := realign_all_nonces st in
  (account_nonces (self run.2) !! "0xA1" = Some 3
   ∧ account_nonces (self run.2) !! "0xB7" = None)
  ∧ run.1 = Return tt
  ∧ nonce_realignments (self run.2) = nonce_realignments (self st) + 1
  ∧ (∀ w3 addr e, EvRead w3 addr (Raise e) ∈ new_events st run.2 →
       account_nonces (self run.2) !! addr = account_nonces (self st) !! addr).
Proof.
  intros st run. split; [by vm_compute|].
  assert (Hnd : NoDup (address <$> accounts (self st))).
  { apply (bool_decide_unpack (NoDup (address <$> accounts (self st)))).
    by vm_compute. }
  pose proof (realignment_keeps_counter_on_failed_read
                (Api := Scenario.healthy) st Hnd) as (H1 & H2 & _ & _ & H5 & _).
  by repeat split.
Defined.

(** ** What the methods of the sender leave alone *)
Section PoolFacts.
Context `{Api : Web3Api}.
Local Open Scope engine_scope.

Lemma same_pools_refl s : same_pools s s.
Proof. by repeat split. Qed.

Lemma same_pools_trans a b c : same_pools a b → same_pools b c → same_pools a c.
Proof. intros (?&?&?) (?&?&?). repeat split; congruence. Qed.

Lemma keeps_ret {A} (a : A) : keeps_pools (ret a).
Proof. intros st. apply same_pools_refl. Qed.

Lemma keeps_throw {A} msg : keeps_pools (throw (A := A) msg).
Proof. intros st. apply same_pools_refl. Qed.

Lemma keeps_lift {A} (r : result A) : keeps_pools (lift r).
Proof. intros st. apply same_pools_refl. Qed.

Lemma keeps_emit ev : keeps_pools (emit ev).
Proof. intros st. apply same_pools_refl. Qed.

Lemma keeps_read_self : keeps_pools read_self.
Proof. intros st. apply same_pools_refl. Qed.

Lemma keeps_rpc {A} (call : World → World * result A) : keeps_pools (rpc call).
Proof. intros st. unfold rpc. destruct (call (world st)). apply same_pools_refl. Qed.

Lemma keeps_update f : (∀ s, same_pools s (f s)) → keeps_pools (update_self f).
Proof. intros Hf st. apply Hf. Qed.

Lemma keeps_bind {A B} (m : M Sender A) (k : A → M Sender B) :
  keeps_pools m → (∀ a, keeps_pools (k a)) → keeps_pools (bind m k).
Proof.
  intros Hm Hk st. unfold bind. specialize (Hm st).
  destruct (m st) as [[a|e] st1]; [|exact Hm].
  eapply same_pools_trans; [exact Hm|apply Hk].
Qed.

Lemma keeps_try {A} (m : M Sender A) (h : string → M Sender A) :
  keeps_pools m → (∀ e, keeps_pools (h e)) → keeps_pools (try_except m h).
Proof.
  intros Hm Hh st. unfold try_except. specialize (Hm st).
  destruct (m st) as [[a|e] st1]; [exact Hm|].
  eapply same_pools_trans; [exact Hm|apply Hh].
Qed.

Lemma keeps_for_each {A} (body : A → M Sender unit) l :
  (∀ a, keeps_pools (body a)) → keeps_pools (for_each body l).
Proof.
  intros Hb. induction l as [|a l IH]; cbn [for_each].
  - apply keeps_ret.
  - apply keeps_bind; [apply Hb|intros _; apply IH].
Qed.

Lemma keeps_get_next_sync_node : keeps_pools get_next_sync_node.
Proof.
  apply keeps_bind; [apply keeps_read_self|intros s].
  destruct (w3_instances s !! _); [|apply keeps_throw].
  apply keeps_bind; [|intros _; apply keeps_ret].
  apply keeps_update. intros s0. by repeat split.
Qed.

Lemma keeps_get_next_nonce addr : keeps_pools (get_next_nonce addr).
Proof.
  apply keeps_bind; [apply keeps_read_self|intros s].
  destruct (Nonces.get_next_nonce addr (account_nonces s)) as [n m].
  apply keeps_bind; [|intros _].
  { apply keeps_update. intros s0. by repeat split. }
  apply keeps_bind; [apply keeps_emit|intros _; apply keeps_ret].
Qed.

Lemma keeps_get_next_contract : keeps_pools get_next_contract.
Proof.
  apply keeps_bind; [apply keeps_read_self|intros s].
  destruct (contracts s !! "DataSpotting") as [cs|]; [|apply keeps_throw].
  destruct (cs !! _); [apply keeps_ret|apply keeps_throw].
Qed.

Lemma keeps_int_chain_id : keeps_pools int_chain_id.
Proof.
  apply keeps_bind; [apply keeps_read_self|intros s].
  destruct (chain_id s); [apply keeps_ret|apply keeps_throw].
Qed.

Lemma keeps_sign w3 tx key : keeps_pools (sign w3 tx key).
Proof.
  apply keeps_bind; [apply keeps_lift|intros raw].
  apply keeps_bind; [apply keeps_emit|intros _; apply keeps_ret].
Qed.

Lemma keeps_send w3 raw : keeps_pools (send w3 raw).
Proof.
  apply keeps_bind; [apply keeps_rpc|intros r].
  apply keeps_bind; [apply keeps_emit|intros _; apply keeps_lift].
Qed.

Lemma keeps_read_count w3 addr : keeps_pools (read_count w3 addr).
Proof.
  apply keeps_bind; [apply keeps_rpc|intros r].
  apply keeps_bind; [apply keeps_emit|intros _; apply keeps_lift].
Qed.

Lemma keeps_count_success : keeps_pools count_success.
Proof. apply keeps_update. intros s. by repeat split. Qed.

Lemma keeps_count_failure : keeps_pools count_failure.
Proof. apply keeps_update. intros s. by repeat split. Qed.

Lemma keeps_retry_loop raw max_retries attempts :
  keeps_pools (retry_loop raw max_retries attempts).
Proof.
  induction attempts as [|a rest IH]; cbn [retry_loop]; [apply keeps_ret|].
  apply keeps_try.
  - apply keeps_bind; [apply keeps_get_next_sync_node|intros w3].
    apply keeps_bind; [apply keeps_send|intros h].
    apply keeps_bind; [apply keeps_count_success|intros _; apply keeps_ret].
  - intros e. destruct (is_nonce_collision e); [|apply keeps_ret].
    by destruct (a <? max_retries - 1).
Qed.

Lemma keeps_submit account params max_retries :
  keeps_pools (submit_spotdata_transaction account params max_retries).
Proof.
  apply keeps_try.
  2:{ intros e. apply keeps_bind; [apply keeps_count_failure|intros _; apply keeps_ret]. }
  apply keeps_bind; [apply keeps_get_next_nonce|intros nonce].
  apply keeps_bind; [apply keeps_get_next_contract|intros contract].
  apply keeps_bind; [apply keeps_get_next_sync_node|intros w3].
  apply keeps_bind; [apply keeps_read_self|intros s].
  apply keeps_bind; [apply keeps_int_chain_id|intros chain].
  apply keeps_bind; [apply keeps_lift|intros tx].
  apply keeps_bind; [apply keeps_sign|intros raw].
  apply keeps_bind; [apply keeps_retry_loop|intros exit].
  destruct exit; [apply keeps_ret| |];
    (apply keeps_bind; [apply keeps_count_failure|intros _; apply keeps_ret]).
Qed.

Lemma keeps_realign_account account : keeps_pools (realign_account account).
Proof.
  apply keeps_try; [|intros e; apply keeps_ret].
  apply keeps_bind; [apply keeps_get_next_sync_node|intros w3].
  apply keeps_bind; [apply keeps_read_count|intros v].
  apply keeps_update. intros s. by repeat split.
Qed.

Lemma keeps_realign_all_nonces : keeps_pools realign_all_nonces.
Proof.
  apply keeps_bind; [apply keeps_read_self|intros s].
  apply keeps_bind; [apply keeps_for_each, keeps_realign_account|intros _].
  apply keeps_update. intros s0. by repeat split.
Qed.

Lemma count_events_app p tr1 tr2 :
  count_events p (tr1 ++ tr2) = (count_events p tr1 + count_events p tr2)%nat.
Proof. unfold count_events. by rewrite List.filter_app, length_app. Qed.

(** The retry loop reserves nothing, and counts a success exactly when a
    node accepted the bytes. *)
Lemma retry_loop_accepted raw max_retries attempts : ∀ st : St Sender,
  ∃ exit st' evs,
    retry_loop raw max_retries attempts st = (Return exit, st')
    ∧ trace st' = trace st ++ evs
    ∧ count_events is_reserve evs = 0%nat
    ∧ match exit with
      | Returned _ _ =>
          count_events is_accepted evs = 1%nat
          ∧ counted_success (self st) (self st')
      | Broke | Exhausted =>
          count_events is_accepted evs = 0%nat
          ∧ counters_kept (self st) (self st')
      end.
Proof.
  induction attempts as [|a rest IH]; intros st.
  - exists Exhausted, st, []. rewrite app_nil_r. by repeat split.
  - rewrite retry_loop_cons.
    destruct (w3_instances (self st) !! _) as [w3|].
    2:{ exists Broke, st, []. rewrite app_nil_r. by repeat split. }
    cbv zeta.
    destruct (send_raw_transaction (world st) w3 raw) as [w1 [h|e]].
    { eexists _, _, [EvSend w3 raw (Return h)].
      split; [reflexivity|]. split; [done|]. split; [done|].
      split; [done|]. by repeat split. }
    destruct (is_nonce_collision e).
    2:{ eexists Broke, _, [EvSend w3 raw (Raise e)].
        split; [reflexivity|]. split; [done|]. by repeat split. }
    destruct (IH (mkSt (advance_cursor (self st)) w1
                    (trace st ++ [EvSend w3 raw (Raise e)])))
      as (exit & st' & evs & Hrun & Htr & Hres & Hexit).
    exists exit, st', (EvSend w3 raw (Raise e) :: evs).
    split; [exact Hrun|]. split; [by rewrite Htr; cbn; rewrite <- app_assoc|].
    rewrite !count_events_cons. cbn [is_reserve is_accepted].
    split; [done|]. by destruct exit.
Qed.

(** One submission: one reservation, at most one accepted broadcast, and
    the counters move with them. *)
Lemma submit_effect account params max_retries (st : St Sender) :
  ∃ out st' evs,
    submit_spotdata_transaction account params max_retries st = (Return out, st')
    ∧ trace st' = trace st ++ evs
    ∧ count_events is_reserve evs = 1%nat
    ∧ (count_events is_accepted evs ≤ 1)%nat
    ∧ counters_follow evs (self st) (self st')
    ∧ same_pools (self st) (self st').
Proof.
  pose proof (keeps_submit account params max_retries st) as Hpools.
  destruct (submit_run account params max_retries st)
    as [(st' & Hrun & Htr & _ & Hc1 & Hc2 & Hc3)
       |(raw & st3 & exit & st4 & Htr3 & _ & (Hk1 & Hk2 & Hk3) & _ & _ & _ & Hloop & Hrun)].
  - rewrite Hrun in Hpools. eexists _, st', _. split; [exact Hrun|].
    split; [exact Htr|]. split; [done|]. split; [cbn; lia|]. split; [|done].
    unfold counters_follow. cbn. lia.
  - destruct (retry_loop_accepted raw max_retries (range max_retries) st3)
      as (exit' & st4' & evs & Hloop' & Htr4 & Hres & Hexit).
    rewrite Hloop in Hloop'. injection Hloop' as <- <-.
    rewrite Hrun in Hpools.
    assert (Hev : ∀ p, count_events p (EvReserve (address account)
                     (Nonces.nonce_of (account_nonces (self st)) (address account))
                     :: EvSign raw :: evs)
                   = ((if p (EvReserve (address account)
                     (Nonces.nonce_of (account_nonces (self st)) (address account)))
                       then 1 else 0)
                      + ((if p (EvSign raw) then 1 else 0) + count_events p evs))%nat).
    { intros p. by rewrite !count_events_cons. }
    destruct exit as [success tx_hash| |]; destruct Hexit as [Hacc Hc];
      eexists _, _, (EvReserve _ _ :: EvSign raw :: evs);
      (split; [exact Hrun|]);
      (split; [by cbn [trace failed_state]; rewrite Htr4, Htr3, <- app_assoc|]);
      rewrite !Hev, Hres, Hacc; cbn [is_reserve is_accepted];
      (split; [done|]); (split; [lia|]); (split; [|exact Hpools]);
      destruct Hc as (H1 & H2 & H3); unfold counters_follow;
      rewrite !Hev, Hres, Hacc; cbn in *; lia.
Qed.

(** A realignment reserves and broadcasts nothing and keeps the
    counters. *)
Lemma realign_accounts_effect l : ∀ st : St Sender,
  ∃ st' evs,
    for_each realign_account l st = (Return tt, st')
    ∧ trace st' = trace st ++ evs
    ∧ count_events is_reserve evs = 0%nat
    ∧ count_events is_accepted evs = 0%nat
    ∧ counters_kept (self st) (self st')
    ∧ nonce_realignments (self st') = nonce_realignments (self st).
Proof.
  induction l as [|a l IH]; intros st.
  - exists st, []. rewrite app_nil_r. by repeat split.
  - cbn [for_each]. unfold bind at 1. rewrite realign_account_run.
    destruct (w3_instances (self st) !! _) as [w3|]; [|apply IH].
    cbv zeta.
    destruct (get_transaction_count (world st) w3 (address a)) as [w1 response].
    set (st1 := mkSt _ _ _).
    destruct (IH st1) as (st' & evs & -> & Htr & Hres & Hacc & (H1 & H2 & H3) & Hre).
    exists st', (EvRead w3 (address a) response :: evs).
    split; [done|]. split; [by rewrite Htr; cbn; rewrite <- app_assoc|].
    rewrite !count_events_cons. cbn [is_reserve is_accepted].
    split; [done|]. split; [done|].
    subst st1. destruct response; cbn in *; repeat split; congruence.
Qed.

Lemma realign_all_effect (st : St Sender) :
  ∃ st' evs,
    realign_all_nonces st = (Return tt, st')
    ∧ trace st' = trace st ++ evs
    ∧ count_events is_reserve evs = 0%nat
    ∧ count_events is_accepted evs = 0%nat
    ∧ counters_kept (self st) (self st')
    ∧ nonce_realignments (self st') = nonce_realignments (self st) + 1
    ∧ same_pools (self st) (self st').
Proof.
  pose proof (keeps_realign_all_nonces st) as Hpools.
  destruct (realign_accounts_effect (accounts (self st)) st)
    as (st1 & evs & Hloop & Htr & Hres & Hacc & Hc & Hre).
  assert (Hrun : realign_all_nonces st
                 = (Return tt,
                    mkSt (set_nonce_realignments (nonce_realignments (self st1) + 1)
                            (self st1)) (world st1) (trace st1))).
  { unfold realign_all_nonces. unfold bind at 1, read_self at 1.
    unfold bind at 1. by rewrite Hloop. }
  rewrite Hrun in Hpools. eexists _, evs. split; [exact Hrun|].
  split; [done|]. split; [done|]. split; [done|].
  split; [exact Hc|]. split; [cbn; lia|done].
Qed.

End PoolFacts.

(** ** The main loop of sender.py *)
Section SenderLoopFacts.
Context `{Api : Web3Api}.
Local Open Scope engine_scope.

Lemma on_sender_run {A} (m : M Sender A) (st : St Runner) :
  on_sender m st
  = let '(r, st1) := m (mkSt (runner_sender (self st)) (world st) (trace st)) in
    (r, mkSt (set_runner_sender (self st1) (self st)) (world st1) (trace st1)).
Proof. reflexivity. Qed.

(** The realignment test either does nothing or realigns and remembers
    the count. *)
Lemma maybe_realign_cases (st : St Runner) :
  let count := submissions_count (runner_sender (self st)) in
  let due := (0 <? count) && (count `mod` NONCE_REALIGNMENT_ITERATIONS =? 0)
             && negb (count =? last_nonce_check (self st)) in
  (due = false ∧ maybe_realign st = (Return tt, st))
  ∨ (due = true
     ∧ ∃ st1 evs,
         realign_all_nonces
           (mkSt (runner_sender (self st)) (world st) (trace st))
         = (Return tt, st1)
         ∧ trace st1 = trace st ++ evs
         ∧ count_events is_reserve evs = 0%nat
         ∧ count_events is_accepted evs = 0%nat
         ∧ counters_kept (runner_sender (self st)) (self st1)
         ∧ nonce_realignments (self st1)
           = nonce_realignments (runner_sender (self st)) + 1
         ∧ same_pools (runner_sender (self st)) (self st1)
         ∧ maybe_realign st
           = (Return tt,
              mkSt (mkRunner (self st1) (submissions_count (self st1)))
                (world st1) (trace st1))).
Proof.
  intros count due. subst due.
  assert (Hm : maybe_realign st
    = if (0 <? count) && (count `mod` NONCE_REALIGNMENT_ITERATIONS =? 0)
      then if negb (count =? last_nonce_check (self st))
           then (on_sender realign_all_nonces >>
                 let* r := read_self in
                 update_self
                   (set_last_nonce_check (submissions_count (runner_sender r)))) st
           else (Return tt, st)
      else (Return tt, st)).
  { unfold maybe_realign. unfold bind at 1, read_self at 1. cbv beta zeta.
    fold count.
    destruct ((0 <? count) && (count `mod` NONCE_REALIGNMENT_ITERATIONS =? 0));
      [|done].
    by destruct (negb (count =? last_nonce_check (self st))). }
  rewrite Hm. clear Hm.
  destruct ((0 <? count) && (count `mod` NONCE_REALIGNMENT_ITERATIONS =? 0));
    [|by left].
  destruct (count =? last_nonce_check (self st)); [by left|].
  right. split; [done|]. cbn [negb].
  destruct (realign_all_effect
              (mkSt (runner_sender (self st)) (world st) (trace st)))
    as (st1 & evs & Hrun & Htr & Hres & Hacc & Hc & Hre & Hp).
  exists st1, evs. split; [exact Hrun|]. repeat (split; [done|]).
  unfold bind at 1. rewrite on_sender_run, Hrun. reflexivity.
Qed.

Lemma maybe_realign_run (st : St Runner) :
  ∃ st' evs,
    maybe_realign st = (Return tt, st')
    ∧ trace st' = trace st ++ evs
    ∧ count_events is_reserve evs = 0%nat
    ∧ count_events is_accepted evs = 0%nat
    ∧ counters_kept (runner_sender (self st)) (runner_sender (self st'))
    ∧ same_pools (runner_sender (self st)) (runner_sender (self st')).
Proof.
  destruct (maybe_realign_cases st)
    as [[_ Hrun]|(_ & st1 & evs & _ & Htr & Hres & Hacc & Hc & _ & Hp & Hrun)].
  - exists st, []. rewrite app_nil_r. split; [done|].
    by repeat split.
  - eexists _, evs. split; [exact Hrun|]. split; [exact Htr|].
    split; [done|]. split; [done|]. split; [exact Hc|exact Hp].
Qed.

(** One cycle of the loop, from a cursor inside the account list. *)
Lemma loop_cycle_run n (st : St Runner) :
  let s := runner_sender (self st) in
  let N := length (accounts s) in
  (current_account_index s < N)%nat →
  ∃ exit st' evs,
    loop_cycle n st = (Return exit, st')
    ∧ trace st' = trace st ++ evs
    ∧ accounts (runner_sender (self st')) = accounts s
    ∧ sync_nodes (runner_sender (self st')) = sync_nodes s
    ∧ counters_follow evs s (runner_sender (self st'))
    ∧ current_account_index (runner_sender (self st'))
      = ((current_account_index s + count_events is_reserve evs) `mod` N)%nat
    ∧ (count_events is_accepted evs ≤ 1)%nat
    ∧ match exit with
      | Some TargetReached =>
          has_target n = true ∧ default 0 n ≤ submissions_count s ∧ evs = []
      | Some _ => False
      | None =>
          (has_target n = true → submissions_count s < default 0 n)
          ∧ count_events is_reserve evs = 1%nat
      end.
Proof.
  intros s N Hc. unfold loop_cycle. unfold bind at 1, read_self at 1.
  fold s.
  destruct (has_target n) eqn:Ht; cbn [andb].
  1: destruct (Z.leb_spec (default 0 n) (submissions_count s)) as [Hle|Hlt].
  1:{ exists (Some TargetReached), st, []. rewrite app_nil_r.
      split; [done|]. split; [done|]. split; [done|]. split; [done|].
      split; [unfold counters_follow; cbn; fold s; lia|].
      split; [cbn; by rewrite Nat.add_0_r, Nat.mod_small|].
      split; [cbn; lia|done]. }
  all: destruct (maybe_realign_run st)
         as (st1 & evs1 & Hre & Htr1 & Hres1 & Hacc1 & (Hk1 & Hk2 & Hk3)
             & (Hp1 & Hp2 & Hp3)).
  all: unfold bind at 1; rewrite Hre.
  all: unfold bind at 1; rewrite on_sender_run, get_next_account_run.
  all: cbn [self]; rewrite Hp1, Hp3; fold s.
  all: destruct (accounts s !! current_account_index s) as [account|] eqn:Ha;
         [|apply lookup_ge_None in Ha; fold N in Ha; lia].
  all: unfold bind at 1; rewrite on_sender_run; cbn [self world trace].
  all: match goal with
       | |- context [submit_spotdata_transaction ?a ?p ?r ?x] =>
           destruct (submit_effect a p r x)
             as (out & st2 & evs2 & Hsub & Htr2 & Hres2 & Hacc2
                 & (Hf1 & Hf2 & Hf3) & (Hq1 & Hq2 & Hq3));
           rewrite Hsub
       end.
  all: cbn in Htr2, Hf1, Hf2, Hf3, Hq1, Hq2, Hq3.
  all: fold s in Hp1, Hp2, Hp3, Hk1, Hk2, Hk3; fold N in Hq3.
  all: rewrite Hres2 in Hf3.
  all: exists None; eexists _, (evs1 ++ evs2).
  all: split; [reflexivity|].
  all: cbn [self trace runner_sender set_runner_sender].
  all: split; [by rewrite Htr2, Htr1, <- app_assoc|].
  all: split; [by rewrite Hq1, Hp1|]; split; [by rewrite Hq2, Hp2|].
  all: rewrite !count_events_app, Hres1, Hacc1, Hres2; cbn [Nat.add].
  all: split; [unfold counters_follow;
               rewrite !count_events_app, Hres1, Hacc1, Hres2; cbn [Nat.add];
               lia|].
  all: split; [exact Hq3|]; split; [done|].
  all: split; [|done].
  - intros _. done.
  - intros [=].
Qed.

(** The loop over [cycles] cycles: it never overshoots the target, ends
    only on the target, and reserves once per cycle. *)
Lemma loop_cycles_run cycles n : ∀ st : St Runner,
  let s := runner_sender (self st) in
  let N := length (accounts s) in
  (current_account_index s < N)%nat →
  ∃ out st' evs,
    loop_cycles cycles n st = (Return out, st')
    ∧ trace st' = trace st ++ evs
    ∧ accounts (runner_sender (self st')) = accounts s
    ∧ sync_nodes (runner_sender (self st')) = sync_nodes s
    ∧ counters_follow evs s (runner_sender (self st'))
    ∧ current_account_index (runner_sender (self st'))
      = ((current_account_index s + count_events is_reserve evs) `mod` N)%nat
    ∧ (count_events is_reserve evs ≤ cycles)%nat
    ∧ (has_target n = true → submissions_count s ≤ default 0 n →
       submissions_count (runner_sender (self st')) ≤ default 0 n)
    ∧ match out with
      | TargetReached =>
          has_target n = true
          ∧ default 0 n ≤ submissions_count (runner_sender (self st'))
      | StillRunning => count_events is_reserve evs = cycles
      | _ => False
      end.
Proof.
  induction cycles as [|cycles IH]; intros st s N Hc.
  - exists StillRunning, st, []. rewrite app_nil_r.
    split; [done|]. split; [done|]. split; [done|]. split; [done|].
    split; [unfold counters_follow; cbn; fold s; lia|].
    split; [cbn; by rewrite Nat.add_0_r, Nat.mod_small|].
    split; [cbn; lia|]. split; [done|done].
  - cbn [loop_cycles]. unfold bind at 1.
    destruct (loop_cycle_run n st Hc)
      as (exit & st1 & evs1 & Hrun & Htr1 & Ha1 & Hn1 & (Hf1 & Hf2 & Hf3)
          & Hcur1 & Hacc1 & Hexit).
    fold s N in Ha1, Hn1, Hf1, Hf2, Hf3, Hcur1.
    fold s in Hexit. rewrite Hrun. destruct exit as [[| | |]|]; try done.
    + destruct Hexit as (Ht & Hle & ->).
      exists TargetReached, st1, []. rewrite app_nil_r in *.
      split; [done|]. split; [done|]. split; [done|]. split; [done|].
      split; [done|]. split; [done|]. split; [cbn; lia|].
      cbn in Hf1. split; [intros; lia|]. split; [done|lia].
    + destruct Hexit as (Hlt & Hres1).
      destruct (IH st1) as (out & st2 & evs2 & Hrun2 & Htr2 & Ha2 & Hn2
                            & (Hg1 & Hg2 & Hg3) & Hcur2 & Hlen2 & Hinv2 & Hout).
      { rewrite Ha1, Hcur1. fold N. apply Nat.mod_upper_bound. lia. }
      exists out, st2, (evs1 ++ evs2). split; [exact Hrun2|].
      split; [by rewrite Htr2, Htr1, <- app_assoc|].
      split; [congruence|]. split; [congruence|].
      rewrite !count_events_app.
      split; [unfold counters_follow; rewrite !count_events_app; lia|].
      split.
      { rewrite Hcur2, Ha1, Hcur1. fold N.
        rewrite Nat.Div0.add_mod_idemp_l. f_equal. lia. }
      split; [lia|]. split.
      { intros Ht Hle. apply Hinv2; [done|]. specialize (Hlt Ht). lia. }
      destruct out; try done. lia.
Qed.

Lemma realign_all_nonces_no_accounts (st : St Sender) :
  accounts (self st) = [] →
  realign_all_nonces st
  = (Return tt,
     mkSt (set_nonce_realignments (nonce_realignments (self st) + 1) (self st))
       (world st) (trace st)).
Proof.
  intros Hacc. unfold realign_all_nonces. unfold bind at 1, read_self at 1.
  rewrite Hacc. reflexivity.
Qed.

Lemma loop_without_accounts_run cycles n (st : St Runner) :
  let s := runner_sender (self st) in
  accounts s = [] →
  (has_target n = true → submissions_count s < default 0 n) →
  ∃ st',
    run_high_speed_loop (S cycles) n st
    = (Return (Crashed "list index out of range"), st')
    ∧ trace st' = trace st
    ∧ counters_kept s (runner_sender (self st'))
    ∧ account_nonces (runner_sender (self st')) = account_nonces s.
Proof.
  intros s Hacc Hn.
  unfold run_high_speed_loop, try_except. cbn [loop_cycles].
  unfold bind at 1. unfold loop_cycle. unfold bind at 1, read_self at 1.
  fold s.
  assert (Hgo : has_target n && (default 0 n <=? submissions_count s) = false).
  { destruct (has_target n); [|done]. cbn. apply Z.leb_gt. by apply Hn. }
  rewrite Hgo. unfold bind at 1.
  destruct (maybe_realign_cases st)
    as [[_ Hrun]|(_ & st1 & evs & Hre & _ & _ & _ & _ & _ & _ & Hrun)].
  - rewrite Hrun. unfold bind at 1.
    rewrite on_sender_run, get_next_account_run. cbn [self]. fold s.
    rewrite Hacc. cbn. eexists. split; [reflexivity|]. by repeat split.
  - rewrite realign_all_nonces_no_accounts in Hre by done.
    injection Hre as <-.
    rewrite Hrun. unfold bind at 1.
    rewrite on_sender_run, get_next_account_run. cbn.
    fold s. rewrite Hacc. cbn. eexists. split; [reflexivity|]. by repeat split.
Qed.

End SenderLoopFacts.

(** X6: [run_high_speed_loop] with a target stops exactly at it. From a
    count not above the target [n], and a cursor inside the account list,
    the loop does not raise and never overshoots: it either ended on the
    target, with [submissions_count = n], or is still running after one
    reservation per cycle. In both cases the count grew by the number of
    broadcasts the nodes accepted, and a loop still running has spent its
    cycles on the accepted and the failed items. *)
Theorem loop_stops_exactly_at_target `{Api : Web3Api} (cycles : nat) (n : Z)
    (st : St Runner) :
  let run := run_high_speed_loop cycles (Some n) st in
  let s := runner_sender (self st) in
  let s' := runner_sender (self run.2) in
  let evs := new_events st run.2 in
  let accepted := Z.of_nat (count_events is_accepted evs) in
  (current_account_index s < length (accounts s))%nat →
  n ≠ 0 →
  submissions_count s ≤ n →
  submissions_count s' = submissions_count s + accepted
  ∧ successful_submissions s' = successful_submissions s + accepted
  ∧ ((run.1 = Return TargetReached
      ∧ submissions_count s' = n
      ∧ accepted = n - submissions_count s)
     ∨ (run.1 = Return StillRunning
        ∧ submissions_count s' ≤ n
        ∧ Z.of_nat cycles
          = accepted + (failed_submissions s' - failed_submissions s))).
Proof.
  intros run s s' evs accepted Hc Hn Hle. subst run s' evs accepted.
  unfold run_high_speed_loop, try_except.
  destruct (loop_cycles_run cycles (Some n) st Hc)
    as (out & st' & evs & -> & Htr & _ & _ & (Hf1 & Hf2 & Hf3) & _ & _ & Hinv & Hout).
  cbn [fst snd]. rewrite (new_events_app _ _ _ Htr). fold s in Hf1, Hf2, Hf3, Hinv.
  assert (Ht : has_target (Some n) = true).
  { cbn. by destruct (Z.eqb_spec n 0). }
  specialize (Hinv Ht Hle). cbn in Hinv.
  split; [done|]. split; [done|].
  destruct out; try done.
  - left. destruct Hout as [_ Hge]. cbn in Hge. split; [done|]. lia.
  - right. split; [done|]. split; [done|]. lia.
Qed.

Lemma loop_stops_exactly_at_target_witness :
  let st := Scenario.start (mkRunner Scenario.two_nodes 0) [Scenario.rejection] in
  let run := run_high_speed_loop 5 (Some 2) st in
  let s' := runner_sender (self run.2) in
  let accepted := Z.of_nat (count_events is_accepted (new_events st run.2)) in
  (run.1 = Return TargetReached ∧ failed_submissions s' = 1)
  ∧ submissions_count s' = 0 + accepted
  ∧ successful_submissions s' = 0 + accepted.
Proof.
  intros st run s' accepted. split; [by vm_compute|].
  pose proof (loop_stops_exactly_at_target (Api := Scenario.healthy) 5 2 st)
    as H.
  destruct H as (H1 & H2 & _); [vm_compute; lia|done|done|].
  by split.
Defined.

(** X7: without a target the loop of sender.py never ends by itself, and
    0 counts as no target: with [num_transactions] absent or 0, from a
    cursor inside the account list, every cycle makes one reservation and
    after any number of cycles the loop is still running, the account
    cursor moved on by one per cycle. *)
Theorem loop_without_target_keeps_running `{Api : Web3Api} (cycles : nat)
    (num_transactions : option Z) (st : St Runner) :
  let run := run_high_speed_loop cycles num_transactions st in
  let s := runner_sender (self st) in
  let s' := runner_sender (self run.2) in
  let evs := new_events st run.2 in
  (current_account_index s < length (accounts s))%nat →
  num_transactions = None ∨ num_transactions = Some 0 →
  run.1 = Return StillRunning
  ∧ count_events is_reserve evs = cycles
  ∧ current_account_index s'
    = ((current_account_index s + cycles) `mod` length (accounts s))%nat
  ∧ failed_submissions s' + (submissions_count s' - submissions_count s)
    = failed_submissions s + Z.of_nat cycles.
Proof.
  intros run s s' evs Hc Hn. subst run s' evs.
  unfold run_high_speed_loop, try_except.
  destruct (loop_cycles_run cycles num_transactions st Hc)
    as (out & st' & evs & -> & Htr & _ & _ & (Hf1 & Hf2 & Hf3) & Hcur & _ & _ & Hout).
  cbn [fst snd]. rewrite (new_events_app _ _ _ Htr). fold s in Hf1, Hf2, Hf3, Hcur.
  destruct out; try done.
  - destruct Hout as [Ht _]. by destruct Hn as [-> | ->].
  - rewrite Hout in *. split; [done|]. split; [done|]. split; [done|]. lia.
Qed.

Lemma loop_without_target_keeps_running_witness :
  let st := Scenario.start (mkRunner Scenario.two_nodes 0) [] in
  let run := run_high_speed_loop 4 (Some 0) st in
  run.1 = Return StillRunning
  ∧ count_events is_reserve (new_events st run.2) = 4%nat
  ∧ current_account_index (runner_sender (self run.2)) = ((0 + 4) `mod` 3)%nat
  ∧ failed_submissions (runner_sender (self run.2))
    + (submissions_count (runner_sender (self run.2)) - 0)
    = 0 + Z.of_nat 4.
Proof.
  apply (loop_without_target_keeps_running (Api := Scenario.healthy) 4 (Some 0)
           (Scenario.start (mkRunner Scenario.two_nodes 0) [])).
  - vm_compute. lia.
  - by right.
Defined.

(** X8: with no account loaded the loop of sender.py ends in its first
    cycle: the subscript of [get_next_account] raises, the handler around
    the loop catches it, and nothing was reserved, signed, sent or
    counted. The target, if any, is not yet reached. *)
Theorem loop_without_accounts_ends_at_once `{Api : Web3Api} (cycles : nat)
    (num_transactions : option Z) (st : St Runner) :
  let run := run_high_speed_loop (S cycles) num_transactions st in
  let s := runner_sender (self st) in
  let s' := runner_sender (self run.2) in
  accounts s = [] →
  (has_target num_transactions = true →
   submissions_count s < default 0 num_transactions) →
  run.1 = Return (Crashed "list index out of range")
  ∧ new_events st run.2 = []
  ∧ counters_kept s s'
  ∧ account_nonces s' = account_nonces s.
Proof.
  intros run s s' Hacc Hn. subst run s'.
  destruct (loop_without_accounts_run cycles num_transactions st Hacc Hn)
    as (st' & -> & Htr & Hc & Hnonces).
  cbn [fst snd]. split; [done|]. split; [|done].
  apply new_events_app. by rewrite app_nil_r.
Qed.

Lemma loop_without_accounts_ends_at_once_witness :
  let st := Scenario.start
              (mkRunner (init_sender ["https://node-a"] (Some 1) []) 0) [] in
  let run := run_high_speed_loop 3 (Some 10) st in
  run.1 = Return (Crashed "list index out of range")
  ∧ new_events st run.2 = []
  ∧ counters_kept (runner_sender (self st)) (runner_sender (self run.2))
  ∧ account_nonces (runner_sender (self run.2))
    = account_nonces (runner_sender (self st)).
Proof.
  apply (loop_without_accounts_ends_at_once (Api := Scenario.healthy) 2 (Some 10)
           (Scenario.start
              (mkRunner (init_sender ["https://node-a"] (Some 1) []) 0) [])).
  - reflexivity.
  - intros _. by vm_compute.
Defined.

(** X9: the realignment of the loop is made once per count: it is due
    when [submissions_count] is a positive multiple of 10000 that differs
    from [last_nonce_check]; then one realignment is counted and the
    count remembered, so that the test of the next cycle, at the same
    count after an item that failed, makes none. At count 0 none is
    made. *)
Theorem realignment_is_made_once_per_count `{Api : Web3Api} (st : St Runner) :
  let count := submissions_count (runner_sender (self st)) in
  let due := (0 <? count) && (count `mod` NONCE_REALIGNMENT_ITERATIONS =? 0)
             && negb (count =? last_nonce_check (self st)) in
  let st1 := (maybe_realign st).2 in
  (maybe_realign st).1 = Return tt
  ∧ maybe_realign st1 = (Return tt, st1)
  ∧ nonce_realignments (runner_sender (self st1))
    = nonce_realignments (runner_sender (self st)) + (if due then 1 else 0)
  ∧ (if due then last_nonce_check (self st1) = count else st1 = st)
  ∧ (count = 0 → st1 = st).
Proof.
  intros count due st1. subst st1.
  destruct (maybe_realign_cases st)
    as [[Hdue Hrun]
       |(Hdue & st1 & evs & _ & _ & _ & _ & (Hk1 & _) & Hre & _ & Hrun)];
    fold count in Hdue; fold due in Hdue; rewrite Hdue, Hrun; cbn [fst snd].
  - split; [done|]. split; [done|]. split; [lia|]. by split.
  - fold count in Hk1. split; [done|]. split; [|split; [done|split; [done|]]].
    + destruct (maybe_realign_cases
                  (mkSt (mkRunner (self st1) (submissions_count (self st1)))
                     (world st1) (trace st1)))
        as [[_ Hrun2]|(Hdue2 & _)]; [done|].
      cbn in Hdue2. rewrite Z.eqb_refl in Hdue2.
      by rewrite andb_false_r in Hdue2.
    + intros H0. subst due. rewrite H0 in Hdue. done.
Qed.

(** ** The queue-driven loop of transactioneer_with_queue.py *)
Section QueueLoopFacts.
Context `{Api : Web3Api}.
Local Open Scope engine_scope.

Lemma on_base_run {A} (m : M Sender A) (st : St QueueRunner) :
  on_base m st
  = let '(r, st1) := m (mkSt (runner_base (self st)) (world st) (trace st)) in
    (r, mkSt (set_runner_base (self st1) (self st)) (world st1) (trace st1)).
Proof. reflexivity. Qed.

(** The realignment test leaves the queue and the flag alone. *)
Lemma queue_maybe_realign_run (st : St QueueRunner) :
  ∃ st' evs,
    queue_maybe_realign st = (Return tt, st')
    ∧ trace st' = trace st ++ evs
    ∧ count_events is_reserve evs = 0%nat
    ∧ count_events is_accepted evs = 0%nat
    ∧ counters_kept (runner_base (self st)) (runner_base (self st'))
    ∧ same_pools (runner_base (self st)) (runner_base (self st'))
    ∧ transaction_queue (queue_sender (self st'))
      = transaction_queue (queue_sender (self st))
    ∧ queue_empty_timeout (queue_sender (self st'))
      = queue_empty_timeout (queue_sender (self st))
    ∧ running (queue_sender (self st')) = running (queue_sender (self st)).
Proof.
  set (count := submissions_count (runner_base (self st))).
  assert (Hm : queue_maybe_realign st
    = if (0 <? count) && (count `mod` NONCE_REALIGNMENT_ITERATIONS =? 0)
      then if negb (count =? queue_last_nonce_check (self st))
           then (on_base realign_all_nonces >>
                 let* r := read_self in
                 update_self
                   (set_queue_last_nonce_check
                      (submissions_count (runner_base r)))) st
           else (Return tt, st)
      else (Return tt, st)).
  { unfold queue_maybe_realign. unfold bind at 1, read_self at 1.
    cbv beta zeta. fold count.
    destruct ((0 <? count) && (count `mod` NONCE_REALIGNMENT_ITERATIONS =? 0));
      [|done].
    by destruct (negb (count =? queue_last_nonce_check (self st))). }
  rewrite Hm. clear Hm.
  assert (Hnone : ∃ st' evs,
    (Return tt, st) = (Return tt, st')
    ∧ trace st' = trace st ++ evs
    ∧ count_events is_reserve evs = 0%nat
    ∧ count_events is_accepted evs = 0%nat
    ∧ counters_kept (runner_base (self st)) (runner_base (self st'))
    ∧ same_pools (runner_base (self st)) (runner_base (self st'))
    ∧ transaction_queue (queue_sender (self st'))
      = transaction_queue (queue_sender (self st))
    ∧ queue_empty_timeout (queue_sender (self st'))
      = queue_empty_timeout (queue_sender (self st))
    ∧ running (queue_sender (self st')) = running (queue_sender (self st))).
  { exists st, []. rewrite app_nil_r. split; [done|]. by repeat split. }
  destruct ((0 <? count) && (count `mod` NONCE_REALIGNMENT_ITERATIONS =? 0));
    [|exact Hnone].
  destruct (count =? queue_last_nonce_check (self st)); [exact Hnone|].
  clear Hnone. cbn [negb].
  destruct (realign_all_effect
              (mkSt (runner_base (self st)) (world st) (trace st)))
    as (st1 & evs & Hrun & Htr & Hres & Hacc & Hc & Hre & Hp).
  unfold bind at 1. rewrite on_base_run, Hrun.
  eexists _, evs. split; [reflexivity|]. cbn.
  split; [exact Htr|]. split; [done|]. split; [done|].
  split; [exact Hc|]. split; [exact Hp|]. done.
Qed.

(** One cycle of the queue-driven loop, from a cursor inside the account
    list and a timeout that [get] accepts. *)
Lemma queue_loop_cycle_run stop_requested n (st : St QueueRunner) :
  let qs := queue_sender (self st) in
  let s := base qs in
  let N := length (accounts s) in
  (current_account_index s < N)%nat →
  0 ≤ queue_empty_timeout qs →
  ∃ exit st' evs,
    queue_loop_cycle stop_requested n st = (Return exit, st')
    ∧ trace st' = trace st ++ evs
    ∧ accounts (runner_base (self st')) = accounts s
    ∧ sync_nodes (runner_base (self st')) = sync_nodes s
    ∧ counters_follow evs s (runner_base (self st'))
    ∧ current_account_index (runner_base (self st'))
      = ((current_account_index s + count_events is_reserve evs) `mod` N)%nat
    ∧ (count_events is_accepted evs ≤ 1)%nat
    ∧ queue_empty_timeout (queue_sender (self st')) = queue_empty_timeout qs
    ∧ PyQueue.maxsize (transaction_queue (queue_sender (self st')))
      = PyQueue.maxsize (transaction_queue qs)
    ∧ PyQueue.queue (transaction_queue (queue_sender (self st')))
      = drop (count_events is_reserve evs) (PyQueue.queue (transaction_queue qs))
    ∧ running (queue_sender (self st')) = running qs && negb stop_requested
    ∧ match exit with
      | Some Stopped => running (queue_sender (self st')) = false ∧ evs = []
      | Some TargetReached =>
          running (queue_sender (self st')) = true
          ∧ has_target n = true ∧ default 0 n ≤ submissions_count s ∧ evs = []
      | Some _ => False
      | None =>
          running (queue_sender (self st')) = true
          ∧ (has_target n = true → submissions_count s < default 0 n)
          ∧ count_events is_reserve evs
            = (if PyQueue.queue (transaction_queue qs) is [] then 0 else 1)%nat
      end.
Proof.
  intros qs s N Hc Htime. unfold queue_loop_cycle.
  set (st0 := if stop_requested
              then mkSt (stop (self st)) (world st) (trace st) else st).
  assert (H0 : ((if stop_requested then update_self stop else ret tt) st
                = (Return tt, st0))).
  { subst st0. destruct stop_requested; reflexivity. }
  unfold bind at 1. rewrite H0. unfold bind at 1, read_self at 1.
  assert (Hb0 : runner_base (self st0) = s).
  { subst st0. destruct stop_requested; reflexivity. }
  assert (Hq0 : transaction_queue (queue_sender (self st0)) = transaction_queue qs).
  { subst st0. destruct stop_requested; reflexivity. }
  assert (Ht0 : queue_empty_timeout (queue_sender (self st0))
                = queue_empty_timeout qs).
  { subst st0. destruct stop_requested; reflexivity. }
  assert (Hr0 : running (queue_sender (self st0))
                = running qs && negb stop_requested).
  { subst st0. destruct stop_requested; cbn; [by rewrite andb_false_r|].
    by rewrite andb_true_r. }
  assert (Htr0 : trace st0 = trace st).
  { subst st0. by destruct stop_requested. }
  clearbody st0. clear H0.
  assert (Hidle : ∀ exit,
    match exit with
    | Some Stopped => running (queue_sender (self st0)) = false
    | Some TargetReached =>
        running (queue_sender (self st0)) = true
        ∧ has_target n = true ∧ default 0 n ≤ submissions_count s
    | _ => False
    end →
    ∃ st' evs,
      (Return exit, st0) = (Return exit, st')
      ∧ trace st' = trace st ++ evs
      ∧ accounts (runner_base (self st')) = accounts s
      ∧ sync_nodes (runner_base (self st')) = sync_nodes s
      ∧ counters_follow evs s (runner_base (self st'))
      ∧ current_account_index (runner_base (self st'))
        = ((current_account_index s + count_events is_reserve evs) `mod` N)%nat
      ∧ (count_events is_accepted evs ≤ 1)%nat
      ∧ queue_empty_timeout (queue_sender (self st')) = queue_empty_timeout qs
      ∧ PyQueue.maxsize (transaction_queue (queue_sender (self st')))
        = PyQueue.maxsize (transaction_queue qs)
      ∧ PyQueue.queue (transaction_queue (queue_sender (self st')))
        = drop (count_events is_reserve evs)
            (PyQueue.queue (transaction_queue qs))
      ∧ running (queue_sender (self st')) = running qs && negb stop_requested
      ∧ match exit with
        | Some Stopped => running (queue_sender (self st')) = false ∧ evs = []
        | Some TargetReached =>
            running (queue_sender (self st')) = true
            ∧ has_target n = true ∧ default 0 n ≤ submissions_count s ∧ evs = []
        | Some _ => False
        | None =>
            running (queue_sender (self st')) = true
            ∧ (has_target n = true → submissions_count s < default 0 n)
            ∧ count_events is_reserve evs
              = (if PyQueue.queue (transaction_queue qs) is [] then 0 else 1)%nat
        end).
  { intros exit Hexit. exists st0, []. rewrite app_nil_r, Hb0, Hq0.
    split; [done|]. split; [done|]. split; [done|]. split; [done|].
    split; [unfold counters_follow; cbn; lia|].
    split; [cbn; by rewrite Nat.add_0_r, Nat.mod_small|].
    split; [cbn; lia|]. split; [done|]. split; [done|]. split; [done|].
    split; [done|]. destruct exit as [[| | |]|]; try done.
    destruct Hexit as (? & ? & ?). done. }
  destruct (running (queue_sender (self st0))) eqn:Hrun; cbn [negb].
  2:{ destruct (Hidle (Some Stopped)) as (st' & evs & H); [done|].
      by exists (Some Stopped), st', evs. }
  rewrite Hb0.
  destruct (has_target n && (default 0 n <=? submissions_count s)) eqn:Hgo.
  { apply andb_prop in Hgo as [Ht Hle]. apply Z.leb_le in Hle.
    destruct (Hidle (Some TargetReached)) as (st' & evs & H); [done|].
    by exists (Some TargetReached), st', evs. }
  assert (Hlt : has_target n = true → submissions_count s < default 0 n).
  { intros Ht. rewrite Ht in Hgo. cbn in Hgo. by apply Z.leb_gt. }
  clear Hidle.
  destruct (queue_maybe_realign_run st0)
    as (st1 & evs1 & Hre & Htr1 & Hres1 & Hacc1 & (Hk1 & Hk2 & Hk3)
        & (Hp1 & Hp2 & Hp3) & Hq1 & Ht1 & Hr1).
  rewrite Hb0 in Hk1, Hk2, Hk3, Hp1, Hp2, Hp3.
  rewrite Hq0 in Hq1. rewrite Ht0 in Ht1. rewrite Hrun in Hr1.
  unfold bind at 1. rewrite Hre. unfold bind at 1, read_self at 1.
  cbv zeta. rewrite Hq1, Ht1.
  unfold PyQueue.get. cbn [negb].
  destruct (Z.ltb_spec (queue_empty_timeout qs) 0) as [Hneg|_]; [lia|].
  destruct (PyQueue.queue (transaction_queue qs)) as [|item rest] eqn:Hqueue.
  { cbn [String.eqb Ascii.eqb Bool.eqb]. cbn.
    exists None, st1, evs1. split; [done|].
    split; [by rewrite Htr1, Htr0|]. split; [done|]. split; [done|].
    rewrite Hres1, Hacc1.
    split; [unfold counters_follow; rewrite Hres1, Hacc1; lia|].
    split; [by rewrite Hp3, Nat.add_0_r, Nat.mod_small|].
    split; [lia|]. split; [done|]. split; [by rewrite Hq1|].
    split; [by rewrite Hq1, Hqueue|]. split; [by rewrite Hr1, <- Hr0|].
    done. }
  unfold bind at 1. unfold update_self at 1.
  unfold bind at 1. rewrite on_base_run, get_next_account_run.
  cbn [self world trace runner_base queue_sender set_queue_sender base
       set_transaction_queue].
  change (base (queue_sender (self st1))) with (runner_base (self st1)).
  rewrite Hp1, Hp3.
  destruct (accounts s !! current_account_index s) as [account|] eqn:Ha;
    [|apply lookup_ge_None in Ha; fold N in Ha; lia].
  unfold bind at 1. rewrite on_base_run. cbn [self world trace].
  match goal with
  | |- context [submit_spotdata_transaction ?a ?p ?r ?x] =>
      destruct (submit_effect a p r x)
        as (out & st2 & evs2 & Hsub & Htr2 & Hres2 & Hacc2
            & (Hf1 & Hf2 & Hf3) & (Hs1 & Hs2 & Hs3));
      rewrite Hsub
  end.
  cbn in Htr2, Hf1, Hf2, Hf3, Hs1, Hs2, Hs3.
  change (base (queue_sender (self st1))) with (runner_base (self st1))
    in Hf1, Hf2, Hf3, Hs1, Hs2, Hs3.
  fold N in Hs3. rewrite Hres2 in Hf3.
  exists None. eexists _, (evs1 ++ evs2). split; [reflexivity|].
  cbn. split; [by rewrite Htr2, Htr1, Htr0, <- app_assoc|].
  split; [by rewrite Hs1, Hp1|]. split; [by rewrite Hs2, Hp2|].
  rewrite !count_events_app, Hres1, Hacc1, Hres2. cbn [Nat.add].
  split; [unfold counters_follow;
          rewrite !count_events_app, Hres1, Hacc1, Hres2; cbn [Nat.add]; lia|].
  split; [exact Hs3|]. split; [done|]. split; [done|]. split; [done|].
  split; [done|]. split; [by rewrite Hr1, <- Hr0|]. done.
Qed.

(** The loop over the cycles of [stops]. *)
Lemma queue_loop_cycles_run stops n : ∀ st : St QueueRunner,
  let qs := queue_sender (self st) in
  let s := base qs in
  let N := length (accounts s) in
  (current_account_index s < N)%nat →
  0 ≤ queue_empty_timeout qs →
  ∃ out st' evs,
    queue_loop_cycles stops n st = (Return out, st')
    ∧ trace st' = trace st ++ evs
    ∧ accounts (runner_base (self st')) = accounts s
    ∧ counters_follow evs s (runner_base (self st'))
    ∧ current_account_index (runner_base (self st'))
      = ((current_account_index s + count_events is_reserve evs) `mod` N)%nat
    ∧ PyQueue.maxsize (transaction_queue (queue_sender (self st')))
      = PyQueue.maxsize (transaction_queue qs)
    ∧ PyQueue.queue (transaction_queue (queue_sender (self st')))
      = drop (count_events is_reserve evs) (PyQueue.queue (transaction_queue qs))
    ∧ (count_events is_reserve evs ≤ length stops)%nat
    ∧ (has_target n = true → submissions_count s ≤ default 0 n →
       submissions_count (runner_base (self st')) ≤ default 0 n)
    ∧ (∀ k, stops !! k = Some true →
         out ≠ StillRunning ∧ (count_events is_reserve evs ≤ k)%nat)
    ∧ match out with
      | Stopped =>
          running (queue_sender (self st')) = false
          ∧ (running qs = false ∨ ∃ k, stops !! k = Some true)
      | TargetReached =>
          has_target n = true
          ∧ default 0 n ≤ submissions_count (runner_base (self st'))
      | StillRunning =>
          count_events is_reserve evs
          = (length stops `min` length (PyQueue.queue (transaction_queue qs)))%nat
      | Crashed _ => False
      end.
Proof.
  induction stops as [|stop_requested stops IH]; intros st qs s N Hc Htime.
  - exists StillRunning, st, []. rewrite app_nil_r.
    change (runner_base (self st)) with s.
    split; [done|]. split; [done|]. split; [done|].
    split; [unfold counters_follow; cbn; lia|].
    split; [cbn; by rewrite Nat.add_0_r, Nat.mod_small|].
    split; [done|]. split; [done|]. split; [cbn; lia|]. split; [done|].
    split; [intros k Hk; by rewrite lookup_nil in Hk|]. done.
  - cbn [queue_loop_cycles]. unfold bind at 1.
    destruct (queue_loop_cycle_run stop_requested n st Hc Htime)
      as (exit & st1 & evs1 & Hrun & Htr1 & Ha1 & _ & (Hf1 & Hf2 & Hf3)
          & Hcur1 & Hacc1 & Ht1 & Hm1 & Hq1 & Hr1 & Hexit).
    fold qs s N in Ha1, Hf1, Hf2, Hf3, Hcur1, Ht1, Hm1, Hq1, Hr1, Hexit.
    rewrite Hrun.
    assert (Hend : ∀ out,
      evs1 = [] →
      match out with
      | Stopped =>
          running (queue_sender (self st1)) = false
          ∧ (running qs = false ∨ ∃ k, (stop_requested :: stops) !! k = Some true)
      | TargetReached =>
          has_target n = true
          ∧ default 0 n ≤ submissions_count (runner_base (self st1))
      | _ => False
      end →
      ∃ st' evs,
        (Return out, st1) = (Return out, st')
        ∧ trace st' = trace st ++ evs
        ∧ accounts (runner_base (self st')) = accounts s
        ∧ counters_follow evs s (runner_base (self st'))
        ∧ current_account_index (runner_base (self st'))
          = ((current_account_index s + count_events is_reserve evs) `mod` N)%nat
        ∧ PyQueue.maxsize (transaction_queue (queue_sender (self st')))
          = PyQueue.maxsize (transaction_queue qs)
        ∧ PyQueue.queue (transaction_queue (queue_sender (self st')))
          = drop (count_events is_reserve evs)
              (PyQueue.queue (transaction_queue qs))
        ∧ (count_events is_reserve evs ≤ length (stop_requested :: stops))%nat
        ∧ (has_target n = true → submissions_count s ≤ default 0 n →
           submissions_count (runner_base (self st')) ≤ default 0 n)
        ∧ (∀ k, (stop_requested :: stops) !! k = Some true →
             out ≠ StillRunning ∧ (count_events is_reserve evs ≤ k)%nat)
        ∧ match out with
          | Stopped =>
              running (queue_sender (self st')) = false
              ∧ (running qs = false
                 ∨ ∃ k, (stop_requested :: stops) !! k = Some true)
          | TargetReached =>
              has_target n = true
              ∧ default 0 n ≤ submissions_count (runner_base (self st'))
          | StillRunning =>
              count_events is_reserve evs
              = (length (stop_requested :: stops)
                 `min` length (PyQueue.queue (transaction_queue qs)))%nat
          | Crashed _ => False
          end).
    { intros out -> Hout. exists st1, []. split; [done|].
      split; [done|]. split; [done|]. split; [done|]. split; [done|].
      split; [done|]. split; [done|]. split; [cbn; lia|].
      cbn in Hf1. split; [intros; lia|].
      split; [|by destruct out].
      intros k Hk. split; [by destruct out|cbn; lia]. }
    destruct exit as [[| | |]|]; try done.
    + destruct Hexit as (Hr & Ht & Hle & Hev).
      destruct (Hend TargetReached Hev) as (st' & evs & H);
        [|exists TargetReached, st', evs; exact H].
      subst evs1. cbn in Hf1. split; [done|lia].
    + destruct Hexit as (Hr & Hev).
      destruct (Hend Stopped Hev) as (st' & evs & H);
        [|exists Stopped, st', evs; exact H].
      split; [done|]. rewrite Hr in Hr1. symmetry in Hr1.
      apply andb_false_iff in Hr1 as [Hr1|Hr1]; [by left|].
      right. exists 0%nat. cbn. by destruct stop_requested.
    + clear Hend. destruct Hexit as (Hr & Hlt & Hres1).
      assert (Hstop : stop_requested = false).
      { rewrite Hr in Hr1. symmetry in Hr1.
        apply andb_true_iff in Hr1 as [_ Hr1]. by destruct stop_requested. }
      assert (Hrun0 : running qs = true).
      { rewrite Hr in Hr1. symmetry in Hr1.
        by apply andb_true_iff in Hr1 as [Hr1 _]. }
      destruct (IH st1)
        as (out & st2 & evs2 & Hrun2 & Htr2 & Ha2 & (Hg1 & Hg2 & Hg3)
            & Hcur2 & Hm2 & Hq2 & Hlen2 & Hinv2 & Hstops2 & Hout).
      { change (base (queue_sender (self st1))) with (runner_base (self st1)).
        rewrite Ha1, Hcur1. fold N. apply Nat.mod_upper_bound. lia. }
      { by rewrite Ht1. }
      change (base (queue_sender (self st1))) with (runner_base (self st1))
        in Ha2, Hg1, Hg2, Hg3, Hcur2, Hinv2.
      assert (Hone : (count_events is_reserve evs1 ≤ 1)%nat).
      { rewrite Hres1. destruct (PyQueue.queue (transaction_queue qs)); lia. }
      exists out, st2, (evs1 ++ evs2). split; [exact Hrun2|].
      split; [by rewrite Htr2, Htr1, <- app_assoc|].
      split; [congruence|].
      rewrite !count_events_app.
      split; [unfold counters_follow; rewrite !count_events_app; lia|].
      split.
      { rewrite Hcur2, Ha1, Hcur1. fold N.
        rewrite Nat.Div0.add_mod_idemp_l. f_equal. lia. }
      split; [congruence|].
      split; [by rewrite Hq2, Hq1, drop_drop|].
      split; [cbn; lia|]. split.
      { intros Ht Hle. apply Hinv2; [done|]. specialize (Hlt Ht). lia. }
      split.
      { intros [|k] Hk; [cbn in Hk; congruence|].
        destruct (Hstops2 k Hk) as [Hne Hle]. split; [done|]. lia. }
      destruct out; try done.
      * destruct Hout as [Hr2 Hor]. split; [done|]. right.
        destruct Hor as [Hor|[k Hk]]; [congruence|]. by exists (S k).
      * rewrite Hout, Hq1, Hres1, length_drop.
        destruct (PyQueue.queue (transaction_queue qs)); cbn; lia.
Qed.

(** The whole call: the flag is set first, so that the flag before the
    call does not matter. *)
Lemma queue_run_high_speed_loop_run stops n (st : St QueueRunner) :
  let qs := queue_sender (self st) in
  let s := base qs in
  let N := length (accounts s) in
  (current_account_index s < N)%nat →
  0 ≤ queue_empty_timeout qs →
  ∃ out st' evs,
    queue_run_high_speed_loop stops n st = (Return out, st')
    ∧ trace st' = trace st ++ evs
    ∧ counters_follow evs s (runner_base (self st'))
    ∧ current_account_index (runner_base (self st'))
      = ((current_account_index s + count_events is_reserve evs) `mod` N)%nat
    ∧ PyQueue.queue (transaction_queue (queue_sender (self st')))
      = drop (count_events is_reserve evs) (PyQueue.queue (transaction_queue qs))
    ∧ (count_events is_reserve evs ≤ length stops)%nat
    ∧ (has_target n = true → submissions_count s ≤ default 0 n →
       submissions_count (runner_base (self st')) ≤ default 0 n)
    ∧ (∀ k, stops !! k = Some true →
         out ≠ StillRunning ∧ (count_events is_reserve evs ≤ k)%nat)
    ∧ match out with
      | Stopped =>
          running (queue_sender (self st')) = false
          ∧ ∃ k, stops !! k = Some true
      | TargetReached =>
          has_target n = true
          ∧ default 0 n ≤ submissions_count (runner_base (self st'))
      | StillRunning =>
          count_events is_reserve evs
          = (length stops `min` length (PyQueue.queue (transaction_queue qs)))%nat
      | Crashed _ => False
      end.
Proof.
  intros qs s N Hc Htime. unfold queue_run_high_speed_loop.
  unfold bind at 1. unfold update_self at 1. unfold try_except.
  set (st0 := mkSt _ _ _).
  destruct (queue_loop_cycles_run stops n st0)
    as (out & st' & evs & -> & Htr & _ & Hf & Hcur & _ & Hq & Hlen & Hinv
        & Hstops & Hout); [done|done|].
  exists out, st', evs. split; [done|]. split; [done|]. split; [done|].
  split; [done|]. split; [done|]. split; [done|]. split; [done|].
  split; [done|]. destruct out; try done.
  destruct Hout as [Hr [Hor|Hor]]; [done|]. by split.
Qed.

End QueueLoopFacts.

(** ** What the loops sign *)
Section SignedFacts.
Context `{Api : Web3Api}.
Local Open Scope engine_scope.










End SignedFacts.

Section QueueLoopSigns.
Context `{Api : Web3Api}.
Local Open Scope engine_scope.





End QueueLoopSigns.



(** X11: [stop] ends the queue-driven loop at the next test of the flag.
    If another thread called [stop] before the test of cycle [k], the
    loop has ended, by the flag or earlier by the target, after at most
    [k] items; the items it did not take are still in the queue, in
    order, and once ended by the flag, the flag is off. *)
Theorem stop_ends_the_queue_loop `{Api : Web3Api} (stops : list bool)
    (num_transactions : option Z) (k : nat) (st : St QueueRunner) :
  let run := queue_run_high_speed_loop stops num_transactions st in
  let qs := queue_sender (self st) in
  let qs' := queue_sender (self run.2) in
  let taken := count_events is_reserve (new_events st run.2) in
  (current_account_index (base qs) < length (accounts (base qs)))%nat →
  0 ≤ queue_empty_timeout qs →
  stops !! k = Some true →
  (run.1 = Return Stopped ∧ running qs' = false
   ∨ run.1 = Return TargetReached ∧ has_target num_transactions = true)
  ∧ (taken ≤ k)%nat
  ∧ PyQueue.queue (transaction_queue qs')
    = drop taken (PyQueue.queue (transaction_queue qs)).
Proof.
  intros run qs qs' taken Hc Htime Hk. subst run qs' taken.
  destruct (queue_run_high_speed_loop_run stops num_transactions st Hc Htime)
    as (out & st' & evs & -> & Htr & _ & _ & Hq & _ & _ & Hstops & Hout).
  cbn [fst snd]. rewrite (new_events_app _ _ _ Htr).
  destruct (Hstops k Hk) as [Hne Hle].
  split; [|by split].
  destruct out; try done.
  - right. by destruct Hout.
  - left. by destruct Hout.
Qed.

Lemma stop_ends_the_queue_loop_witness :
  let qr := mkQueueRunner
              (set_transaction_queue
                 (PyQueue.mkQueue QUEUE_MAXSIZE
                    [spot_data_params; mkParams ["Qm2"] ["b.org"] [7] "";
                     mkParams ["Qm3"] ["c.org"] [9] ""])
                 (init_queue_sender Scenario.two_nodes)) 0 in
  let st := Scenario.start qr [] in
  let run := queue_run_high_speed_loop [false; true; false] None st in
  (count_events is_reserve (new_events st run.2) ≤ 1)%nat.
Proof.
  intros qr st run.
  refine (proj1 (proj2
            (stop_ends_the_queue_loop (Api := Scenario.healthy)
               [false; true; false] None 1 st _ _ _))).
  - vm_compute. lia.
  - by vm_compute.
  - reflexivity.
Defined.

(** ** The queue-driven loop without accounts, and the batch interface *)
Section QueueEdgeFacts.
Context `{Api : Web3Api}.
Local Open Scope engine_scope.

Lemma queue_maybe_realign_no_accounts (st : St QueueRunner) :
  accounts (runner_base (self st)) = [] →
  ∃ st',
    queue_maybe_realign st = (Return tt, st')
    ∧ trace st' = trace st
    ∧ accounts (runner_base (self st')) = []
    ∧ counters_kept (runner_base (self st)) (runner_base (self st'))
    ∧ transaction_queue (queue_sender (self st'))
      = transaction_queue (queue_sender (self st))
    ∧ queue_empty_timeout (queue_sender (self st'))
      = queue_empty_timeout (queue_sender (self st))
    ∧ running (queue_sender (self st')) = running (queue_sender (self st)).
Proof.
  intros Hacc. set (count := submissions_count (runner_base (self st))).
  assert (Hm : queue_maybe_realign st
    = if (0 <? count) && (count `mod` NONCE_REALIGNMENT_ITERATIONS =? 0)
      then if negb (count =? queue_last_nonce_check (self st))
           then (on_base realign_all_nonces >>
                 let* r := read_self in
                 update_self
                   (set_queue_last_nonce_check
                      (submissions_count (runner_base r)))) st
           else (Return tt, st)
      else (Return tt, st)).
  { unfold queue_maybe_realign. unfold bind at 1, read_self at 1.
    cbv beta zeta. fold count.
    destruct ((0 <? count) && (count `mod` NONCE_REALIGNMENT_ITERATIONS =? 0));
      [|done].
    by destruct (negb (count =? queue_last_nonce_check (self st))). }
  rewrite Hm. clear Hm.
  destruct ((0 <? count) && (count `mod` NONCE_REALIGNMENT_ITERATIONS =? 0));
    [|by exists st].
  destruct (count =? queue_last_nonce_check (self st)); [by exists st|].
  cbn [negb]. unfold bind at 1.
  rewrite on_base_run, realign_all_nonces_no_accounts by done.
  eexists. split; [reflexivity|]. cbn. by repeat split.
Qed.

Lemma queue_loop_without_accounts_run stops n item rest (st : St QueueRunner) :
  let qs := queue_sender (self st) in
  let s := base qs in
  accounts s = [] →
  PyQueue.queue (transaction_queue qs) = item :: rest →
  0 ≤ queue_empty_timeout qs →
  (has_target n = true → submissions_count s < default 0 n) →
  ∃ st',
    queue_run_high_speed_loop (false :: stops) n st
    = (Return (Crashed "list index out of range"), st')
    ∧ trace st' = trace st
    ∧ PyQueue.queue (transaction_queue (queue_sender (self st'))) = rest
    ∧ running (queue_sender (self st')) = false
    ∧ counters_kept s (runner_base (self st')).
Proof.
  intros qs s Hacc Hq Htime Hn.
  unfold queue_run_high_speed_loop. unfold bind at 1, update_self at 1.
  set (st0 := mkSt _ _ _).
  assert (Hcyc : ∃ st1,
    queue_loop_cycles (false :: stops) n st0
    = (Raise "list index out of range", st1)
    ∧ trace st1 = trace st
    ∧ PyQueue.queue (transaction_queue (queue_sender (self st1))) = rest
    ∧ counters_kept s (runner_base (self st1))).
  { cbn [queue_loop_cycles]. unfold bind at 1. unfold queue_loop_cycle.
    unfold bind at 1, ret at 1. unfold bind at 1, read_self at 1.
    change (running (queue_sender (self st0))) with true. cbn [negb].
    change (runner_base (self st0)) with s.
    assert (Hgo : has_target n && (default 0 n <=? submissions_count s) = false).
    { destruct (has_target n); [|done]. cbn. apply Z.leb_gt. by apply Hn. }
    rewrite Hgo.
    destruct (queue_maybe_realign_no_accounts st0 Hacc)
      as (st1 & Hre & Htr1 & Hacc1 & Hk & Hq1 & Ht1 & Hr1).
    unfold bind at 1. rewrite Hre. unfold bind at 1, read_self at 1.
    cbv zeta. rewrite Hq1, Ht1.
    change (transaction_queue (queue_sender (self st0)))
      with (transaction_queue qs).
    change (queue_empty_timeout (queue_sender (self st0)))
      with (queue_empty_timeout qs).
    unfold PyQueue.get. cbn [negb].
    destruct (Z.ltb_spec (queue_empty_timeout qs) 0) as [Hneg|_]; [lia|].
    rewrite Hq. unfold bind at 1, update_self at 1.
    unfold bind at 1. rewrite on_base_run, get_next_account_run.
    cbn [self world trace runner_base queue_sender set_queue_sender base
         set_transaction_queue].
    change (base (queue_sender (self st1))) with (runner_base (self st1)).
    rewrite Hacc1. cbn. eexists. split; [reflexivity|]. cbn.
    split; [exact Htr1|]. split; [done|]. exact Hk. }
  destruct Hcyc as (st1 & Hrun & Htr & Hrest & Hk).
  unfold try_except. rewrite Hrun. cbn.
  eexists. split; [reflexivity|]. cbn.
  split; [exact Htr|]. split; [exact Hrest|]. split; [done|]. exact Hk.
Qed.

(** The batch: the items that fit are enqueued in order, and the first
    one that does not fit blocks the call. *)
Lemma add_transactions_batch_run l : ∀ qs,
  let q := transaction_queue qs in
  let free := if 0 <? PyQueue.maxsize q
              then Z.to_nat (PyQueue.maxsize q - PyQueue.qsize q)
              else length l in
  add_transactions_batch l qs
  = (set_transaction_queue
       (PyQueue.mkQueue (PyQueue.maxsize q) (PyQueue.queue q ++ take free l)) qs,
     if (free <? length l)%nat then PyQueue.Blocks else PyQueue.Done tt).
Proof.
  induction l as [|x l IH]; intros qs q free.
  - cbn. rewrite take_nil, app_nil_r. subst q.
    by destruct qs as [b [m items] t r].
  - cbn [add_transactions_batch]. unfold PyQueue.put. cbn [negb].
    destruct (0 <? PyQueue.maxsize q) eqn:Hb; fold q; rewrite Hb.
    + destruct (Z.leb_spec (PyQueue.maxsize q) (PyQueue.qsize q)) as [Hfull|Hroom].
      * assert (free = 0%nat) as -> by (subst free; lia).
        cbn. rewrite app_nil_r. subst q.
        by destruct qs as [b [m items] t r].
      * rewrite IH. cbn [transaction_queue set_transaction_queue
                         PyQueue.append_item PyQueue.maxsize PyQueue.queue].
        fold q. rewrite Hb.
        assert (Hsize : PyQueue.qsize (PyQueue.append_item q x)
                        = PyQueue.qsize q + 1).
        { unfold PyQueue.qsize. cbn. rewrite length_app. cbn. lia. }
        rewrite Hsize.
        assert (Hfree : free = S (Z.to_nat (PyQueue.maxsize q - (PyQueue.qsize q + 1)))).
        { subst free. lia. }
        rewrite Hfree. cbn [take length]. rewrite <- app_assoc. cbn [app].
        reflexivity.
    + rewrite IH. cbn [transaction_queue set_transaction_queue
                       PyQueue.append_item PyQueue.maxsize PyQueue.queue].
      fold q. rewrite Hb. subst free. cbn [length take].
      rewrite <- app_assoc. cbn [app]. reflexivity.
Qed.

End QueueEdgeFacts.

(** X12: the queue-driven loop without accounts loses the item it took.
    With an empty account list and a queue that holds [item :: rest], the
    first cycle takes [item] from the queue, the subscript of
    [get_next_account] raises, and the handler around the loop turns the
    flag off: the call returns normally, [item] is no longer in the queue,
    no nonce was reserved for it and no counter records it. *)
Theorem queue_loop_without_accounts_loses_the_item `{Api : Web3Api}
    (stops : list bool) (num_transactions : option Z)
    (item : SpotDataParams) (rest : list SpotDataParams)
    (st : St QueueRunner) :
  let run := queue_run_high_speed_loop (false :: stops) num_transactions st in
  let qs := queue_sender (self st) in
  let qs' := queue_sender (self run.2) in
  accounts (base qs) = [] →
  PyQueue.queue (transaction_queue qs) = item :: rest →
  0 ≤ queue_empty_timeout qs →
  (has_target num_transactions = true →
   submissions_count (base qs) < default 0 num_transactions) →
  run.1 = Return (Crashed "list index out of range")
  ∧ PyQueue.queue (transaction_queue qs') = rest
  ∧ running qs' = false
  ∧ new_events st run.2 = []
  ∧ counters_kept (base qs) (base qs').
Proof.
  intros run qs qs' Hacc Hq Htime Hn. subst run qs'.
  destruct (queue_loop_without_accounts_run stops num_transactions item rest st
              Hacc Hq Htime Hn) as (st' & -> & Htr & Hrest & Hr & Hk).
  cbn [fst snd]. split; [done|]. split; [done|]. split; [done|].
  split; [|done]. apply new_events_app. by rewrite app_nil_r.
Qed.

Lemma queue_loop_without_accounts_witness :
  let qr := mkQueueRunner
              (set_transaction_queue
                 (PyQueue.mkQueue QUEUE_MAXSIZE
                    [spot_data_params; mkParams ["Qm2"] ["b.org"] [7] ""])
                 (init_queue_sender
                    (init_sender ["https://node-a"] (Some 1) []))) 0 in
  let st := Scenario.start qr [] in
  let run := queue_run_high_speed_loop [false; false] None st in
  run.1 = Return (Crashed "list index out of range")
  ∧ PyQueue.queue (transaction_queue (queue_sender (self run.2)))
    = [mkParams ["Qm2"] ["b.org"] [7] ""]
  ∧ running (queue_sender (self run.2)) = false
  ∧ new_events st run.2 = []
  ∧ counters_kept (base (queue_sender (self st)))
      (base (queue_sender (self run.2))).
Proof.
  intros qr st run.
  refine (queue_loop_without_accounts_loses_the_item (Api := Scenario.healthy)
            [false] None spot_data_params [mkParams ["Qm2"] ["b.org"] [7] ""]
            st _ _ _ _).
  - reflexivity.
  - reflexivity.
  - by vm_compute.
  - intros [=].
Defined.

(** X13: [add_transactions_batch] enqueues the items in their order
    behind the items already queued, as long as the bound allows; when the
    batch does not fit, the call blocks on the first item that finds the
    queue full, with exactly the free slots filled by the first items of
    the batch and none of the later ones enqueued. It never raises. *)
Theorem batch_is_enqueued_in_order_until_full
    (transactions_list : list SpotDataParams) (qs : QueueSender) :
  let q := transaction_queue qs in
  let free := Z.to_nat (PyQueue.maxsize q - PyQueue.qsize q) in
  let result := add_transactions_batch transactions_list qs in
  0 < PyQueue.maxsize q →
  PyQueue.queue (transaction_queue result.1)
  = PyQueue.queue q ++ take free transactions_list
  ∧ PyQueue.maxsize (transaction_queue result.1) = PyQueue.maxsize q
  ∧ base result.1 = base qs
  ∧ ((length transactions_list ≤ free)%nat →
     result.2 = PyQueue.Done tt
     ∧ PyQueue.queue (transaction_queue result.1)
       = PyQueue.queue q ++ transactions_list)
  ∧ ((free < length transactions_list)%nat →
     result.2 = PyQueue.Blocks
     ∧ PyQueue.full (transaction_queue result.1) = true)
  ∧ (∀ msg, result.2 ≠ PyQueue.Raises msg).
Proof.
  intros q free result Hmax. subst result.
  rewrite add_transactions_batch_run. fold q.
  assert (Hb : (0 <? PyQueue.maxsize q) = true) by by apply Z.ltb_lt.
  rewrite Hb. fold free. cbn [fst snd].
  split; [done|]. split; [done|]. split; [done|]. split; [|split].
  - intros Hle. destruct (Nat.ltb_spec free (length transactions_list)); [lia|].
    split; [done|]. cbn. by rewrite take_ge.
  - intros Hlt. destruct (Nat.ltb_spec free (length transactions_list)); [|lia].
    split; [done|]. unfold PyQueue.full, PyQueue.qsize. cbn.
    rewrite Hb, length_app, length_take. cbn.
    apply Z.leb_le. unfold PyQueue.qsize in free. subst free. lia.
  - intros msg. by destruct (free <? length transactions_list)%nat.
Qed.

Lemma batch_is_enqueued_in_order_until_full_witness :
  let qs := set_transaction_queue (PyQueue.mkQueue 3 [spot_data_params])
              (init_queue_sender Scenario.two_nodes) in
  let batch := [mkParams ["Qm1"] ["a.org"] [1] "";
                mkParams ["Qm2"] ["b.org"] [2] "";
                mkParams ["Qm3"] ["c.org"] [3] ""] in
  let result := add_transactions_batch batch qs in
  result.2 = PyQueue.Blocks
  ∧ PyQueue.full (transaction_queue result.1) = true.
Proof.
  intros qs batch result.
  refine (proj1 (proj2 (proj2 (proj2 (proj2
            (batch_is_enqueued_in_order_until_full batch qs _))))) _).
  - reflexivity.
  - vm_compute. lia.
Defined.

(** ** The ClaimMaster script, account by account *)
Section ClaimLoopFacts.
Context `{Api : Web3Api}.
Local Open Scope engine_scope.
Import ClaimLoop.

(** One claim: one reservation first, at most one broadcast, and the
    counters move with the outcome. *)
Lemma claim_single_effect account (st : St ClaimMaster.Script) :
  let addr := address account in
  let n := Nonces.nonce_of (ClaimMaster.account_nonces (self st)) addr in
  ∃ out st' evs,
    ClaimMaster.claim_master_single_account account st = (Return out, st')
    ∧ trace st' = trace st ++ EvReserve addr n :: evs
    ∧ reservations evs = []
    ∧ (length (broadcasts evs) ≤ 1)%nat
    ∧ count_events is_accepted evs = (if out.1 then 1 else 0)%nat
    ∧ ClaimMaster.account_nonces (self st')
      = <[addr := n + 1]> (ClaimMaster.account_nonces (self st))
    ∧ ClaimMaster.total_claims_attempted (self st')
      = ClaimMaster.total_claims_attempted (self st) + (if out.1 then 1 else 0)
    ∧ ClaimMaster.total_claims_successful (self st')
      = ClaimMaster.total_claims_successful (self st) + (if out.1 then 1 else 0)
    ∧ ClaimMaster.total_claims_failed (self st')
      = ClaimMaster.total_claims_failed (self st) + (if out.1 then 0 else 1)
    ∧ same_setup (self st) (self st').
Proof.
  intros addr n.
  unfold ClaimMaster.claim_master_single_account, try_except, ClaimMaster.the_w3,
    sign, send, rpc, emit, lift, update_self, read_self, ret, throw, bind.
  cbn. fold addr. fold n.
  destruct (ClaimMaster.w3 (self st)) as [w|] eqn:Hw; cbn.
  2:{ eexists (false, None), _, []. split; [reflexivity|]. cbn.
      rewrite ?Z.add_0_r. repeat split; first [done|lia]. }
  destruct (eth_gas_price (world st) w) as [w1 [price|e]]; cbn.
  2:{ eexists (false, None), _, []. split; [reflexivity|]. cbn.
      rewrite ?Z.add_0_r. repeat split; first [done|lia]. }
  destruct (ClaimMaster.address_manager_obj (self st)) as [c|] eqn:Hc; cbn.
  2:{ eexists (false, None), _, []. split; [reflexivity|]. cbn.
      rewrite ?Z.add_0_r. repeat split; first [done|lia]. }
  destruct (ClaimMaster.chain_id (self st)) as [chain|] eqn:Hchain; cbn.
  2:{ eexists (false, None), _, []. split; [reflexivity|]. cbn.
      rewrite ?Z.add_0_r. repeat split; first [done|lia]. }
  destruct (build_claim_master _ _ _) as [tx|e]; cbn.
  2:{ eexists (false, None), _, []. split; [reflexivity|]. cbn.
      rewrite ?Z.add_0_r. repeat split; first [done|lia]. }
  destruct (sign_transaction _ _ _) as [raw|e]; cbn.
  2:{ eexists (false, None), _, []. split; [reflexivity|]. cbn.
      rewrite ?Z.add_0_r. repeat split; first [done|lia]. }
  destruct (send_raw_transaction w1 w raw) as [w2 [h|e]]; cbn.
  - eexists (true, Some h), _, [EvSign raw; EvSend w raw (Return h)].
    split; [reflexivity|]. cbn. rewrite <- !app_assoc. cbn.
    rewrite ?Z.add_0_r. repeat split; first [done|lia].
  - eexists (false, None), _, [EvSign raw; EvSend w raw (Raise e)].
    split; [reflexivity|]. cbn. rewrite <- !app_assoc. cbn.
    rewrite ?Z.add_0_r. repeat split; first [done|lia].
Qed.

Lemma reservations_app tr1 tr2 :
  reservations (tr1 ++ tr2) = reservations tr1 ++ reservations tr2.
Proof. unfold reservations. by rewrite omap_app. Qed.

Lemma on_script_run {A} (m : M ClaimMaster.Script A) (st : St Claimer) :
  on_script m st
  = let '(r, st1) := m (mkSt (script (self st)) (world st) (trace st)) in
    (r, mkSt (set_script (self st1) (self st)) (world st1) (trace st1)).
Proof. reflexivity. Qed.

(** One pass through the body of the loop. *)
Lemma claim_account_effect account (st : St Claimer) :
  let s := script (self st) in
  let addr := address account in
  let n := Nonces.nonce_of (ClaimMaster.account_nonces s) addr in
  ∃ st' evs (success : bool),
    claim_account account st = (Return tt, st')
    ∧ trace st' = trace st ++ EvReserve addr n :: evs
    ∧ all_accounts (self st') = all_accounts (self st)
    ∧ reservations evs = []
    ∧ (length (broadcasts evs) ≤ 1)%nat
    ∧ count_events is_accepted evs = (if success then 1 else 0)%nat
    ∧ ClaimMaster.account_nonces (script (self st'))
      = <[addr := n + 1]> (ClaimMaster.account_nonces s)
    ∧ ClaimMaster.total_claims_attempted (script (self st'))
      = ClaimMaster.total_claims_attempted s + (if success then 1 else 0)
    ∧ ClaimMaster.total_claims_successful (script (self st'))
      = ClaimMaster.total_claims_successful s + (if success then 1 else 0)
    ∧ ClaimMaster.total_claims_failed (script (self st'))
      = ClaimMaster.total_claims_failed s + (if success then 0 else 1)
    ∧ same_setup s (script (self st')).
Proof.
  intros s addr n. unfold claim_account, try_except.
  unfold bind at 1. rewrite on_script_run.
  destruct (claim_single_effect account
              (mkSt (script (self st)) (world st) (trace st)))
    as (out & st1 & evs1 & Hrun & Htr1 & Hres1 & Hb1 & Hacc1 & Hn1
        & Hc1 & Hc2 & Hc3 & Hs1).
  rewrite Hrun. eexists _, evs1, out.1. split; [reflexivity|]. cbn.
  by repeat (split; [done|]).
Qed.

(** The loop over accounts with pairwise different addresses. *)
Lemma claim_accounts_run l : ∀ st : St Claimer,
  let s := script (self st) in
  NoDup (address <$> l) →
  ∃ st' evs,
    for_each claim_account l st = (Return tt, st')
    ∧ trace st' = trace st ++ evs
    ∧ all_accounts (self st') = all_accounts (self st)
    ∧ reservations evs
      = (λ a, (address a,
               Nonces.nonce_of (ClaimMaster.account_nonces s) (address a))) <$> l
    ∧ (length (broadcasts evs) ≤ length l)%nat
    ∧ (count_events is_accepted evs ≤ length l)%nat
    ∧ ClaimMaster.total_claims_attempted (script (self st'))
      = ClaimMaster.total_claims_attempted s
        + Z.of_nat (count_events is_accepted evs)
    ∧ ClaimMaster.total_claims_successful (script (self st'))
      = ClaimMaster.total_claims_successful s
        + Z.of_nat (count_events is_accepted evs)
    ∧ ClaimMaster.total_claims_failed (script (self st'))
      + Z.of_nat (count_events is_accepted evs)
      = ClaimMaster.total_claims_failed s + Z.of_nat (length l)
    ∧ (∀ a, a ∈ l →
         Nonces.nonce_of (ClaimMaster.account_nonces (script (self st'))) (address a)
         = Nonces.nonce_of (ClaimMaster.account_nonces s) (address a) + 1)
    ∧ (∀ addr, addr ∉ address <$> l →
         ClaimMaster.account_nonces (script (self st')) !! addr
         = ClaimMaster.account_nonces s !! addr)
    ∧ same_setup s (script (self st')).
Proof.
  induction l as [|a l IH]; intros st s Hnd.
  - exists st, []. rewrite app_nil_r. cbn. fold s.
    repeat split; first [done|lia|idtac].
    intros a Ha. by apply elem_of_nil in Ha.
  - rewrite fmap_cons in Hnd. apply NoDup_cons in Hnd as [Ha Hnd].
    cbn [for_each]. unfold bind at 1.
    destruct (claim_account_effect a st)
      as (st2 & evs1 & success & Hrun & Htr1 & Hall1 & Hres1 & Hb1 & Hacc1 & Hn1
          & Hc1 & Hc2 & Hc3 & Hs1).
    rewrite Hrun. fold s in Hn1, Hc1, Hc2, Hc3, Hs1.
    destruct (IH st2 Hnd)
      as (st' & evs & Hloop & Htr & Hall & Hres & Hb & Hacc & Hd1 & Hd2 & Hd3
          & Hin & Hout & Hs).
    rewrite Hloop.
    set (ev0 := EvReserve (address a)
                  (Nonces.nonce_of (ClaimMaster.account_nonces s) (address a))).
    fold ev0 in Htr1.
    exists st', ([ev0] ++ evs1 ++ evs).
    split; [done|].
    split; [by rewrite Htr, Htr1; cbn; rewrite <- !app_assoc|].
    split; [congruence|].
    assert (Hacc0 : (count_events is_accepted evs1 ≤ 1)%nat).
    { rewrite Hacc1. destruct success; lia. }
    split.
    { rewrite !reservations_app, Hres1, Hres. cbn. f_equal.
      apply list_fmap_ext. intros i b Hb'. f_equal. rewrite Hn1.
      apply nonce_of_insert_ne. intros Heq. apply Ha. rewrite Heq.
      apply list_elem_of_fmap_2. by eapply list_elem_of_lookup_2. }
    rewrite !broadcasts_app, !length_app, !count_events_app.
    change (length (broadcasts [ev0])) with 0%nat.
    change (count_events is_accepted [ev0]) with 0%nat.
    cbn [length Nat.add].
    split; [lia|]. split; [lia|].
    split; [rewrite Hd1, Hc1, Hacc1; destruct success; lia|].
    split; [rewrite Hd2, Hc2, Hacc1; destruct success; lia|].
    split; [rewrite Hacc1 in *; destruct success; lia|].
    split; [|split].
    + intros b Hb'. apply elem_of_cons in Hb' as [->|Hb'].
      * unfold Nonces.nonce_of at 1. rewrite Hout by done.
        rewrite Hn1, lookup_insert_eq. done.
      * rewrite (Hin b Hb'), Hn1. f_equal.
        apply nonce_of_insert_ne. intros Heq. apply Ha. rewrite Heq.
        by apply list_elem_of_fmap_2.
    + intros addr Hnot. rewrite fmap_cons in Hnot.
      apply not_elem_of_cons in Hnot as [Hne Hnot].
      rewrite Hout by done. rewrite Hn1. by apply lookup_insert_ne.
    + destruct Hs1 as (?&?&?&?), Hs as (?&?&?&?). repeat split; congruence.
Qed.

End ClaimLoopFacts.

(** X14: the ClaimMaster loop claims once per account and never retries.
    For accounts with pairwise different addresses,
    [sequential_claim_master_all_accounts] does not raise; it reserves one
    nonce per account, in the order of the list, each the counter of that
    account, which ends one higher; it makes at most one broadcast per
    account; [total_claims_attempted] and [total_claims_successful] grow
    by the number of accepted broadcasts, and the successful and the
    failed claims together by the number of accounts. *)
Theorem claim_loop_claims_once_per_account `{Api : Web3Api}
    (st : St ClaimLoop.Claimer) :
  let run := ClaimLoop.sequential_claim_master_all_accounts st in
  let l := ClaimLoop.all_accounts (self st) in
  let s := ClaimLoop.script (self st) in
  let s' := ClaimLoop.script (self run.2) in
  let evs := new_events st run.2 in
  let accepted := Z.of_nat (count_events is_accepted evs) in
  NoDup (address <$> l) →
  run.1 = Return tt
  ∧ reservations evs
    = (λ a, (address a,
             Nonces.nonce_of (ClaimMaster.account_nonces s) (address a))) <$> l
  ∧ (length (broadcasts evs) ≤ length l)%nat
  ∧ (∀ a, a ∈ l →
       Nonces.nonce_of (ClaimMaster.account_nonces s') (address a)
       = Nonces.nonce_of (ClaimMaster.account_nonces s) (address a) + 1)
  ∧ ClaimMaster.total_claims_attempted s'
    = ClaimMaster.total_claims_attempted s + accepted
  ∧ ClaimMaster.total_claims_successful s'
    = ClaimMaster.total_claims_successful s + accepted
  ∧ ClaimMaster.total_claims_successful s' + ClaimMaster.total_claims_failed s'
    = ClaimMaster.total_claims_successful s + ClaimMaster.total_claims_failed s
      + Z.of_nat (length l).
Proof.
  intros run l s s' evs accepted Hnd. subst run s' evs accepted.
  change (ClaimLoop.sequential_claim_master_all_accounts st)
    with (for_each ClaimLoop.claim_account l st).
  destruct (claim_accounts_run l st Hnd)
    as (st' & evs & -> & Htr & _ & Hres & Hb & _ & Hd1 & Hd2 & Hd3 & Hin & _).
  cbn [fst snd]. rewrite (new_events_app _ _ _ Htr). fold s in Hres, Hd1, Hd2, Hd3, Hin.
  split; [done|]. split; [done|]. split; [done|]. split; [done|].
  split; [done|]. split; [done|]. lia.
Qed.

Lemma claim_loop_claims_once_per_account_witness :
  let st := Scenario.start
              (ClaimLoop.mkClaimer Scenario.claim_script
                 [Scenario.acct1; Scenario.acct2; Scenario.acct3])
              [Scenario.rejection] in
  let run := ClaimLoop.sequential_claim_master_all_accounts st in
  reservations (new_events st run.2) = [("0xA1", 5); ("0xA2", 0); ("0xA3", 12)]
  ∧ run.1 = Return tt
  ∧ ClaimMaster.total_claims_successful (ClaimLoop.script (self run.2))
    + ClaimMaster.total_claims_failed (ClaimLoop.script (self run.2))
    = 0 + 0 + Z.of_nat 3.
Proof.
  intros st run. split; [by vm_compute|].
  assert (Hnd : NoDup (address <$> ClaimLoop.all_accounts (self st))).
  { apply (bool_decide_unpack
             (NoDup (address <$> ClaimLoop.all_accounts (self st)))).
    by vm_compute. }
  pose proof (claim_loop_claims_once_per_account (Api := Scenario.healthy) st Hnd)
    as (H1 & _ & _ & _ & _ & _ & H7).
  by split.
Defined.

Section ClaimNonceFacts.
Context `{Api : Web3Api}.
Local Open Scope engine_scope.
Import ClaimLoop.

Lemma initialize_account_nonce_run account (st : St ClaimMaster.Script) :
  initialize_account_nonce account st =
  match ClaimMaster.w3 (self st) with
  | None =>
      (Return tt,
       mkSt (ClaimMaster.set_account_nonces
               (<[address account := 0]> (ClaimMaster.account_nonces (self st)))
               (self st))
         (world st) (trace st))
  | Some w =>
      let '(w1, response) :=
        get_transaction_count (world st) w (address account) in
      (Return tt,
       mkSt (ClaimMaster.set_account_nonces
               (<[address account :=
                    match response with Return v => v | Raise _ => 0 end]>
                  (ClaimMaster.account_nonces (self st))) (self st))
         w1 (trace st ++ [EvRead w (address account) response]))
  end.
Proof.
  unfold initialize_account_nonce, try_except, ClaimMaster.the_w3, read_count,
    rpc, emit, lift, update_self, read_self, ret, throw, bind.
  cbn. destruct (ClaimMaster.w3 (self st)) as [w|]; [|reflexivity].
  destruct (get_transaction_count (world st) w (address account))
    as [w1 [v|e]]; reflexivity.
Qed.

Lemma initialize_account_nonces_loop l : ∀ st : St Claimer,
  let s := script (self st) in
  NoDup (address <$> l) →
  ∃ st' evs,
    for_each (λ account, on_script (initialize_account_nonce account)) l st
    = (Return tt, st')
    ∧ trace st' = trace st ++ evs
    ∧ all_accounts (self st') = all_accounts (self st)
    ∧ ClaimMaster.w3 (script (self st')) = ClaimMaster.w3 s
    ∧ match ClaimMaster.w3 s with
      | None => evs = []
      | Some w =>
          Forall2 (λ ev a, ∃ r, ev = EvRead w (address a) r) evs l
      end
    ∧ (∀ addr, addr ∉ address <$> l →
         ClaimMaster.account_nonces (script (self st')) !! addr
         = ClaimMaster.account_nonces s !! addr)
    ∧ (∀ a, a ∈ l →
         ClaimMaster.account_nonces (script (self st')) !! address a
         = Some 0
         ∨ ∃ w v, EvRead w (address a) (Return v) ∈ evs
                  ∧ ClaimMaster.account_nonces (script (self st')) !! address a
                    = Some v)
    ∧ (∀ w addr r, EvRead w addr r ∈ evs →
         ClaimMaster.account_nonces (script (self st')) !! addr
         = Some match r with Return v => v | Raise _ => 0 end).
Proof.
  induction l as [|a l IH]; intros st s Hnd.
  - exists st, []. rewrite app_nil_r. cbn. fold s.
    split; [done|]. split; [done|]. split; [done|]. split; [done|].
    split; [by destruct (ClaimMaster.w3 s)|]. split; [done|].
    split; [intros a Ha; by apply elem_of_nil in Ha|].
    intros w addr r Hin. by apply elem_of_nil in Hin.
  - rewrite fmap_cons in Hnd. apply NoDup_cons in Hnd as [Ha Hnd].
    cbn [for_each]. unfold bind at 1.
    rewrite on_script_run, initialize_account_nonce_run. cbn [self world trace].
    fold s. destruct (ClaimMaster.w3 s) as [w|] eqn:Hw.
    + destruct (get_transaction_count (world st) w (address a)) as [w1 r].
      set (v0 := match r with Return v => v | Raise _ => 0 end).
      set (st1 := mkSt _ _ _).
      destruct (IH st1 Hnd)
        as (st' & evs & -> & Htr & Hall & Hw' & Hevs & Hother & Hin & Hread).
      cbn [self trace script set_script all_accounts st1
           ClaimMaster.w3 ClaimMaster.set_account_nonces
           ClaimMaster.account_nonces] in Htr, Hall, Hw', Hevs, Hother.
      fold s in Hw', Hevs, Hother. rewrite Hw in Hevs.
      assert (Ha' : ClaimMaster.account_nonces (script (self st')) !! address a
                    = Some v0).
      { rewrite Hother by done. apply lookup_insert_eq. }
      exists st', (EvRead w (address a) r :: evs).
      split; [done|]. split; [by rewrite Htr; cbn; rewrite <- app_assoc|].
      split; [done|]. split; [congruence|].
      split; [constructor; [by exists r|done]|]. split; [|split].
      * intros addr Hnot. rewrite fmap_cons in Hnot.
        apply not_elem_of_cons in Hnot as [Hne Hnot].
        rewrite Hother by done. by apply lookup_insert_ne.
      * intros b Hb. apply elem_of_cons in Hb as [->|Hb].
        -- subst v0. destruct r as [v|e]; [|by left].
           right. exists w, v. split; [by left|done].
        -- destruct (Hin b Hb) as [H0|(w' & v & Hev & Hv)]; [by left|].
           right. exists w', v. split; [by right|done].
      * intros w' addr r' Hin'. apply elem_of_cons in Hin' as [Heq|Hin'].
        -- by injection Heq as -> -> ->.
        -- by eapply Hread.
    + set (st1 := mkSt _ _ _).
      destruct (IH st1 Hnd)
        as (st' & evs & -> & Htr & Hall & Hw' & Hevs & Hother & Hin & Hread).
      cbn [self trace script set_script all_accounts st1
           ClaimMaster.w3 ClaimMaster.set_account_nonces
           ClaimMaster.account_nonces] in Htr, Hall, Hw', Hevs, Hother.
      fold s in Hw', Hevs, Hother. rewrite Hw in Hevs. subst evs.
      assert (Ha' : ClaimMaster.account_nonces (script (self st')) !! address a
                    = Some 0).
      { rewrite Hother by done. apply lookup_insert_eq. }
      exists st', []. split; [done|]. split; [done|]. split; [done|].
      split; [congruence|]. split; [done|]. split; [|split; [|done]].
      * intros addr Hnot. rewrite fmap_cons in Hnot.
        apply not_elem_of_cons in Hnot as [Hne Hnot].
        rewrite Hother by done. by apply lookup_insert_ne.
      * intros b Hb. apply elem_of_cons in Hb as [->|Hb]; [by left|].
        by apply Hin.
Qed.

End ClaimNonceFacts.

(** X15: [initialize_account_nonces] of the ClaimMaster script never
    raises; with a connection it reads the transaction count of every
    account once, in the order of the list, on the one node, and leaves
    for every account the count read, or 0 when the read raised; without
    a connection it reads nothing and every counter is 0. The accounts
    have pairwise different addresses. *)
Theorem claim_nonces_are_read_once_or_zero `{Api : Web3Api}
    (st : St ClaimLoop.Claimer) :
  let run := ClaimLoop.initialize_account_nonces st in
  let l := ClaimLoop.all_accounts (self st) in
  let s := ClaimLoop.script (self st) in
  let nonces := ClaimMaster.account_nonces (ClaimLoop.script (self run.2)) in
  let evs := new_events st run.2 in
  NoDup (address <$> l) →
  run.1 = Return tt
  ∧ match ClaimMaster.w3 s with
    | None => evs = [] ∧ ∀ a, a ∈ l → nonces !! address a = Some 0
    | Some w => Forall2 (λ ev a, ∃ r, ev = EvRead w (address a) r) evs l
    end
  ∧ (∀ w addr v, EvRead w addr (Return v) ∈ evs → nonces !! addr = Some v)
  ∧ (∀ w addr e, EvRead w addr (Raise e) ∈ evs → nonces !! addr = Some 0)
  ∧ (∀ addr, addr ∉ address <$> l →
       nonces !! addr = ClaimMaster.account_nonces s !! addr).
Proof.
  intros run l s nonces evs Hnd. subst run nonces evs.
  change (ClaimLoop.initialize_account_nonces st)
    with (for_each (λ account, ClaimLoop.on_script
                                 (ClaimLoop.initialize_account_nonce account))
            l st).
  destruct (initialize_account_nonces_loop l st Hnd)
    as (st' & evs & -> & Htr & _ & _ & Hevs & Hother & Hin & Hread).
  cbn [fst snd]. rewrite (new_events_app _ _ _ Htr). fold s in Hevs, Hother.
  split; [done|]. split; [|split; [|split; [|done]]].
  - destruct (ClaimMaster.w3 s); [done|]. split; [done|].
    intros a Ha. destruct (Hin a Ha) as [H0|(w & v & Hev & _)]; [done|].
    subst evs. by apply elem_of_nil in Hev.
  - intros w addr v Hev. by rewrite (Hread _ _ _ Hev).
  - intros w addr e Hev. by rewrite (Hread _ _ _ Hev).
Qed.

Lemma claim_nonces_are_read_once_or_zero_witness :
  let st := @mkSt Scenario.healthy ClaimLoop.Claimer
              (ClaimLoop.mkClaimer Scenario.claim_script
                 [Scenario.acct1; mkAccount "0xB7" "key" 7])
              (Scenario.mkNodes [] (<["0xA1" := 3]> ∅)) [] in
  let run := ClaimLoop.initialize_account_nonces st in
  let nonces := ClaimMaster.account_nonces (ClaimLoop.script (self run.2)) in
  (nonces !! "0xA1" = Some 3 ∧ nonces !! "0xB7" = Some 0)
  ∧ run.1 = Return tt
  ∧ (∀ w addr e, EvRead w addr (Raise e) ∈ new_events st run.2 →
       nonces !! addr = Some 0).
Proof.
  intros st run nonces. split; [by vm_compute|].
  assert (Hnd : NoDup (address <$> ClaimLoop.all_accounts (self st))).
  { apply (bool_decide_unpack
             (NoDup (address <$> ClaimLoop.all_accounts (self st)))).
    by vm_compute. }
  pose proof (claim_nonces_are_read_once_or_zero (Api := Scenario.healthy) st Hnd)
    as (H1 & _ & _ & H4 & _).
  by split.
Defined.

(** ** The funding run of quick_funding.py, transfer by transfer *)
Section FundingFacts.
Context `{Api : Web3Api}.
Variable to_checksum_address : string → result string.
Local Open Scope engine_scope.
Import FundingProcess.

Lemma same_plan_refl p : same_plan p p.
Proof. by repeat split. Qed.

Lemma same_plan_trans p1 p2 p3 :
  same_plan p1 p2 → same_plan p2 p3 → same_plan p1 p3.
Proof.
  intros (?&?&?&?&?&Hs1) (?&?&?&?&?&Hs2).
  repeat split; try congruence.
Qed.

Lemma same_plan_scheduled p p' f : same_plan p p' → scheduled p' f = scheduled p f.
Proof. intros (_&_&_&_&_&H). apply H. Qed.

(** One transfer: a funder with a counter reserves once and broadcasts at
    most once; a funder without counter reserves and sends nothing. *)
Lemma fund_single_effect target_account funding_account (st : St Process) :
  let addr := address funding_account in
  let p := self st in
  ∃ out st' evs,
    fund_single_target to_checksum_address target_account funding_account st
    = (Return out, st')
    ∧ trace st' = trace st ++ evs
    ∧ reservations evs
      = match funding_nonce p addr with Some n => [(addr, n)] | None => [] end
    ∧ Funder.funding_nonces (funder (self st'))
      = match funding_nonce p addr with
        | Some n => <[addr := n + 1]> (Funder.funding_nonces (funder p))
        | None => Funder.funding_nonces (funder p)
        end
    ∧ (length (broadcasts evs) ≤ 1)%nat
    ∧ (funding_nonce p addr = None → evs = [])
    ∧ count_events is_accepted evs = (if out.1 then 1 else 0)%nat
    ∧ funding_attempts (self st') = funding_attempts p + (if out.1 then 1 else 0)
    ∧ successful_fundings (self st')
      = successful_fundings p + (if out.1 then 1 else 0)
    ∧ failed_fundings (self st') = failed_fundings p + (if out.1 then 0 else 1)
    ∧ same_plan p (self st').
Proof.
  intros addr p.
  unfold fund_single_target, try_except, on_funder, zoom, get_next_nonce,
    sign, send, rpc, emit, lift, update_self, read_self, ret, throw, bind.
  cbn. fold addr. fold p. unfold funding_nonce.
  destruct (Funder.funding_nonces (funder p) !! addr) as [n|] eqn:Hn; cbn.
  2:{ eexists (false, None), _, []. split; [reflexivity|]. cbn.
      rewrite ?Z.add_0_r, ?app_nil_r. repeat split; first [done|cbn; lia]. }
  destruct (Funder.w3 (funder p)) as [w|] eqn:Hw; cbn.
  2:{ eexists (false, None), _, [_]. split; [reflexivity|]. cbn.
      rewrite ?Z.add_0_r. repeat split; first [done|cbn; lia]. }
  destruct (eth_gas_price (world st) w) as [w1 [price|e]]; cbn.
  2:{ eexists (false, None), _, [_]. split; [reflexivity|]. cbn.
      rewrite ?Z.add_0_r. repeat split; first [done|cbn; lia]. }
  destruct (to_checksum_address (address target_account)) as [to|e]; cbn.
  2:{ eexists (false, None), _, [_]. split; [reflexivity|]. cbn.
      rewrite ?Z.add_0_r. repeat split; first [done|cbn; lia]. }
  destruct (chain_id p) as [chain|] eqn:Hchain; cbn.
  2:{ eexists (false, None), _, [_]. split; [reflexivity|]. cbn.
      rewrite ?Z.add_0_r. repeat split; first [done|cbn; lia]. }
  destruct (sign_transaction _ _ _) as [raw|e]; cbn.
  2:{ eexists (false, None), _, [_]. split; [reflexivity|]. cbn.
      rewrite ?Z.add_0_r. repeat split; first [done|cbn; lia]. }
  destruct (send_raw_transaction w1 w raw) as [w2 [h|e]]; cbn.
  - eexists (true, Some h), _, [_; _; _]. split; [reflexivity|]. cbn.
    rewrite <- !app_assoc. cbn.
    rewrite ?Z.add_0_r. repeat split; first [done|cbn; lia].
  - eexists (false, None), _, [_; _; _]. split; [reflexivity|]. cbn.
    rewrite <- !app_assoc. cbn.
    rewrite ?Z.add_0_r. repeat split; first [done|cbn; lia].
Qed.

Lemma scheduled_total_same_plan p p' funders :
  same_plan p p' → scheduled_total p' funders = scheduled_total p funders.
Proof.
  intros Hp. unfold scheduled_total. f_equal. apply list_fmap_ext.
  intros i f _. by rewrite (same_plan_scheduled p p' f Hp).
Qed.

(** The loop of the worker over [targets]: one transfer per target. *)
Lemma worker_loop_run funding_account targets : ∀ (st : St Process) a b,
  let addr := address funding_account in
  let p := self st in
  ∃ st' evs (ok : nat),
    worker_loop to_checksum_address funding_account targets a b st
    = (Return (a + Z.of_nat ok, b + Z.of_nat (length targets - ok)), st')
    ∧ (ok ≤ length targets)%nat
    ∧ ok = count_events is_accepted evs
    ∧ trace st' = trace st ++ evs
    ∧ reservations evs
      = match funding_nonce p addr with
        | Some n => (λ k, (addr, n + Z.of_nat k)) <$> seq 0 (length targets)
        | None => []
        end
    ∧ (length (broadcasts evs) ≤ length targets)%nat
    ∧ funding_nonce (self st') addr
      = (λ n, n + Z.of_nat (length targets)) <$> funding_nonce p addr
    ∧ (∀ other, other ≠ addr →
         funding_nonce (self st') other = funding_nonce p other)
    ∧ funding_attempts (self st') = funding_attempts p + Z.of_nat ok
    ∧ successful_fundings (self st') = successful_fundings p + Z.of_nat ok
    ∧ failed_fundings (self st')
      = failed_fundings p + Z.of_nat (length targets - ok)
    ∧ same_plan p (self st').
Proof.
  induction targets as [|target rest IH]; intros st a b addr p.
  - exists st, [], 0%nat. cbn. rewrite app_nil_r, !Z.add_0_r. fold p.
    split; [done|]. split; [done|]. split; [done|]. split; [done|].
    split; [by destruct (funding_nonce p addr)|]. split; [done|].
    split.
    { destruct (funding_nonce p addr); cbn; [|done]. f_equal. lia. }
    split; [done|]. split; [done|]. split; [done|]. split; [done|].
    apply same_plan_refl.
  - cbn [worker_loop]. unfold bind at 1. unfold try_except. unfold bind at 1.
    destruct (fund_single_effect target funding_account st)
      as (out & st1 & evs1 & Hrun & Htr1 & Hres1 & Hn1 & Hb1 & _ & Hacc1
          & Hc1 & Hc2 & Hc3 & Hp1).
    fold addr p in Hres1, Hn1, Hc1, Hc2, Hc3, Hp1.
    rewrite Hrun. unfold ret at 1.
    set (a1 := (if out.1 then (a + 1, b) else (a, b + 1)).1).
    set (b1 := (if out.1 then (a + 1, b) else (a, b + 1)).2).
    destruct (IH st1 a1 b1)
      as (st' & evs & ok & Hloop & HS & HSacc & Htr & Hres & Hb & Hn & Hother
          & Hd1 & Hd2 & Hd3 & Hp).
    fold addr in Hres, Hn, Hother.
    assert (Hnonce1 : funding_nonce (self st1) addr
                      = (λ n, n + 1) <$> funding_nonce p addr).
    { unfold funding_nonce at 1. rewrite Hn1.
      destruct (funding_nonce p addr) as [n|] eqn:Hp0; cbn.
      - by rewrite lookup_insert_eq.
      - exact Hp0. }
    assert (Hother1 : ∀ other, other ≠ addr →
              funding_nonce (self st1) other = funding_nonce p other).
    { intros other Hne. unfold funding_nonce at 1. rewrite Hn1.
      destruct (funding_nonce p addr) as [n|]; [|done].
      by rewrite lookup_insert_ne. }
    set (ok1 := (if out.1 then 1 else 0)%nat).
    assert (HS1 : count_events is_accepted evs1 = ok1) by exact Hacc1.
    exists st', (evs1 ++ evs), (ok1 + ok)%nat.
    split.
    { rewrite Hloop. subst a1 b1 ok1. cbn [length].
      destruct out.1; cbn [fst snd].
      - replace (a + 1 + Z.of_nat ok) with (a + Z.of_nat (1 + ok)) by lia.
        replace (S (length rest) - (1 + ok))%nat with (length rest - ok)%nat by lia.
        done.
      - replace (b + 1 + Z.of_nat (length rest - ok))
          with (b + Z.of_nat (S (length rest) - (0 + ok))) by lia.
        done. }
    split; [subst ok1; cbn [length]; destruct out.1; lia|].
    split; [by rewrite count_events_app, HS1, HSacc|].
    split; [by rewrite Htr, Htr1, <- app_assoc|].
    split.
    { rewrite reservations_app, Hres1, Hres, Hnonce1.
      destruct (funding_nonce p addr) as [n|]; cbn [fmap option_fmap option_map];
        [|done].
      cbn [length seq fmap list_fmap app]. rewrite Z.add_0_r. f_equal.
      rewrite <- fmap_S_seq, <- list_fmap_compose.
      apply list_fmap_ext. intros i k _. cbn. f_equal. lia. }
    split; [rewrite broadcasts_app, length_app; cbn [length]; lia|].
    split.
    { rewrite Hn, Hnonce1. destruct (funding_nonce p addr); cbn; [|done].
      f_equal. lia. }
    split; [intros other Hne; by rewrite Hother, Hother1|].
    split; [rewrite Hd1, Hc1; subst ok1; destruct out.1; lia|].
    split; [rewrite Hd2, Hc2; subst ok1; destruct out.1; lia|].
    split; [rewrite Hd3, Hc3; subst ok1; cbn [length]; destruct out.1; lia|].
    by eapply same_plan_trans.
Qed.

Lemma fund_sequential_worker_run funding_account (st : St Process) :
  let addr := address funding_account in
  let p := self st in
  let targets := scheduled p funding_account in
  ∃ st' evs (ok : nat),
    fund_sequential_worker to_checksum_address funding_account st
    = (Return (Z.of_nat ok, Z.of_nat (length targets - ok)), st')
    ∧ (ok ≤ length targets)%nat
    ∧ ok = count_events is_accepted evs
    ∧ trace st' = trace st ++ evs
    ∧ reservations evs
      = match funding_nonce p addr with
        | Some n => (λ k, (addr, n + Z.of_nat k)) <$> seq 0 (length targets)
        | None => []
        end
    ∧ (length (broadcasts evs) ≤ length targets)%nat
    ∧ funding_nonce (self st') addr
      = (λ n, n + Z.of_nat (length targets)) <$> funding_nonce p addr
    ∧ (∀ other, other ≠ addr →
         funding_nonce (self st') other = funding_nonce p other)
    ∧ funding_attempts (self st') = funding_attempts p + Z.of_nat ok
    ∧ successful_fundings (self st') = successful_fundings p + Z.of_nat ok
    ∧ failed_fundings (self st')
      = failed_fundings p + Z.of_nat (length targets - ok)
    ∧ same_plan p (self st').
Proof.
  intros addr p targets. unfold fund_sequential_worker.
  unfold bind at 1, read_self at 1. unfold bind at 1, update_self at 1.
  fold p. fold targets. set (st0 := mkSt _ _ _).
  assert (Hp0 : same_plan p (self st0)).
  { subst st0. cbn. repeat split. intros key. cbn.
    apply targets_of_touch. }
  destruct (worker_loop_run funding_account targets st0 0 0)
    as (st' & evs & ok & Hloop & HS & HSacc & Htr & Hres & Hb & Hn & Hother
        & Hd1 & Hd2 & Hd3 & Hp).
  exists st', evs, ok. rewrite Hloop. split; [done|].
  split; [done|]. split; [done|]. split; [done|]. split; [done|].
  split; [done|]. split; [done|]. split; [done|]. split; [done|].
  split; [done|]. split; [done|]. by eapply same_plan_trans.
Qed.

(** The loop over the funding accounts, with pairwise different
    addresses: one worker per funder. *)
Lemma process_loop_run funders : ∀ (st : St Process) totals,
  let p := self st in
  NoDup (address <$> funders) →
  ∃ st' evs (ok : nat),
    process_loop to_checksum_address funders totals st
    = (Return (totals.1.1 + Z.of_nat (length funders),
               totals.1.2 + Z.of_nat ok,
               totals.2 + Z.of_nat (scheduled_total p funders - ok)), st')
    ∧ (ok ≤ scheduled_total p funders)%nat
    ∧ ok = count_events is_accepted evs
    ∧ trace st' = trace st ++ evs
    ∧ ((∀ f, f ∈ funders → is_Some (funding_nonce p (address f))) →
       length (reservations evs) = scheduled_total p funders)
    ∧ (length (reservations evs) ≤ scheduled_total p funders)%nat
    ∧ (length (broadcasts evs) ≤ scheduled_total p funders)%nat
    ∧ (∀ f, f ∈ funders →
         funding_nonce (self st') (address f)
         = (λ n, n + Z.of_nat (length (scheduled p f)))
             <$> funding_nonce p (address f))
    ∧ (∀ other, other ∉ address <$> funders →
         funding_nonce (self st') other = funding_nonce p other)
    ∧ funding_attempts (self st') = funding_attempts p + Z.of_nat ok
    ∧ successful_fundings (self st') = successful_fundings p + Z.of_nat ok
    ∧ failed_fundings (self st')
      = failed_fundings p + Z.of_nat (scheduled_total p funders - ok)
    ∧ same_plan p (self st').
Proof.
  induction funders as [|f rest IH]; intros st totals p Hnd.
  - exists st, [], 0%nat. cbn. rewrite app_nil_r, !Z.add_0_r. fold p.
    destruct totals as [[c a] b]. cbn.
    split; [done|]. split; [done|]. split; [done|]. split; [done|].
    split; [done|]. split; [done|]. split; [done|].
    split; [intros g Hg; by apply elem_of_nil in Hg|].
    split; [done|]. split; [done|]. split; [done|]. split; [done|].
    apply same_plan_refl.
  - rewrite fmap_cons in Hnd. apply NoDup_cons in Hnd as [Hf Hnd].
    cbn [process_loop]. unfold bind at 1. unfold try_except. unfold bind at 1.
    destruct (fund_sequential_worker_run f st)
      as (st1 & evs1 & ok1 & Hrun & HS1 & HSacc1 & Htr1 & Hres1 & Hb1 & Hn1
          & Hother1 & Hc1 & Hc2 & Hc3 & Hp1).
    fold p in Hres1, Hn1, Hother1, Hc1, Hc2, Hc3, Hp1, HS1, Hb1, Hrun.
    rewrite Hrun. unfold ret at 1. cbn [fst snd].
    set (totals1 := (totals.1.1 + 1, totals.1.2 + Z.of_nat ok1,
                     totals.2 + Z.of_nat (length (scheduled p f) - ok1))).
    destruct (IH st1 totals1 Hnd)
      as (st' & evs & ok & Hloop & HS & HSacc & Htr & Hall & Hrl & Hb & Hn
          & Hother & Hd1 & Hd2 & Hd3 & Hp).
    rewrite (scheduled_total_same_plan p (self st1) rest Hp1)
      in Hloop, HS, Hall, Hrl, Hb, Hd3.
    assert (Htotal : scheduled_total p (f :: rest)
                     = (length (scheduled p f) + scheduled_total p rest)%nat).
    { reflexivity. }
    assert (Hlen1 : (length (reservations evs1) ≤ length (scheduled p f))%nat).
    { rewrite Hres1. destruct (funding_nonce p (address f)); cbn; [|lia].
      by rewrite length_fmap, length_seq. }
    exists st', (evs1 ++ evs), (ok1 + ok)%nat.
    rewrite Htotal.
    split.
    { rewrite Hloop. subst totals1. cbn [fst snd length].
      replace (totals.1.1 + 1 + Z.of_nat (length rest))
        with (totals.1.1 + Z.of_nat (S (length rest))) by lia.
      replace (totals.1.2 + Z.of_nat ok1 + Z.of_nat ok)
        with (totals.1.2 + Z.of_nat (ok1 + ok)) by lia.
      replace (totals.2 + Z.of_nat (length (scheduled p f) - ok1)
               + Z.of_nat (scheduled_total p rest - ok))
        with (totals.2 + Z.of_nat (length (scheduled p f)
                                   + scheduled_total p rest - (ok1 + ok))) by lia.
      done. }
    split; [lia|].
    split; [by rewrite count_events_app, HSacc1, HSacc|].
    split; [by rewrite Htr, Htr1, <- app_assoc|].
    rewrite reservations_app, broadcasts_app, !length_app.
    split.
    { intros Hsome. rewrite Hall.
      - rewrite Hres1.
        destruct (Hsome f) as [n Hn0]; [by left|]. rewrite Hn0.
        by rewrite length_fmap, length_seq.
      - intros g Hg. rewrite Hother1.
        + apply Hsome. by right.
        + intros Heq. apply Hf. rewrite <- Heq. by apply list_elem_of_fmap_2. }
    split; [lia|]. split; [lia|].
    split.
    { intros g Hg. apply elem_of_cons in Hg as [->|Hg].
      - rewrite Hother by done. exact Hn1.
      - rewrite (Hn g Hg), (same_plan_scheduled p (self st1) g Hp1).
        rewrite Hother1; [done|].
        intros Heq. apply Hf. rewrite <- Heq. by apply list_elem_of_fmap_2. }
    split.
    { intros other Hnot. rewrite fmap_cons in Hnot.
      apply not_elem_of_cons in Hnot as [Hne Hnot].
      rewrite Hother by done. by apply Hother1. }
    split; [lia|]. split; [lia|]. split; [lia|].
    by eapply same_plan_trans.
Qed.

End FundingFacts.

(** ** The funding schedule, funder by funder *)
Section ScheduleFacts.
Context `{Api : Web3Api}.
Local Open Scope engine_scope.
Import Funder.

(** The first loop leaves a counter for every funding account, and only
    reads. *)
Lemma fetch_nonces_entries l : ∀ st : St Script,
  ∃ st' evs,
    for_each fetch_nonce l st = (Return tt, st')
    ∧ trace st' = trace st ++ evs
    ∧ reservations evs = []
    ∧ broadcasts evs = []
    ∧ count_events is_accepted evs = 0%nat
    ∧ same_accounts (self st) (self st')
    ∧ funding_schedule (self st') = funding_schedule (self st)
    ∧ w3 (self st') = w3 (self st)
    ∧ (∀ addr, is_Some (funding_nonces (self st) !! addr) →
         is_Some (funding_nonces (self st') !! addr))
    ∧ (∀ a, a ∈ l → is_Some (funding_nonces (self st') !! address a)).
Proof.
  induction l as [|a l IH]; intros st.
  - exists st, []. rewrite app_nil_r. repeat split; try done.
    intros a Ha. by apply elem_of_nil in Ha.
  - cbn [for_each]. unfold bind at 1.
    assert (Hone : ∃ st1 evs1,
      fetch_nonce a st = (Return tt, st1)
      ∧ trace st1 = trace st ++ evs1
      ∧ reservations evs1 = [] ∧ broadcasts evs1 = []
      ∧ count_events is_accepted evs1 = 0%nat
      ∧ same_accounts (self st) (self st1)
      ∧ funding_schedule (self st1) = funding_schedule (self st)
      ∧ w3 (self st1) = w3 (self st)
      ∧ (∀ addr, is_Some (funding_nonces (self st) !! addr) →
           is_Some (funding_nonces (self st1) !! addr))
      ∧ is_Some (funding_nonces (self st1) !! address a)).
    { unfold fetch_nonce, try_except, read_count, rpc, emit, lift, update_self,
        read_self, ret, throw, bind. cbn.
      assert (Hins : ∀ v addr,
                is_Some (funding_nonces (self st) !! addr) →
                is_Some (<[address a := v]> (funding_nonces (self st)) !! addr)).
      { intros v addr Hsome. destruct (decide (address a = addr)) as [<-|Hne].
        - rewrite lookup_insert_eq. by eexists.
        - by rewrite lookup_insert_ne. }
      destruct (w3 (self st)) as [w|] eqn:Hw; cbn.
      - destruct (get_transaction_count (world st) w (address a))
          as [w1 [v|e]]; cbn;
          eexists _, [_]; (split; [reflexivity|]); cbn;
          rewrite lookup_insert_eq; repeat split; try done;
          try (by eexists); apply Hins.
      - eexists _, []. split; [reflexivity|]. cbn.
        rewrite app_nil_r, lookup_insert_eq. repeat split; try done;
          try (by eexists); apply Hins. }
    destruct Hone as (st1 & evs1 & -> & Htr1 & Hr1 & Hb1 & Ha1 & [Hf1 Ht1]
                      & Hs1 & Hw1 & Hk1 & Hin1).
    destruct (IH st1) as (st' & evs & -> & Htr & Hr & Hb & Ha & [Hf Ht]
                          & Hs & Hw & Hk & Hin).
    exists st', (evs1 ++ evs). split; [done|].
    split; [by rewrite Htr, Htr1, <- app_assoc|].
    split; [by rewrite reservations_app, Hr1, Hr|].
    split; [by rewrite broadcasts_app, Hb1, Hb|].
    split; [by rewrite count_events_app, Ha1, Ha|].
    split; [split; congruence|]. split; [congruence|]. split; [congruence|].
    split; [intros addr Hsome; by apply Hk, Hk1|].
    intros b Hb'. apply elem_of_cons in Hb' as [->|Hb']; [by apply Hk|by apply Hin].
Qed.

(** The scheduling and the summary loops touch the schedule only. *)
Lemma schedule_targets_frame entries : ∀ st : St Script,
  ∃ r st',
    for_each schedule_target entries st = (r, st')
    ∧ funding_nonces (self st') = funding_nonces (self st)
    ∧ w3 (self st') = w3 (self st)
    ∧ trace st' = trace st.
Proof.
  induction entries as [|[i t] entries IH]; intros st.
  - by exists (Return tt), st.
  - cbn [for_each]. unfold bind at 1.
    assert (Hstep : ∃ r1 st1,
      schedule_target (i, t) st = (r1, st1)
      ∧ funding_nonces (self st1) = funding_nonces (self st)
      ∧ w3 (self st1) = w3 (self st)
      ∧ trace st1 = trace st).
    { unfold schedule_target, bind, read_self, throw, update_self.
      case_decide; [by eexists _, _|].
      destruct (funding_accounts (self st) !! _) as [f|]; by eexists _, _. }
    destruct Hstep as (r1 & st1 & -> & Hn1 & Hw1 & Htr1).
    destruct r1 as [[]|e].
    + destruct (IH st1) as (r & st' & -> & Hn & Hw & Htr).
      exists r, st'. repeat split; congruence.
    + by exists (Raise e), st1.
Qed.

Lemma log_funders_frame l : ∀ st : St Script,
  ∃ r st',
    for_each log_funder l st = (r, st')
    ∧ funding_nonces (self st') = funding_nonces (self st)
    ∧ w3 (self st') = w3 (self st)
    ∧ trace st' = trace st.
Proof.
  induction l as [|a l IH]; intros st.
  - by exists (Return tt), st.
  - cbn [for_each]. unfold bind at 1, log_funder at 1, update_self at 1.
    match goal with |- context [for_each log_funder l ?x] =>
      destruct (IH x) as (r & st' & -> & Hn & Hw & Htr) end.
    by exists r, st'.
Qed.

(** [load_accounts] and [initialize_funding_nonces_and_schedule] on a
    file of at least 2000 accounts. *)
Lemma funding_pipeline_run (content : list Account) (st : St Script) :
  let F := take 200 content in
  let T := take 1800 (drop 200 content) in
  (2000 ≤ length content)%nat →
  ∃ st' evs,
    (load_accounts (Some content) >> initialize_funding_nonces_and_schedule) st
    = (Return tt, st')
    ∧ trace st' = trace st ++ evs
    ∧ reservations evs = []
    ∧ broadcasts evs = []
    ∧ count_events is_accepted evs = 0%nat
    ∧ funding_accounts (self st') = F
    ∧ target_accounts (self st') = T
    ∧ w3 (self st') = w3 (self st)
    ∧ (∀ key, targets_of (funding_schedule (self st')) key
              = targets_of (funding_schedule (self st)) key
                ++ assigned F key (imap pair T))
    ∧ (∀ f, f ∈ F → is_Some (funding_nonces (self st') !! address f)).
Proof.
  intros F T Hlen.
  assert (HlenF : length F = 200%nat).
  { unfold F. rewrite length_take. lia. }
  set (st1 := mkSt (set_split F T (set_all_accounts content (self st)))
                (world st) (trace st)).
  assert (Hload : load_accounts (Some content) st = (Return tt, st1)).
  { unfold load_accounts, bind, update_self.
    destruct (length content <? 2000)%nat eqn:Hlt; [|reflexivity].
    apply Nat.ltb_lt in Hlt. lia. }
  destruct (fetch_nonces_entries F st1)
    as (st2 & evs & Hrun2 & Htr2 & Hr2 & Hb2 & Ha2 & [Hf2 Ht2] & Hs2 & Hw2
        & _ & Hin2).
  destruct (schedule_targets_run (imap pair T) st2)
    as (st3 & Hrun3 & [Hf3 Ht3] & Hs3).
  { rewrite Hf2. cbn. intros HF. by rewrite HF in HlenF. }
  destruct (schedule_targets_frame (imap pair T) st2)
    as (r3 & st3' & Heq3 & Hn3 & Hw3 & Htr3).
  rewrite Hrun3 in Heq3. injection Heq3 as <- <-.
  destruct (log_funders_run (take 5 F) st3) as (st4 & Hrun4 & [Hf4 Ht4] & Hs4).
  destruct (log_funders_frame (take 5 F) st3)
    as (r4 & st4' & Heq4 & Hn4 & Hw4 & Htr4).
  rewrite Hrun4 in Heq4. injection Heq4 as <- <-.
  exists st4, evs. split.
  { unfold bind at 1. rewrite Hload.
    unfold initialize_funding_nonces_and_schedule.
    unfold bind at 1. unfold read_self at 1.
    change (funding_accounts (self st1)) with F.
    change (target_accounts (self st1)) with T.
    unfold bind at 1. rewrite Hrun2. unfold bind at 1. rewrite Hrun3.
    unfold bind at 1. rewrite Hrun4.
    case_decide as H0; [by rewrite HlenF in H0 | done]. }
  split; [by rewrite Htr4, Htr3, Htr2|]. split; [done|]. split; [done|].
  split; [done|]. split; [by rewrite Hf4, Hf3, Hf2|].
  split; [by rewrite Ht4, Ht3, Ht2|]. split; [by rewrite Hw4, Hw3, Hw2|].
  split.
  - intros key. rewrite Hs4, Hs3, Hs2, Hf2. done.
  - intros f Hf. rewrite Hn4, Hn3. by apply Hin2.
Qed.

End ScheduleFacts.

(** The targets of one funder among entries numbered from [off]: with
    pairwise different funder addresses, the positions congruent to the
    funder's own position. *)
Section Stride.
Import Funder.
Variables (F : list Account) (key : string) (j : nat).
Hypothesis Hj : (j < length F)%nat.
Hypothesis Hkey : ∀ i, (i < length F)%nat →
  (address <$> F !! i = Some key ↔ i = j).

Lemma imap_shift {A} (T : list A) off :
  imap ((λ i, pair (off + i)%nat) ∘ S) T = imap (λ i, pair (S off + i)%nat) T.
Proof. apply imap_ext. intros i x _. cbn. f_equal. lia. Qed.

Lemma assigned_none T : ∀ off,
  (∀ i, (i < length T)%nat → ((off + i) `mod` length F)%nat ≠ j) →
  assigned F key (imap (λ i, pair (off + i)%nat) T) = [].
Proof.
  induction T as [|t T IH]; intros off Hno; [done|].
  cbn [imap]. rewrite assigned_cons, imap_shift, IH.
  - case_decide as Hd; [|done]. exfalso.
    apply Hkey in Hd; [|apply Nat.mod_upper_bound; lia].
    apply (Hno 0%nat); [cbn; lia|done].
  - intros i Hi. replace (S off + i)%nat with (off + S i)%nat by lia.
    apply Hno. cbn. lia.
Qed.

Lemma assigned_app T1 T2 off :
  assigned F key (imap (λ i, pair (off + i)%nat) (T1 ++ T2))
  = assigned F key (imap (λ i, pair (off + i)%nat) T1)
    ++ assigned F key (imap (λ i, pair (off + length T1 + i)%nat) T2).
Proof.
  rewrite imap_app. unfold assigned. rewrite filter_app, fmap_app.
  f_equal. f_equal. f_equal. apply imap_ext. intros i x _. cbn. f_equal. lia.
Qed.

(** One block of [length F] entries holds exactly one target of the
    funder, at the funder's position. *)
Lemma assigned_block B off t :
  length B = length F →
  (off `mod` length F = 0)%nat →
  B !! j = Some t →
  assigned F key (imap (λ i, pair (off + i)%nat) B) = [t].
Proof.
  intros HB Hoff Ht.
  assert (Hmod : ∀ i, (i < length F)%nat → ((off + i) `mod` length F = i)%nat).
  { intros i Hi. rewrite <- Nat.Div0.add_mod_idemp_l, Hoff. cbn.
    by apply Nat.mod_small. }
  rewrite <- (take_drop_middle B j t Ht).
  assert (Htake : length (take j B) = j).
  { rewrite length_take. lia. }
  rewrite assigned_app, Htake.
  change (t :: drop (S j) B) with ([t] ++ drop (S j) B).
  rewrite assigned_app. cbn [length].
  rewrite (assigned_none (take j B)).
  2:{ intros i Hi. rewrite Htake in Hi. rewrite Hmod by lia. lia. }
  rewrite (assigned_none (drop (S j) B)).
  2:{ intros i Hi. rewrite length_drop in Hi.
      replace (off + j + 1 + i)%nat with (off + (j + 1 + i))%nat by lia.
      rewrite Hmod by lia. lia. }
  cbn [imap]. rewrite assigned_cons. cbn.
  replace (off + j + 0)%nat with (off + j)%nat by lia.
  rewrite Hmod by done. case_decide as Hd; [done|].
  exfalso. apply Hd. by apply Hkey.
Qed.

(** Over [q] blocks: the [k]-th target of the funder is at position
    [j + k * length F]. *)
Lemma assigned_stride q : ∀ T off,
  length T = (q * length F)%nat →
  (off `mod` length F = 0)%nat →
  length (assigned F key (imap (λ i, pair (off + i)%nat) T)) = q
  ∧ ∀ k, (k < q)%nat →
      assigned F key (imap (λ i, pair (off + i)%nat) T) !! k
      = T !! (j + k * length F)%nat.
Proof.
  induction q as [|q IH]; intros T off HT Hoff.
  - cbn in HT. apply nil_length_inv in HT as ->. split; [done|]. lia.
  - rewrite <- (take_drop (length F) T).
    assert (Htake : length (take (length F) T) = length F).
    { rewrite length_take. cbn in HT. lia. }
    destruct (lookup_lt_is_Some_2 (take (length F) T) j) as [t Ht]; [lia|].
    rewrite assigned_app, Htake, (assigned_block _ off t Htake Hoff Ht).
    destruct (IH (drop (length F) T) (off + length F)%nat) as [Hlen Hk].
    { rewrite length_drop. cbn in HT. lia. }
    { rewrite <- Nat.Div0.add_mod_idemp_r, Nat.Div0.mod_same, Nat.add_0_r.
      done. }
    split; [cbn; by rewrite Hlen|].
    intros [|k] Hlt.
    + cbn. rewrite Nat.add_0_r, lookup_app_l by lia. done.
    + cbn [app lookup list_lookup]. rewrite Hk by lia.
      rewrite lookup_app_r by lia. f_equal. rewrite Htake. cbn. lia.
Qed.

End Stride.

Section FundingRunFacts.
Context `{Api : Web3Api}.
Variable to_checksum_address : string → result string.
Local Open Scope engine_scope.
Import FundingProcess.

Lemma on_funder_run {A} (m : M Funder.Script A) (st : St Process) :
  on_funder m st
  = let '(r, st1) := m (mkSt (funder (self st)) (world st) (trace st)) in
    (r, mkSt (set_funder (self st1) (self st)) (world st1) (trace st1)).
Proof. reflexivity. Qed.

Lemma sum_list_const {A} (g : A → nat) (c : nat) (l : list A) :
  (∀ x, x ∈ l → g x = c) → sum_list (g <$> l) = (length l * c)%nat.
Proof.
  induction l as [|x l IH]; intros Hg; [done|].
  cbn. rewrite (Hg x) by by left. rewrite IH; [done|].
  intros y Hy. apply Hg. by right.
Qed.

(** The targets of the funder at position [j] after the two
    initialisation steps on a file of at least 2000 accounts with
    pairwise different addresses. *)
Lemma every_200th_target (content : list Account)
    (schedule : gmap string (list Account)) j f :
  let F := take 200 content in
  let T := take 1800 (drop 200 content) in
  (2000 ≤ length content)%nat →
  NoDup (address <$> content) →
  F !! j = Some f →
  (∀ key, Funder.targets_of schedule key
          = Funder.assigned F key (imap pair T)) →
  length (Funder.targets_of schedule (address f)) = 9%nat
  ∧ ∀ k, (k < 9)%nat →
      Funder.targets_of schedule (address f) !! k
      = content !! (200 + j + k * 200)%nat.
Proof.
  intros F T Hlen Hnd Hf Hs.
  assert (HlenF : length F = 200%nat).
  { unfold F. rewrite length_take. lia. }
  assert (HlenT : length T = (9 * length F)%nat).
  { unfold T. rewrite HlenF, length_take, length_drop. lia. }
  assert (Hj : (j < length F)%nat) by by apply lookup_lt_Some in Hf.
  assert (HndF : NoDup (address <$> F)).
  { apply (sublist_NoDup _ (address <$> content)); [done|].
    apply fmap_sublist, sublist_take. }
  assert (Hkey : ∀ i, (i < length F)%nat →
            (address <$> F !! i = Some (address f) ↔ i = j)).
  { intros i Hi. split.
    - intros Heq. eapply (NoDup_lookup (address <$> F)); [done| |].
      + by rewrite list_lookup_fmap.
      + by rewrite list_lookup_fmap, Hf.
    - intros ->. by rewrite Hf. }
  destruct (assigned_stride F (address f) j Hj Hkey 9 T 0 HlenT) as [H9 Hk].
  { by apply Nat.Div0.mod_0_l. }
  rewrite Hs. split; [exact H9|].
  intros k Hlt. etrans; [exact (Hk k Hlt)|]. unfold T.
  rewrite lookup_take_lt, lookup_drop by lia. f_equal. lia.
Qed.

End FundingRunFacts.

(** ** What the funding process signs *)
Section SignedTransferFacts.
Context `{Api : Web3Api}.
Variable to_checksum_address : string → result string.
Local Open Scope engine_scope.
Import FundingProcess.








End SignedTransferFacts.

(** X16: a funding account needs its nonce counter. [get_next_nonce] of
    quick_funding.py reads a plain dict: for a funding address without
    counter, [fund_single_target] fails at once, having reserved and sent
    nothing; only [failed_fundings] grows. With a counter [n], the
    transfer reserves [n] exactly once and leaves [n + 1], whatever the
    outcome, makes at most one broadcast, and counts a success exactly
    when the node accepted it. The call never raises. *)
Theorem transfer_needs_the_nonce_counter `{Api : Web3Api}
    (to_checksum_address : string → result string)
    (target_account funding_account : Account)
    (st : St FundingProcess.Process) :
  let run := FundingProcess.fund_single_target to_checksum_address
               target_account funding_account st in
  let addr := address funding_account in
  let p := self st in
  let p' := self run.2 in
  let evs := new_events st run.2 in
  ∃ success tx_hash,
    run.1 = Return (success, tx_hash)
    ∧ match FundingProcess.funding_nonce p addr with
      | None =>
          success = false ∧ evs = []
          ∧ FundingProcess.funding_nonce p' addr = None
      | Some n =>
          reservations evs = [(addr, n)]
          ∧ FundingProcess.funding_nonce p' addr = Some (n + 1)
          ∧ (length (broadcasts evs) ≤ 1)%nat
          ∧ count_events is_accepted evs = (if success then 1 else 0)%nat
      end
    ∧ FundingProcess.funding_attempts p'
      = FundingProcess.funding_attempts p + (if success then 1 else 0)
    ∧ FundingProcess.successful_fundings p'
      = FundingProcess.successful_fundings p + (if success then 1 else 0)
    ∧ FundingProcess.failed_fundings p'
      = FundingProcess.failed_fundings p + (if success then 0 else 1).
Proof.
  intros run addr p p' evs. subst run p' evs.
  destruct (fund_single_effect to_checksum_address target_account
              funding_account st)
    as ([success tx_hash] & st' & evs & -> & Htr & Hres & Hn & Hb & Hnone & Hacc
        & Hc1 & Hc2 & Hc3 & _).
  fold addr p in Hres, Hn, Hnone, Hc1, Hc2, Hc3.
  cbn [fst snd] in *. rewrite (new_events_app _ _ _ Htr).
  exists success, tx_hash. split; [done|]. split; [|done].
  unfold FundingProcess.funding_nonce at 2 3. rewrite Hn.
  destruct (FundingProcess.funding_nonce p addr) as [n|] eqn:Hp.
  - split; [done|]. split; [by rewrite lookup_insert_eq|]. by split.
  - specialize (Hnone eq_refl). subst evs. split; [|by split].
    cbn in Hacc. by destruct success.
Qed.

(** X17: the schedule gives every funding account every 200th target.
    After [load_accounts] and [initialize_funding_nonces_and_schedule]
    on a file of at least 2000 accounts with pairwise different
    addresses, the funder at position [j] of the file has a nonce counter
    and exactly 9 targets, in this order: the accounts at positions
    [200 + j], [400 + j], ..., [1800 + j] of the file. *)
Theorem every_funder_gets_every_200th_target `{Api : Web3Api}
    (content : list Account) (node : option Web3) (w : World)
    (j : nat) (f : Account) :
  let st := mkSt (Funder.init node) w [] in
  let run := (Funder.load_accounts (Some content) >>
              Funder.initialize_funding_nonces_and_schedule)%engine st in
  let s' := self run.2 in
  let scheduled := Funder.targets_of (Funder.funding_schedule s') (address f) in
  (2000 ≤ length content)%nat →
  NoDup (address <$> content) →
  Funder.funding_accounts s' !! j = Some f →
  content !! j = Some f
  ∧ length scheduled = 9%nat
  ∧ (∀ k, (k < 9)%nat → scheduled !! k = content !! (200 + j + k * 200)%nat)
  ∧ is_Some (Funder.funding_nonces s' !! address f).
Proof.
  intros st run s' scheduled Hlen Hnd. subst scheduled s' run.
  destruct (funding_pipeline_run content st Hlen)
    as (st' & evs & -> & _ & _ & _ & _ & HF & _ & _ & Hs & Hin).
  cbn [snd]. rewrite HF. intros Hf.
  assert (Hs' : ∀ key, Funder.targets_of (Funder.funding_schedule (self st')) key
                = Funder.assigned (take 200 content) key
                    (imap pair (take 1800 (drop 200 content)))).
  { intros key. rewrite Hs. unfold Funder.targets_of at 1. cbn.
    by rewrite lookup_empty. }
  destruct (every_200th_target content _ j f Hlen Hnd Hf Hs') as [H9 Hk].
  split.
  { rewrite lookup_take_lt in Hf; [done|].
    apply lookup_lt_Some in Hf. rewrite length_take in Hf. lia. }
  split; [done|]. split; [done|].
  apply Hin. by eapply list_elem_of_lookup_2.
Qed.

Lemma every_funder_gets_every_200th_target_witness :
  let content := Scenario.generated_accounts in
  let f := Scenario.numbered_account 3 in
  let st := @mkSt Scenario.healthy _ (Funder.init (Some Scenario.node_a))
              (Scenario.mkNodes [] ∅) [] in
  let run := (Funder.load_accounts (Some content) >>
              Funder.initialize_funding_nonces_and_schedule)%engine st in
  let s' := self run.2 in
  let scheduled := Funder.targets_of (Funder.funding_schedule s') (address f) in
  content !! 3%nat = Some f
  ∧ length scheduled = 9%nat
  ∧ (∀ k, (k < 9)%nat → scheduled !! k = content !! (200 + 3 + k * 200)%nat)
  ∧ is_Some (Funder.funding_nonces s' !! address f).
Proof.
  assert (Hlen : (2000 ≤ length Scenario.generated_accounts)%nat).
  { unfold Scenario.generated_accounts. rewrite length_fmap, length_seq. lia. }
  assert (Hnd : NoDup (address <$> Scenario.generated_accounts)).
  { unfold Scenario.generated_accounts. rewrite <- list_fmap_compose.
    apply NoDup_fmap_2; [|apply NoDup_seq].
    intros i j Hij. cbn in Hij. injection Hij as Hij.
    change ("" +:+ pretty i) with (pretty i) in Hij.
    change ("" +:+ pretty j) with (pretty j) in Hij.
    by apply (inj pretty) in Hij. }
  refine (every_funder_gets_every_200th_target (Api := Scenario.healthy)
            Scenario.generated_accounts (Some Scenario.node_a)
            (Scenario.mkNodes [] ∅) 3 (Scenario.numbered_account 3) Hlen Hnd _).
  destruct (funding_pipeline_run (Api := Scenario.healthy)
              Scenario.generated_accounts
              (@mkSt Scenario.healthy _ (Funder.init (Some Scenario.node_a))
                 (Scenario.mkNodes [] ∅) []) Hlen)
    as (st' & evs & Hrun & _ & _ & _ & _ & HF & _).
  rewrite Hrun. cbn [snd]. rewrite HF. by vm_compute.
Defined.



Section FundingRunSteps.
Context `{Api : Web3Api}.
Variable to_checksum_address : string → result string.
Local Open Scope engine_scope.
Import FundingProcess.

(** The three steps of [run] in a row, on a file of at least 2000
    accounts with pairwise different addresses. *)
Lemma funding_run_steps (content : list Account) (st : St Process) :
  let p := self st in
  (2000 ≤ length content)%nat →
  NoDup (address <$> content) →
  Funder.funding_schedule (funder p) = ∅ →
  is_Some (Funder.w3 (funder p)) →
  ∃ st' evs (ok : nat),
    (on_funder (Funder.load_accounts (Some content) >>
                Funder.initialize_funding_nonces_and_schedule) >>
     sequential_funding_totals to_checksum_address) st
    = (Return (200, Z.of_nat ok, Z.of_nat (1800 - ok)), st')
    ∧ trace st' = trace st ++ evs
    ∧ ok = count_events is_accepted evs
    ∧ (ok ≤ 1800)%nat
    ∧ length (reservations evs) = 1800%nat
    ∧ (length (broadcasts evs) ≤ 1800)%nat
    ∧ funding_attempts (self st') = funding_attempts p + Z.of_nat ok
    ∧ successful_fundings (self st') = successful_fundings p + Z.of_nat ok
    ∧ failed_fundings (self st') = failed_fundings p + Z.of_nat (1800 - ok)
    ∧ Funder.funding_accounts (funder (self st')) = take 200 content
    ∧ Funder.target_accounts (funder (self st')) = take 1800 (drop 200 content).
Proof.
  intros p Hlen Hnd Hempty [w Hw].
  set (F := take 200 content). set (T := take 1800 (drop 200 content)).
  destruct (funding_pipeline_run content
              (mkSt (funder p) (world st) (trace st)) Hlen)
    as (st1 & evs1 & Hrun1 & Htr1 & Hr1 & Hb1 & Ha1 & HF & HT & Hw1 & Hs1 & Hin1).
  cbn [self trace] in Htr1, Hw1, Hs1. fold F in HF, Hs1, Hin1. fold T in HT, Hs1.
  set (st2 := mkSt (set_funder (self st1) p) (world st1) (trace st1)).
  assert (HlenF : length F = 200%nat).
  { unfold F. rewrite length_take. lia. }
  assert (HndF : NoDup (address <$> F)).
  { apply (sublist_NoDup _ (address <$> content)); [done|].
    apply fmap_sublist, sublist_take. }
  assert (Hsched : ∀ key,
            Funder.targets_of (Funder.funding_schedule (funder (self st2))) key
            = Funder.assigned F key (imap pair T)).
  { intros key. cbn. rewrite Hs1, Hempty. unfold Funder.targets_of at 1.
    by rewrite lookup_empty. }
  assert (Htotal : scheduled_total (self st2) F = 1800%nat).
  { unfold scheduled_total. rewrite (sum_list_const _ 9); [lia|].
    intros f [j Hf]%list_elem_of_lookup. unfold scheduled.
    by destruct (every_200th_target content _ j f Hlen Hnd Hf Hsched). }
  destruct (process_loop_run to_checksum_address F st2 (0, 0, 0) HndF)
    as (st' & evs & ok & Hloop & Hok & Hacc & Htr & Hall & _ & Hb & _ & _
        & Hc1 & Hc2 & Hc3 & Hp).
  rewrite Htotal in Hloop, Hok, Hall, Hb, Hc3. rewrite HlenF in Hloop.
  exists st', (evs1 ++ evs), ok. split.
  { unfold bind at 1. rewrite on_funder_run. fold p. rewrite Hrun1.
    fold st2. unfold sequential_funding_totals, bind, read_self, ret.
    change (Funder.w3 (funder (self st2))) with (Funder.w3 (self st1)).
    rewrite Hw1, Hw.
    change (Funder.funding_accounts (funder (self st2)))
      with (Funder.funding_accounts (self st1)).
    rewrite HF. exact Hloop. }
  split; [rewrite Htr; change (trace st2) with (trace st1);
          by rewrite Htr1, <- app_assoc|].
  split; [by rewrite count_events_app, Ha1|]. split; [done|].
  split.
  { rewrite reservations_app, Hr1. cbn. apply Hall.
    intros f Hf. by apply Hin1. }
  split; [by rewrite broadcasts_app, Hb1|].
  split; [done|]. split; [done|]. split; [done|].
  destruct Hp as (Hp1 & Hp2 & _). split.
  - by rewrite Hp1.
  - by rewrite Hp2.
Qed.

End FundingRunSteps.

(** X19: the funding run as a whole. On a file of at least 2000 accounts
    with pairwise different addresses, [load_accounts],
    [initialize_funding_nonces_and_schedule] and
    [sequential_funding_process], in the order [run] calls them, do not
    raise: all 200 funding accounts are processed, exactly 1800 nonces are
    reserved, one per target, and at most 1800 broadcasts are made; the
    transfers the node accepted are counted in [funding_attempts] and
    [successful_fundings], the other ones in [failed_fundings], and the
    totals logged are these numbers. *)
Theorem funding_run_transfers_once_per_target `{Api : Web3Api}
    (to_checksum_address : string → result string)
    (content : list Account) (node : Web3) (chain : option Z) (amount : Z)
    (w : World) :
  let st := mkSt (FundingProcess.mkProcess (Funder.init (Some node)) chain
                    amount 0 0 0) w [] in
  let run := (FundingProcess.on_funder
                (Funder.load_accounts (Some content) >>
                 Funder.initialize_funding_nonces_and_schedule) >>
              FundingProcess.sequential_funding_totals to_checksum_address)%engine
               st in
  let p' := self run.2 in
  let evs := trace run.2 in
  let accepted := count_events is_accepted evs in
  (2000 ≤ length content)%nat →
  NoDup (address <$> content) →
  run.1 = Return (200, Z.of_nat accepted, Z.of_nat (1800 - accepted))
  ∧ (accepted ≤ 1800)%nat
  ∧ length (reservations evs) = 1800%nat
  ∧ (length (broadcasts evs) ≤ 1800)%nat
  ∧ FundingProcess.funding_attempts p' = Z.of_nat accepted
  ∧ FundingProcess.successful_fundings p' = Z.of_nat accepted
  ∧ FundingProcess.failed_fundings p' = Z.of_nat (1800 - accepted).
Proof.
  intros st run p' evs accepted Hlen Hnd. subst run p' evs accepted.
  destruct (funding_run_steps to_checksum_address content st Hlen Hnd)
    as (st' & evs & ok & -> & Htr & -> & Hok & Hres & Hb & Hc1 & Hc2 & Hc3 & _);
    [done|by eexists|].
  cbn [fst snd]. cbn [trace st app] in Htr. rewrite Htr.
  cbn in Hc1, Hc2, Hc3. by repeat (split; [done|]).
Qed.

Lemma funding_run_transfers_once_per_target_witness :
  let content := Scenario.generated_accounts in
  let st := @mkSt Scenario.healthy _
              (FundingProcess.mkProcess (Funder.init (Some Scenario.node_a))
                 (Some 1) 10 0 0 0) (Scenario.mkNodes [] ∅) [] in
  let run := (FundingProcess.on_funder
                (Funder.load_accounts (Some content) >>
                 Funder.initialize_funding_nonces_and_schedule) >>
              FundingProcess.sequential_funding_totals Return)%engine st in
  let accepted := count_events is_accepted (trace run.2) in
  ((2000 ≤ length content)%nat ∧ NoDup (address <$> content))
  ∧ run.1 = Return (200, Z.of_nat accepted, Z.of_nat (1800 - accepted))
  ∧ (accepted ≤ 1800)%nat
  ∧ length (reservations (trace run.2)) = 1800%nat
  ∧ (length (broadcasts (trace run.2)) ≤ 1800)%nat
  ∧ FundingProcess.funding_attempts (self run.2) = Z.of_nat accepted
  ∧ FundingProcess.successful_fundings (self run.2) = Z.of_nat accepted
  ∧ FundingProcess.failed_fundings (self run.2) = Z.of_nat (1800 - accepted).
Proof.
  assert (Hlen : (2000 ≤ length Scenario.generated_accounts)%nat).
  { unfold Scenario.generated_accounts. rewrite length_fmap, length_seq. lia. }
  assert (Hnd : NoDup (address <$> Scenario.generated_accounts)).
  { unfold Scenario.generated_accounts. rewrite <- list_fmap_compose.
    apply NoDup_fmap_2; [|apply NoDup_seq].
    intros i j Hij. cbn in Hij. injection Hij as Hij.
    change ("" +:+ pretty i) with (pretty i) in Hij.
    change ("" +:+ pretty j) with (pretty j) in Hij.
    by apply (inj pretty) in Hij. }
  split; [by split|].
  exact (funding_run_transfers_once_per_target (Api := Scenario.healthy) Return
           Scenario.generated_accounts Scenario.node_a (Some 1) 10
           (Scenario.mkNodes [] ∅) Hlen Hnd).
Defined.

(** ** The pool monitor: sampling *)
Section MonitorSamplingFacts.
Context `{Api : Web3Api}.
Local Open Scope engine_scope.
Import Monitor.

(** [range(start, stop, step)] with enough fuel: the multiples of
    [step] from [start] below [stop]. *)
Lemma range_from_spec step fuel : ∀ start stop,
  (0 < step)%nat →
  (stop ≤ start + fuel)%nat →
  let l := range_from fuel start stop step in
  (∀ k, (k < length l)%nat ↔ (start + k * step < stop)%nat)
  ∧ (∀ k x, l !! k = Some x → x = (start + k * step)%nat).
Proof.
  induction fuel as [|fuel IH]; intros start stop Hstep Hfuel l; subst l.
  - cbn. split; [intros k; lia|]. intros k x Hk. by rewrite lookup_nil in Hk.
  - cbn [range_from]. destruct (Nat.ltb_spec start stop) as [Hlt|Hge].
    + destruct (IH (start + step)%nat stop Hstep) as [Hlen Hl]; [lia|].
      split.
      * intros [|k]; cbn [length]; [lia|].
        specialize (Hlen k). rewrite Nat.mul_succ_l. lia.
      * intros [|k] x Hk; cbn in Hk.
        -- injection Hk as <-. lia.
        -- rewrite (Hl k x Hk), Nat.mul_succ_l. lia.
    + cbn. split; [intros k; nia|].
      intros k x Hk. by rewrite lookup_nil in Hk.
Qed.

(** The sampling loop over positions inside the file. *)
Lemma sample_positions_run (all_accounts : list Account) positions :
  ∀ st : St State,
  (∀ i, i ∈ positions → (i < length all_accounts)%nat) →
  ∃ st' sampled,
    for_each
      (λ i,
         match all_accounts !! i with
         | None => throw "list index out of range"
         | Some account =>
             update_self (λ s, set_monitored
               (monitored_accounts s
                ++ [mkMonitored (index account) (address account) i]) s)
         end) positions st
    = (Return tt, st')
    ∧ monitored_accounts (self st') = monitored_accounts (self st) ++ sampled
    ∧ nonce_history (self st') = nonce_history (self st)
    ∧ w3 (self st') = w3 (self st)
    ∧ trace st' = trace st
    ∧ length sampled = length positions
    ∧ ∀ k m, sampled !! k = Some m →
        ∃ i account,
          positions !! k = Some i ∧ all_accounts !! i = Some account
          ∧ m = mkMonitored (index account) (address account) i.
Proof.
  induction positions as [|i positions IH]; intros st Hin.
  - exists st, []. rewrite app_nil_r. repeat split; try done.
  - cbn [for_each]. unfold bind at 1.
    destruct (lookup_lt_is_Some_2 all_accounts i) as [account Ha].
    { apply Hin. by left. }
    rewrite Ha. unfold update_self at 1.
    set (st1 := mkSt _ _ _).
    destruct (IH st1) as (st' & sampled & -> & Hm & Hh & Hw & Htr & Hlen & Hk).
    { intros i' Hi'. apply Hin. by right. }
    exists st', (mkMonitored (index account) (address account) i :: sampled).
    split; [done|]. split; [by rewrite Hm; cbn; rewrite <- app_assoc|].
    split; [done|]. split; [done|]. split; [done|].
    split; [cbn; by rewrite Hlen|].
    intros [|k] m Hm'; cbn in Hm'.
    + injection Hm' as <-. by exists i, account.
    + by apply Hk.
Qed.

End MonitorSamplingFacts.

(** X20: the monitor samples every n-th account of the file, from the
    first. For a positive [sample_every_nth], [load_monitored_accounts]
    on the accounts of the file does not raise; it discards the list it
    had; the [k]-th monitored account is the account at position
    [k * sample_every_nth] of the file, with that position, index and
    address; and position [k * sample_every_nth] is monitored exactly
    when it is inside the file. The histories are left as they are. *)
Theorem monitor_samples_every_nth_account `{Api : Web3Api}
    (all_accounts : list Account) (st : St Monitor.State) :
  let run := Monitor.load_monitored_accounts (Some all_accounts) st in
  let step := Monitor.sample_every_nth (self st) in
  let monitored := Monitor.monitored_accounts (self run.2) in
  (0 < step)%nat →
  run.1 = Return tt
  ∧ (∀ k, (k < length monitored)%nat ↔ (k * step < length all_accounts)%nat)
  ∧ (∀ k m, monitored !! k = Some m →
       ∃ account,
         all_accounts !! (k * step)%nat = Some account
         ∧ m = Monitor.mkMonitored (index account) (address account) (k * step))
  ∧ Monitor.nonce_history (self run.2) = Monitor.nonce_history (self st).
Proof.
  intros run step monitored Hstep. subst run monitored.
  destruct (range_from_spec step (length all_accounts) 0 (length all_accounts)
              Hstep) as [Hlen Hpos]; [lia|].
  fold (Monitor.range_step (length all_accounts) step) in Hlen, Hpos.
  set (st0 := mkSt (Monitor.set_monitored [] (self st)) (world st) (trace st)).
  destruct (sample_positions_run all_accounts
              (Monitor.range_step (length all_accounts) step) st0)
    as (st' & sampled & Hrun & Hm & Hh & _ & _ & Hlens & Hk).
  { intros i [k Hi]%list_elem_of_lookup.
    rewrite (Hpos k i Hi). apply Hlen. by eapply lookup_lt_Some. }
  assert (Hload : Monitor.load_monitored_accounts (Some all_accounts) st
                  = (Return tt, st')).
  { unfold Monitor.load_monitored_accounts.
    unfold bind at 1, update_self at 1. fold st0.
    unfold bind at 1, read_self at 1.
    change (Monitor.sample_every_nth (self st0)) with step.
    case_decide; [lia|]. exact Hrun. }
  rewrite Hload. cbn [fst snd]. rewrite Hm. cbn [app Monitor.monitored_accounts
    Monitor.set_monitored self st0].
  split; [done|]. split; [|split; [|done]].
  - intros k. rewrite Hlens. by rewrite Hlen.
  - intros k m Hm'. destruct (Hk k m Hm') as (i & account & Hi & Ha & ->).
    rewrite (Hpos k i Hi) in *. cbn [Nat.add] in *. by exists account.
Qed.

Lemma monitor_samples_every_nth_account_witness :
  let st := Scenario.start (Monitor.init (Some Scenario.node_a)) [] in
  let run := Monitor.load_monitored_accounts
               (Some Scenario.generated_accounts) st in
  let monitored := Monitor.monitored_accounts (self run.2) in
  run.1 = Return tt
  ∧ (∀ k, (k < length monitored)%nat
          ↔ (k * 10 < length Scenario.generated_accounts)%nat)
  ∧ (∀ k m, monitored !! k = Some m →
       ∃ account,
         Scenario.generated_accounts !! (k * 10)%nat = Some account
         ∧ m = Monitor.mkMonitored (index account) (address account) (k * 10))
  ∧ Monitor.nonce_history (self run.2) = ∅.
Proof.
  apply (monitor_samples_every_nth_account (Api := Scenario.healthy)
           Scenario.generated_accounts
           (Scenario.start (Monitor.init (Some Scenario.node_a)) [])).
  change (0 < 10)%nat. lia.
Defined.

(** ** The pool monitor: readings and increases *)
Section MonitorCycleFacts.
Context `{Api : Web3Api}.
Local Open Scope engine_scope.
Import Monitor.

Lemma history_of_insert_eq addr l h : history_of (<[addr := l]> h) addr = l.
Proof. unfold history_of. by rewrite lookup_insert_eq. Qed.

Lemma history_of_insert_ne addr other l h :
  addr ≠ other → history_of (<[addr := l]> h) other = history_of h other.
Proof. intros Hne. unfold history_of. by rewrite lookup_insert_ne. Qed.

Lemma history_of_record_eq addr entry h :
  history_of (record_nonce addr entry h) addr
  = last_n HISTORY_LENGTH (history_of h addr ++ [entry]).
Proof.
  unfold record_nonce. rewrite history_of_insert_eq.
  destruct (Nat.ltb_spec HISTORY_LENGTH (length (history_of h addr ++ [entry])))
    as [Hlt|Hge]; [done|].
  unfold last_n. replace (_ - _)%nat with 0%nat by lia. done.
Qed.

Lemma history_of_record_ne addr other entry h :
  addr ≠ other → history_of (record_nonce addr entry h) other = history_of h other.
Proof. intros Hne. unfold record_nonce. by apply history_of_insert_ne. Qed.

(** The cut history: at most ten entries, the new one last, and before
    it the entry that was last. *)
Lemma last_n_recorded (history : list (Z * Z)) entry :
  let recorded := last_n HISTORY_LENGTH (history ++ [entry]) in
  (length recorded ≤ HISTORY_LENGTH)%nat
  ∧ last recorded = Some entry
  ∧ ∀ current, previous_nonce recorded current
               = default current (snd <$> last history).
Proof.
  intros recorded. subst recorded. unfold last_n, HISTORY_LENGTH.
  rewrite length_app. cbn [length].
  set (n := length history).
  assert (Hlen : length (drop (n + 1 - 10) (history ++ [entry]))
                 = (n + 1 - (n + 1 - 10))%nat).
  { rewrite length_drop, length_app. cbn. fold n. lia. }
  split; [lia|]. split.
  - rewrite last_lookup, Hlen, lookup_drop, lookup_app_r by (fold n; lia).
    fold n. replace (_ - n)%nat with 0%nat by lia. done.
  - intros current. unfold previous_nonce, second_last. rewrite Hlen.
    destruct history as [|e0 rest] eqn:Hh.
    + cbn. done.
    + assert (Hn : (1 ≤ n)%nat) by (subst n; cbn; lia).
      destruct (Nat.leb_spec 2 (n + 1 - (n + 1 - 10))) as [_|Hlt]; [|lia].
      rewrite lookup_drop, lookup_app_l by (fold n; lia).
      rewrite last_lookup. fold n. f_equal. f_equal. f_equal. lia.
Qed.

Lemma read_nonce_run current_time account nonces_data (st : St State) :
  let addr := m_address account in
  read_nonce current_time account nonces_data st =
  match w3 (self st) with
  | None => (Return (<[addr := None]> nonces_data), st)
  | Some w =>
      let '(w1, response) := get_transaction_count (world st) w addr in
      let tr := trace st ++ [EvRead w addr response] in
      match response with
      | Return nonce =>
          (Return (<[addr := Some nonce]> nonces_data),
           mkSt (set_nonce_history
                   (record_nonce addr (current_time, nonce)
                      (nonce_history (self st))) (self st)) w1 tr)
      | Raise _ =>
          (Return (<[addr := None]> nonces_data), mkSt (self st) w1 tr)
      end
  end.
Proof.
  intros addr.
  unfold read_nonce, try_except, read_count, rpc, emit, lift, update_self,
    read_self, ret, throw, bind. cbn. fold addr.
  destruct (w3 (self st)) as [w|]; [|reflexivity].
  destruct (get_transaction_count (world st) w addr) as [w1 [v|e]]; reflexivity.
Qed.

(** The readings of one cycle, for monitored accounts with pairwise
    different addresses. *)
Lemma read_nonces_run current_time accounts :
  ∀ (st : St State) nonces_data,
  NoDup (m_address <$> accounts) →
  ∃ data st' evs,
    read_nonces current_time accounts nonces_data st = (Return data, st')
    ∧ trace st' = trace st ++ evs
    ∧ monitored_accounts (self st') = monitored_accounts (self st)
    ∧ (∀ addr, addr ∉ m_address <$> accounts →
         data !! addr = nonces_data !! addr
         ∧ history_of (nonce_history (self st')) addr
           = history_of (nonce_history (self st)) addr)
    ∧ (∀ m, m ∈ accounts →
         let addr := m_address m in
         let history := history_of (nonce_history (self st)) addr in
         (∃ w nonce,
            EvRead w addr (Return nonce) ∈ evs
            ∧ data !! addr = Some (Some nonce)
            ∧ history_of (nonce_history (self st')) addr
              = last_n HISTORY_LENGTH (history ++ [(current_time, nonce)]))
         ∨ (data !! addr = Some None
            ∧ history_of (nonce_history (self st')) addr = history))
    ∧ (∀ w addr nonce, EvRead w addr (Return nonce) ∈ evs →
         data !! addr = Some (Some nonce)).
Proof.
  induction accounts as [|a accounts IH]; intros st nonces_data Hnd.
  - exists nonces_data, st, []. rewrite app_nil_r.
    split; [done|]. split; [done|]. split; [done|]. split; [done|].
    split; [intros m Hm; by apply elem_of_nil in Hm|].
    intros w addr nonce Hin. by apply elem_of_nil in Hin.
  - rewrite fmap_cons in Hnd. apply NoDup_cons in Hnd as [Ha Hnd].
    cbn [read_nonces]. unfold bind at 1. rewrite read_nonce_run.
    assert (Hstep : ∃ data1 st1 evs1,
      match w3 (self st) with
      | None => (Return (<[m_address a := None]> nonces_data), st)
      | Some w =>
          let '(w1, response) :=
            get_transaction_count (world st) w (m_address a) in
          let tr := trace st ++ [EvRead w (m_address a) response] in
          match response with
          | Return nonce =>
              (Return (<[m_address a := Some nonce]> nonces_data),
               mkSt (set_nonce_history
                       (record_nonce (m_address a) (current_time, nonce)
                          (nonce_history (self st))) (self st)) w1 tr)
          | Raise _ =>
              (Return (<[m_address a := None]> nonces_data),
               mkSt (self st) w1 tr)
          end
      end = (Return data1, st1)
      ∧ trace st1 = trace st ++ evs1
      ∧ monitored_accounts (self st1) = monitored_accounts (self st)
      ∧ (∀ addr, addr ≠ m_address a →
           data1 !! addr = nonces_data !! addr
           ∧ history_of (nonce_history (self st1)) addr
             = history_of (nonce_history (self st)) addr)
      ∧ ((∃ w nonce,
            evs1 = [EvRead w (m_address a) (Return nonce)]
            ∧ data1 !! m_address a = Some (Some nonce)
            ∧ history_of (nonce_history (self st1)) (m_address a)
              = last_n HISTORY_LENGTH
                  (history_of (nonce_history (self st)) (m_address a)
                   ++ [(current_time, nonce)]))
         ∨ ((∀ w addr nonce, EvRead w addr (Return nonce) ∉ evs1)
            ∧ data1 !! m_address a = Some None
            ∧ history_of (nonce_history (self st1)) (m_address a)
              = history_of (nonce_history (self st)) (m_address a)))).
    { destruct (w3 (self st)) as [w|].
      - destruct (get_transaction_count (world st) w (m_address a))
          as [w1 [v|e]]; cbv zeta.
        + eexists _, _, [_]. split; [reflexivity|]. cbn.
          split; [done|]. split; [done|]. split.
          * intros addr Hne. rewrite lookup_insert_ne by done.
            by rewrite history_of_record_ne.
          * left. exists w, v. rewrite lookup_insert_eq, history_of_record_eq.
            done.
        + eexists _, _, [_]. split; [reflexivity|]. cbn.
          split; [done|]. split; [done|]. split.
          * intros addr Hne. by rewrite lookup_insert_ne.
          * right. rewrite lookup_insert_eq. split; [|done].
            intros w' addr nonce Hin. apply list_elem_of_singleton in Hin.
            done.
      - eexists _, st, []. split; [reflexivity|]. rewrite app_nil_r.
        split; [done|]. split; [done|]. split.
        + intros addr Hne. by rewrite lookup_insert_ne.
        + right. rewrite lookup_insert_eq. split; [|done].
          intros w' addr nonce Hin. by apply elem_of_nil in Hin. }
    destruct Hstep as (data1 & st1 & evs1 & -> & Htr1 & Hm1 & Hother1 & Hcase).
    destruct (IH st1 data1 Hnd)
      as (data & st' & evs & -> & Htr & Hm & Hother & Hin & Hread).
    exists data, st', (evs1 ++ evs). split; [done|].
    split; [by rewrite Htr, Htr1, <- app_assoc|]. split; [congruence|].
    assert (Hkeep : data !! m_address a = data1 !! m_address a
              ∧ history_of (nonce_history (self st')) (m_address a)
                = history_of (nonce_history (self st1)) (m_address a)).
    { by apply Hother. }
    destruct Hkeep as [Hk1 Hk2].
    split; [|split].
    + intros addr Hnot. rewrite fmap_cons in Hnot.
      apply not_elem_of_cons in Hnot as [Hne Hnot].
      destruct (Hother addr Hnot) as [-> ->]. by apply Hother1.
    + intros m Hm'. apply elem_of_cons in Hm' as [->|Hm'].
      * cbv zeta. rewrite Hk1, Hk2.
        destruct Hcase as [(w & nonce & -> & Hd & Hh)|(_ & Hd & Hh)].
        -- left. exists w, nonce. split; [by left|done].
        -- by right.
      * assert (Hne : m_address m ≠ m_address a).
        { intros Heq. apply Ha. rewrite <- Heq. by apply list_elem_of_fmap_2. }
        destruct (Hother1 (m_address m) Hne) as [_ Hh1].
        destruct (Hin m Hm') as [(w & nonce & Hev & Hd & Hh)|[Hd Hh]]; cbv zeta.
        -- left. exists w, nonce. rewrite <- Hh1.
           split; [apply elem_of_app; by right|done].
        -- right. by rewrite <- Hh1.
    + intros w addr nonce Hev. apply elem_of_app in Hev as [Hev|Hev].
      * destruct Hcase as [(w0 & nonce0 & -> & Hd & Hh)|(Hno & _)].
        -- apply list_elem_of_singleton in Hev. injection Hev as -> -> ->.
           by rewrite Hk1.
        -- by apply Hno in Hev.
      * by eapply Hread.
Qed.

End MonitorCycleFacts.

(** X21: a reading keeps the last ten entries of every history. For
    monitored accounts with pairwise different addresses,
    [get_current_nonces] does not raise and returns the time it was given;
    an account whose read succeeded has its nonce in the data, and the
    entry of this reading is the last of its history, which holds at most
    10 entries: the last ones of the old history followed by the new one;
    an account whose read failed has [None] in the data and keeps its
    history. *)
Theorem reading_keeps_the_last_ten_entries `{Api : Web3Api}
    (current_time : Z) (st : St Monitor.State) :
  let run := Monitor.get_current_nonces current_time st in
  let monitored := Monitor.monitored_accounts (self st) in
  let old addr := Monitor.history_of (Monitor.nonce_history (self st)) addr in
  let new addr := Monitor.history_of (Monitor.nonce_history (self run.2)) addr in
  NoDup (Monitor.m_address <$> monitored) →
  ∃ data,
    run.1 = Return (data, current_time)
    ∧ Monitor.monitored_accounts (self run.2) = monitored
    ∧ ∀ m, m ∈ monitored →
        let addr := Monitor.m_address m in
        match data !! addr with
        | Some (Some nonce) =>
            (∃ w, EvRead w addr (Return nonce) ∈ new_events st run.2)
            ∧ new addr = Monitor.last_n 10 (old addr ++ [(current_time, nonce)])
            ∧ last (new addr) = Some (current_time, nonce)
            ∧ (length (new addr) ≤ 10)%nat
        | Some None => new addr = old addr
        | None => False
        end.
Proof.
  intros run monitored old new Hnd. subst run old new.
  assert (Hrun : ∀ r,
            Monitor.read_nonces current_time monitored ∅ st = (Return r.1, r.2) →
            Monitor.get_current_nonces current_time st
            = (Return (r.1, current_time), r.2)).
  { intros r Hr. unfold Monitor.get_current_nonces, bind, read_self, ret.
    fold monitored. by rewrite Hr. }
  destruct (read_nonces_run current_time monitored st ∅ Hnd)
    as (data & st' & evs & Hread & Htr & Hm & _ & Hin & _).
  rewrite (Hrun (data, st') Hread). cbn [fst snd].
  rewrite (new_events_app _ _ _ Htr).
  exists data. split; [done|]. split; [done|].
  intros m Hm'. destruct (Hin m Hm') as [(w & nonce & Hev & -> & Hh)|[-> Hh]];
    cbv zeta; [|done].
  rewrite Hh.
  destruct (last_n_recorded
              (Monitor.history_of (Monitor.nonce_history (self st))
                 (Monitor.m_address m)) (current_time, nonce))
    as (Hlen & Hlast & _).
  split; [by exists w|]. by repeat split.
Qed.

Lemma reading_keeps_the_last_ten_entries_witness :
  let history := (λ k : nat, (Z.of_nat k, 100 + Z.of_nat k)) <$> seq 0 10 in
  let st := @mkSt Scenario.healthy Monitor.State
              (Monitor.mkState 10 (Some Scenario.node_a)
                 [Monitor.mkMonitored 0 "0xA1" 0; Monitor.mkMonitored 10 "0xB7" 10]
                 {[ "0xA1" := history ]})
              (Scenario.mkNodes [] (<["0xA1" := 117]> ∅)) [] in
  let run := Monitor.get_current_nonces 50 st in
  Monitor.history_of (Monitor.nonce_history (self run.2)) "0xA1"
  = drop 1 history ++ [(50, 117)]
  ∧ ∃ data,
      run.1 = Return (data, 50)
      ∧ Monitor.monitored_accounts (self run.2)
        = Monitor.monitored_accounts (self st).
Proof.
  intros history st run. split; [by vm_compute|].
  assert (Hnd : NoDup (Monitor.m_address <$> Monitor.monitored_accounts (self st))).
  { apply (bool_decide_unpack
             (NoDup (Monitor.m_address <$> Monitor.monitored_accounts (self st)))).
    by vm_compute. }
  destruct (reading_keeps_the_last_ten_entries (Api := Scenario.healthy) 50 st Hnd)
    as (data & H1 & H2 & _).
  by exists data.
Defined.

Section MonitorIncreaseFacts.
Context `{Api : Web3Api}.
Local Open Scope engine_scope.
Import Monitor.

(** Two bodies that agree on the elements of the list give the same
    bind. *)
Lemma bind_ext_in {A B} (f g : A → list B) (l : list A) :
  (∀ x, x ∈ l → f x = g x) → l ≫= f = l ≫= g.
Proof.
  induction l as [|x l IH]; intros Hfg; [done|].
  cbn. rewrite (Hfg x) by by left. f_equal. apply IH.
  intros y Hy. apply Hfg. by right.
Qed.

(** What [calculate_nonce_increases] reports for one account. *)
Lemma nonce_increase_run current_nonces account (st : St State) :
  let addr := m_address account in
  let history := history_of (nonce_history (self st)) addr in
  nonce_increase current_nonces account st =
  match mjoin (current_nonces !! addr) with
  | None => (Return [], st)
  | Some current =>
      (Return [mkIncrease account current (previous_nonce history current)
                 (current - previous_nonce history current)],
       mkSt (set_nonce_history (<[addr := history]> (nonce_history (self st)))
               (self st)) (world st) (trace st))
  end.
Proof.
  intros addr history. unfold nonce_increase. fold addr.
  destruct (mjoin (current_nonces !! addr)) as [current|]; [|reflexivity].
  unfold bind at 1, read_self at 1. fold history.
  unfold bind at 1, update_self at 1. unfold previous_nonce.
  destruct (Nat.leb_spec 2 (length history)) as [Hle|Hlt].
  - unfold second_last.
    destruct (lookup_lt_is_Some_2 history (length history - 2)) as [[pt p] Hp];
      [lia|].
    rewrite Hp. reflexivity.
  - unfold ret. by rewrite Z.sub_diag.
Qed.

(** The report of one account, from the data and the histories. *)
Lemma nonce_increases_run current_nonces accounts : ∀ st : St State,
  ∃ st',
    nonce_increases current_nonces accounts st
    = (Return (accounts ≫= λ account,
                 match mjoin (current_nonces !! m_address account) with
                 | None => []
                 | Some current =>
                     let history :=
                       history_of (nonce_history (self st)) (m_address account) in
                     [mkIncrease account current (previous_nonce history current)
                        (current - previous_nonce history current)]
                 end), st')
    ∧ trace st' = trace st
    ∧ monitored_accounts (self st') = monitored_accounts (self st)
    ∧ ∀ addr, history_of (nonce_history (self st')) addr
              = history_of (nonce_history (self st)) addr.
Proof.
  induction accounts as [|a accounts IH]; intros st.
  - by exists st.
  - cbn [nonce_increases]. unfold bind at 1. rewrite nonce_increase_run.
    cbv zeta.
    destruct (mjoin (current_nonces !! m_address a)) as [current|] eqn:Hd.
    + set (st1 := mkSt _ _ _).
      assert (Hh1 : ∀ addr, history_of (nonce_history (self st1)) addr
                            = history_of (nonce_history (self st)) addr).
      { intros addr. subst st1. cbn.
        destruct (decide (m_address a = addr)) as [<-|Hne].
        - by rewrite history_of_insert_eq.
        - by rewrite history_of_insert_ne. }
      destruct (IH st1) as (st' & Hrun & Htr & Hm & Hh).
      unfold bind at 1. rewrite Hrun. exists st'. split.
      * unfold ret. cbn [mbind list_bind]. rewrite Hd. cbn [app].
        f_equal. f_equal. f_equal.
        apply bind_ext_in. intros m _. by rewrite Hh1.
      * split; [by rewrite Htr|]. split; [by rewrite Hm|].
        intros addr. by rewrite Hh, Hh1.
    + destruct (IH st) as (st' & Hrun & Htr & Hm & Hh).
      unfold bind at 1. rewrite Hrun. exists st'. split; [|done].
      unfold ret. cbn [mbind list_bind]. by rewrite Hd.
Qed.

(** One cycle, for monitored accounts with pairwise different
    addresses: every account that was read is reported, measured against
    the entry that was last in its history. *)
Lemma monitoring_cycle_run current_time (st : St State) :
  let monitored := monitored_accounts (self st) in
  let old addr := history_of (nonce_history (self st)) addr in
  NoDup (m_address <$> monitored) →
  ∃ (data : gmap string (option Z)) st' evs,
    run_monitoring_cycle current_time st
    = (Return (Some (monitored ≫= λ account,
         match mjoin (data !! m_address account) with
         | None => []
         | Some current =>
             [mkIncrease account current
                (default current (snd <$> last (old (m_address account))))
                (current
                 - default current (snd <$> last (old (m_address account))))]
         end)), st')
    ∧ trace st' = trace st ++ evs
    ∧ (∀ m, m ∈ monitored →
         (∃ w nonce, EvRead w (m_address m) (Return nonce) ∈ evs
                     ∧ data !! m_address m = Some (Some nonce))
         ∨ data !! m_address m = Some None)
    ∧ (∀ w addr nonce, EvRead w addr (Return nonce) ∈ evs →
         data !! addr = Some (Some nonce)).
Proof.
  intros monitored old Hnd.
  destruct (read_nonces_run current_time monitored st ∅ Hnd)
    as (data & st1 & evs & Hread & Htr1 & Hm1 & _ & Hin & Hev).
  destruct (nonce_increases_run data monitored st1) as (st' & Hcalc & Htr & _ & _).
  exists data, st', evs. split.
  - unfold run_monitoring_cycle, try_except. unfold bind at 1.
    unfold get_current_nonces. unfold bind at 1, read_self at 1.
    fold monitored. unfold bind at 1. rewrite Hread. unfold ret at 1.
    unfold bind at 1. unfold calculate_nonce_increases.
    unfold bind at 1, read_self at 1. cbn [fst snd]. rewrite Hm1.
    fold monitored. rewrite Hcalc. unfold ret. f_equal. f_equal. f_equal.
    apply bind_ext_in. intros m Hm.
    destruct (Hin m Hm) as [(w & nonce & _ & Hd & Hh)|[Hd _]];
      rewrite Hd; cbn [mjoin option_join]; [|done].
    cbv zeta. rewrite Hh.
    destruct (last_n_recorded (old (m_address m)) (current_time, nonce))
      as (_ & _ & Hprev).
    by rewrite Hprev.
  - split; [by rewrite Htr|]. split; [|done].
    intros m Hm. destruct (Hin m Hm) as [(w & nonce & Hev' & Hd & _)|[Hd _]].
    + left. by exists w, nonce.
    + by right.
Qed.

End MonitorIncreaseFacts.

(** Increases that are all 0 add up to 0, with no account active. *)
Lemma idle_summary (increases_data : list Monitor.Increase) :
  (∀ data, data ∈ increases_data → Monitor.increase data = 0) →
  Monitor.total_increases increases_data = 0
  ∧ Monitor.active_accounts increases_data = 0%nat.
Proof.
  unfold Monitor.total_increases, Monitor.active_accounts.
  induction increases_data as [|d l IH]; intros Hall; [done|].
  destruct IH as [IH1 IH2]; [intros d' Hd'; apply Hall; by right|].
  assert (Hd : Monitor.increase d = 0) by (apply Hall; by left).
  cbn [fmap list_fmap foldr]. rewrite IH1, Hd. split; [done|].
  rewrite filter_cons. case_decide as Hpos; [lia|done].
Qed.

(** X22: a monitoring cycle measures every account against the entry
    that was last in its history. For monitored accounts with pairwise
    different addresses, [run_monitoring_cycle] does not raise and has
    data to display; it reports exactly the accounts whose read
    succeeded, each with the nonce read, and as previous nonce the one of
    the last entry its history held before the cycle, whenever that was
    recorded, or the nonce read itself for an empty history; the increase
    is their difference. So the first cycle, on empty histories, reports
    no activity at all, whatever the nonces are. *)
Theorem cycle_measures_against_the_last_entry `{Api : Web3Api}
    (current_time : Z) (st : St Monitor.State) :
  let run := Monitor.run_monitoring_cycle current_time st in
  let monitored := Monitor.monitored_accounts (self st) in
  let old addr := Monitor.history_of (Monitor.nonce_history (self st)) addr in
  let evs := new_events st run.2 in
  NoDup (Monitor.m_address <$> monitored) →
  ∃ increases_data,
    run.1 = Return (Some increases_data)
    ∧ (∀ data, data ∈ increases_data →
         let addr := Monitor.m_address (Monitor.inc_account data) in
         Monitor.inc_account data ∈ monitored
         ∧ (∃ w, EvRead w addr (Return (Monitor.current_nonce data)) ∈ evs)
         ∧ Monitor.prev_nonce data
           = default (Monitor.current_nonce data) (snd <$> last (old addr))
         ∧ Monitor.increase data
           = Monitor.current_nonce data - Monitor.prev_nonce data)
    ∧ (∀ m w nonce, m ∈ monitored →
         EvRead w (Monitor.m_address m) (Return nonce) ∈ evs →
         ∃ data, data ∈ increases_data
                 ∧ Monitor.inc_account data = m
                 ∧ Monitor.current_nonce data = nonce)
    ∧ ((∀ m, m ∈ monitored → old (Monitor.m_address m) = []) →
       Monitor.total_increases increases_data = 0
       ∧ Monitor.active_accounts increases_data = 0%nat).
Proof.
  intros run monitored old evs Hnd. subst run evs.
  destruct (monitoring_cycle_run current_time st Hnd)
    as (data & st' & evs & -> & Htr & Hin & Hev).
  fold monitored in Hin. cbn [fst snd]. rewrite (new_events_app _ _ _ Htr).
  eexists. split; [reflexivity|].
  assert (Hrep : ∀ d, d ∈ (monitored ≫= λ account,
              match mjoin (data !! Monitor.m_address account) with
              | None => []
              | Some current =>
                  [Monitor.mkIncrease account current
                     (default current
                        (snd <$> last (Monitor.history_of
                                         (Monitor.nonce_history (self st))
                                         (Monitor.m_address account))))
                     (current
                      - default current
                          (snd <$> last (Monitor.history_of
                                           (Monitor.nonce_history (self st))
                                           (Monitor.m_address account))))]
              end) →
            ∃ m nonce,
              m ∈ monitored
              ∧ data !! Monitor.m_address m = Some (Some nonce)
              ∧ d = Monitor.mkIncrease m nonce
                      (default nonce (snd <$> last (old (Monitor.m_address m))))
                      (nonce - default nonce
                                 (snd <$> last (old (Monitor.m_address m))))).
  { intros d Hd. apply list_elem_of_bind in Hd as (m & Hd & Hm).
    exists m. destruct (data !! Monitor.m_address m) as [[nonce|]|] eqn:Hdata;
      cbn in Hd; try by apply elem_of_nil in Hd.
    apply list_elem_of_singleton in Hd. by exists nonce. }
  split; [|split].
  - intros d Hd. destruct (Hrep d Hd) as (m & nonce & Hm & Hdata & ->).
    cbn. split; [done|]. split; [|done].
    destruct (Hin m Hm) as [(w & nonce' & Hev' & Hdata')|Hdata'];
      rewrite Hdata' in Hdata; [|done].
    injection Hdata as <-. by exists w.
  - intros m w nonce Hm Hev'. apply Hev in Hev'.
    eexists. split.
    + apply list_elem_of_bind. exists m. split; [|done].
      rewrite Hev'. cbn. by left.
    + done.
  - intros Hempty. apply idle_summary.
    intros d Hd. destruct (Hrep d Hd) as (m & nonce & Hm & _ & ->).
    cbn [Monitor.increase]. specialize (Hempty m Hm). unfold old in *.
    rewrite Hempty. cbn. lia.
Qed.

Lemma cycle_measures_against_the_last_entry_witness :
  let account1 := Monitor.mkMonitored 0 "0xA1" 0 in
  let st := @mkSt Scenario.healthy Monitor.State
              (Monitor.mkState 10 (Some Scenario.node_a)
                 [account1; Monitor.mkMonitored 10 "0xB7" 10]
                 {[ "0xA1" := [(10, 100)] ]})
              (Scenario.mkNodes [] (<["0xA1" := 117]> ∅)) [] in
  let run := Monitor.run_monitoring_cycle 50 st in
  run.1 = Return (Some [Monitor.mkIncrease account1 117 100 17])
  ∧ ∃ increases_data,
      run.1 = Return (Some increases_data)
      ∧ ∀ data, data ∈ increases_data →
          Monitor.increase data
          = Monitor.current_nonce data - Monitor.prev_nonce data.
Proof.
  intros account1 st run. split; [by vm_compute|].
  assert (Hnd : NoDup (Monitor.m_address <$> Monitor.monitored_accounts (self st))).
  { apply (bool_decide_unpack
             (NoDup (Monitor.m_address <$> Monitor.monitored_accounts (self st)))).
    by vm_compute. }
  destruct (cycle_measures_against_the_last_entry (Api := Scenario.healthy)
              50 st Hnd) as (increases_data & H1 & H2 & _).
  exists increases_data. split; [done|].
  intros data Hdata. by destruct (H2 data Hdata) as (_ & _ & _ & H).
Defined.

(** ** The faucet, transfer by transfer *)
Section FaucetFacts.
Context `{Api : Web3Api}.
Variable to_checksum_address : string → result string.
Variable wait_for_transaction_receipt : World → Web3 → string → World * result Z.
Variable get_balance : World → Web3 → string → World * result Z.
Local Open Scope engine_scope.
Import Faucet.

Lemma same_faucet_refl s : same_faucet s s.
Proof. by repeat split. Qed.

Lemma same_faucet_trans s1 s2 s3 :
  same_faucet s1 s2 → same_faucet s2 s3 → same_faucet s1 s3.
Proof. intros (?&?&?&?&?) (?&?&?&?&?). repeat split; congruence. Qed.

(** One transfer: without nonce nothing happens; with a nonce it is
    reserved, whatever follows, and at most one broadcast is made. *)
Lemma fund_single_address_effect account attempt_number (st : St State) :
  let s := self st in
  let main := default "" (main_address s) in
  ∃ out st' evs,
    fund_single_address to_checksum_address wait_for_transaction_receipt
      get_balance account attempt_number st = (Return out, st')
    ∧ trace st' = trace st ++ evs
    ∧ reservations evs
      = match main_nonce s with Some n => [(main, n)] | None => [] end
    ∧ main_nonce (self st') = (λ n, n + 1) <$> main_nonce s
    ∧ (main_nonce s = None → out = (false, None) ∧ evs = [] ∧ st' = st)
    ∧ (length (broadcasts evs) ≤ 1)%nat
    ∧ (out.1 = true → is_Some out.2)
    ∧ (is_Some out.2 → count_events is_accepted evs = 1%nat)
    ∧ same_faucet s (self st').
Proof.
  intros s main. subst s main.
  unfold fund_single_address, try_except, get_next_main_nonce,
    sign, send, rpc, emit, lift, update_self, read_self, ret, throw, bind.
  cbn.
  destruct (main_nonce (self st)) as [n|] eqn:Hn; cbn.
  2:{ eexists (false, None), st, []. split; [reflexivity|]. cbn.
      rewrite ?app_nil_r. repeat split; first [done|cbn; lia|by intros [? [=]]]. }
  destruct (w3 (self st)) as [w|] eqn:Hw; cbn.
  2:{ eexists (false, None), _, [_]. split; [reflexivity|]. cbn.
      repeat split; first [done|cbn; lia|by intros [? [=]]]. }
  destruct (to_checksum_address (address account)) as [to|e]; cbn.
  2:{ eexists (false, None), _, [_]. split; [reflexivity|]. cbn.
      repeat split; first [done|cbn; lia|by intros [? [=]]]. }
  destruct (chain_id (self st)) as [chain|] eqn:Hchain; cbn.
  2:{ eexists (false, None), _, [_]. split; [reflexivity|]. cbn.
      repeat split; first [done|cbn; lia|by intros [? [=]]]. }
  destruct (sign_transaction _ _ _) as [raw|e]; cbn.
  2:{ eexists (false, None), _, [_]. split; [reflexivity|]. cbn.
      repeat split; first [done|cbn; lia|by intros [? [=]]]. }
  destruct (send_raw_transaction (world st) w raw) as [w2 [h|e]]; cbn.
  2:{ eexists (false, None), _, [_; _; _]. split; [reflexivity|]. cbn.
      rewrite <- ?app_assoc. cbn.
      repeat split; first [done|cbn; lia|by intros [? [=]]]. }
  destruct (wait_for_transaction_receipt w2 w h) as [w3' [status|e]]; cbn.
  2:{ eexists (false, None), _, [_; _; _]. split; [reflexivity|]. cbn.
      rewrite <- ?app_assoc. cbn.
      repeat split; first [done|cbn; lia|by intros [? [=]]]. }
  destruct (status =? 1); cbn.
  2:{ eexists (false, Some h), _, [_; _; _]. split; [reflexivity|]. cbn.
      rewrite <- ?app_assoc. cbn.
      repeat split; first [done|cbn; lia|by eexists]. }
  destruct (get_balance w3' w to) as [w4 [balance|e]]; cbn.
  - eexists (true, Some h), _, [_; _; _]. split; [reflexivity|]. cbn.
    rewrite <- ?app_assoc. cbn.
    repeat split; first [done|cbn; lia|by eexists].
  - eexists (false, None), _, [_; _; _]. split; [reflexivity|]. cbn.
    rewrite <- ?app_assoc. cbn.
    repeat split; first [done|cbn; lia|by intros [? [=]]].
Qed.

(** The loop: one result per account, in order, and one nonce each
    when the faucet has a nonce. *)
Lemma funding_loop_run accounts_data :
  ∀ (st : St State) i successful failed results,
  let s := self st in
  let main := default "" (main_address s) in
  ∃ st' evs more_failed more_results,
    funding_loop to_checksum_address wait_for_transaction_receipt get_balance
      accounts_data i successful failed results st
    = (Return (successful
               + Z.of_nat (length (filter (λ r, result_success r = true)
                                     more_results)),
               failed ++ more_failed, results ++ more_results), st')
    ∧ trace st' = trace st ++ evs
    ∧ result_account <$> more_results = accounts_data
    ∧ more_failed
      = (λ r, index (result_account r))
          <$> filter (λ r, result_success r = false) more_results
    ∧ reservations evs
      = match main_nonce s with
        | Some n => (λ k, (main, n + Z.of_nat k)) <$> seq 0 (length accounts_data)
        | None => []
        end
    ∧ main_nonce (self st')
      = (λ n, n + Z.of_nat (length accounts_data)) <$> main_nonce s
    ∧ (main_nonce s = None →
       evs = [] ∧ st' = st
       ∧ ∀ r, r ∈ more_results →
           result_success r = false ∧ result_tx_hash r = None)
    ∧ (length (broadcasts evs) ≤ length accounts_data)%nat
    ∧ (length (filter (λ r, result_success r = true) more_results)
       ≤ length (filter (λ r, is_Some (result_tx_hash r)) more_results))%nat
    ∧ (length (filter (λ r, is_Some (result_tx_hash r)) more_results)
       ≤ count_events is_accepted evs)%nat
    ∧ same_faucet s (self st').
Proof.
  induction accounts_data as [|account rest IH];
    intros st i successful failed results s main.
  - exists st, [], [], []. cbn. rewrite !app_nil_r, Z.add_0_r.
    split; [done|]. split; [done|]. split; [done|]. split; [done|].
    split; [by destruct (main_nonce s)|].
    split.
    { fold s. destruct (main_nonce s); cbn; [|done]. f_equal. lia. }
    split.
    { intros _. split; [done|]. split; [done|].
      intros r Hr. by apply elem_of_nil in Hr. }
    split; [done|]. split; [done|]. split; [done|]. apply same_faucet_refl.
  - cbn [funding_loop]. unfold bind at 1.
    destruct (fund_single_address_effect account i st)
      as (out & st1 & evs1 & Hrun & Htr1 & Hres1 & Hn1 & Hnone1 & Hb1 & Htrue1
          & Hhash1 & Hs1).
    fold s main in Hres1, Hn1, Hnone1, Hs1.
    rewrite Hrun.
    set (r1 := mkFundingResult account out.1 out.2).
    assert (Hmain1 : default "" (main_address (self st1)) = main).
    { destruct Hs1 as (_&_&_&_&Hm). unfold main. by rewrite Hm. }
    assert (Hstep : ∃ successful1 failed1,
      (if out.1
       then funding_loop to_checksum_address wait_for_transaction_receipt
              get_balance rest (S i) (successful + 1) failed (results ++ [r1])
       else funding_loop to_checksum_address wait_for_transaction_receipt
              get_balance rest (S i) successful (failed ++ [index account])
              (results ++ [r1]))
      = funding_loop to_checksum_address wait_for_transaction_receipt
          get_balance rest (S i) successful1 failed1 (results ++ [r1])
      ∧ successful1 = successful + (if out.1 then 1 else 0)
      ∧ failed1 = failed ++ (if out.1 then [] else [index account])).
    { destruct out.1; eexists _, _; (split; [reflexivity|]);
        rewrite ?Z.add_0_r, ?app_nil_r; done. }
    destruct Hstep as (successful1 & failed1 & Hstep & -> & ->).
    rewrite Hstep.
    destruct (IH st1 (S i) (successful + (if out.1 then 1 else 0))
                (failed ++ (if out.1 then [] else [index account]))
                (results ++ [r1]))
      as (st' & evs & more_failed & more_results & Hloop & Htr & Hacc & Hfail
          & Hres & Hn & Hnone & Hb & Hle & Hcount & Hs).
    rewrite Hmain1 in Hres.
    exists st', (evs1 ++ evs),
      ((if out.1 then [] else [index account]) ++ more_failed),
      (r1 :: more_results).
    split.
    { rewrite Hloop. rewrite <- !app_assoc. cbn [app].
      assert (Hsum : successful + (if out.1 then 1 else 0)
          + Z.of_nat (length (filter (λ r, result_success r = true)
                                more_results))
        = successful
          + Z.of_nat (length (filter (λ r, result_success r = true)
                                (r1 :: more_results)))).
      { rewrite filter_cons. cbn [result_success r1].
        destruct out.1; case_decide; try done; cbn [length]; lia. }
      by rewrite Hsum. }
    split; [by rewrite Htr, Htr1, <- app_assoc|].
    split; [cbn; by rewrite Hacc|].
    split.
    { rewrite filter_cons, Hfail. cbn [result_success r1].
      destruct out.1; case_decide; done. }
    split.
    { rewrite reservations_app, Hres1, Hres, Hn1.
      destruct (main_nonce s) as [n|]; cbn [fmap option_fmap option_map];
        [|done].
      cbn [length seq fmap list_fmap app]. rewrite Z.add_0_r. f_equal.
      rewrite <- fmap_S_seq, <- list_fmap_compose.
      apply list_fmap_ext. intros j k _. cbn. f_equal. lia. }
    split.
    { rewrite Hn, Hn1. destruct (main_nonce s); cbn; [|done]. f_equal. lia. }
    split.
    { intros Hnone0. destruct (Hnone1 Hnone0) as (Hout & -> & ->).
      destruct (Hnone Hnone0) as (-> & -> & Hall).
      split; [done|]. split; [done|].
      intros r Hr. apply elem_of_cons in Hr as [->|Hr]; [|by apply Hall].
      subst r1. by rewrite Hout. }
    split; [rewrite broadcasts_app, length_app; cbn [length]; lia|].
    rewrite !filter_cons, count_events_app.
    cbn [result_success result_tx_hash r1].
    split.
    { destruct out.1 eqn:Hout1.
      - pose proof (Htrue1 eq_refl) as Hsome.
        case_decide; [|done]. case_decide; [|done]. cbn [length]. lia.
      - case_decide; [done|]. case_decide; cbn [length]; lia. }
    split.
    { case_decide as Hsome.
      - rewrite (Hhash1 Hsome). cbn [length]. lia.
      - lia. }
    by eapply same_faucet_trans.
Qed.

End FaucetFacts.

Section FaucetRun.
Context `{Api : Web3Api}.
Variable to_checksum_address : string → result string.
Variable wait_for_transaction_receipt : World → Web3 → string → World * result Z.
Variable get_balance : World → Web3 → string → World * result Z.
Local Open Scope engine_scope.
Import Faucet.

(** The run of [fund_all_addresses_sequential], in the terms of the
    loop. *)
Lemma fund_all_run accounts_data (st : St State) :
  ∃ st' evs results,
    fund_all_addresses_sequential to_checksum_address
      wait_for_transaction_receipt get_balance accounts_data st
    = (Return (Z.of_nat (length (filter (λ r, result_success r = true)
                                   results)), results), st')
    ∧ trace st' = trace st ++ evs
    ∧ result_account <$> results = accounts_data
    ∧ reservations evs
      = match main_nonce (self st) with
        | Some n =>
            (λ k, (default "" (main_address (self st)), n + Z.of_nat k))
              <$> seq 0 (length accounts_data)
        | None => []
        end
    ∧ main_nonce (self st')
      = (λ n, n + Z.of_nat (length accounts_data)) <$> main_nonce (self st)
    ∧ (main_nonce (self st) = None →
       evs = [] ∧ st' = st
       ∧ ∀ r, r ∈ results →
           result_success r = false ∧ result_tx_hash r = None)
    ∧ (length (broadcasts evs) ≤ length accounts_data)%nat
    ∧ (length (filter (λ r, result_success r = true) results)
       ≤ count_events is_accepted evs)%nat
    ∧ same_faucet (self st) (self st').
Proof.
  destruct (funding_loop_run to_checksum_address wait_for_transaction_receipt
              get_balance accounts_data st 1 0 [] [])
    as (st' & evs & more_failed & results & Hloop & Htr & Hacc & _ & Hres
        & Hn & Hnone & Hb & Hle & Hcount & Hs).
  exists st', evs, results.
  split.
  { unfold fund_all_addresses_sequential, bind, ret. by rewrite Hloop. }
  repeat (split; [done|]).
  split; [lia|done].
Qed.

(** X23 (fund_accounts.py, fund_all_addresses_sequential with
    fund_single_address and get_next_main_nonce): once the nonce of the
    faucet is known, the funding never raises and gives one result per
    account, in the order of the accounts; it takes one nonce per
    account, consecutive from the known one, whether the transfer
    succeeds or not, and leaves the counter behind the last one; the
    number of successes it returns is the number of results marked
    successful, and is at most the number of broadcasts a node accepted;
    at most one broadcast is made per account. *)
Theorem faucet_takes_one_nonce_per_account accounts_data (st : St State) n :
  main_nonce (self st) = Some n →
  let run := fund_all_addresses_sequential to_checksum_address
               wait_for_transaction_receipt get_balance accounts_data st in
  let evs := new_events st run.2 in
  ∃ results,
    run.1 = Return (Z.of_nat (length (filter (λ r, result_success r = true)
                                        results)), results)
    ∧ result_account <$> results = accounts_data
    ∧ reservations evs
      = (λ k, (default "" (main_address (self st)), n + Z.of_nat k))
          <$> seq 0 (length accounts_data)
    ∧ main_nonce (self run.2) = Some (n + Z.of_nat (length accounts_data))
    ∧ (length (filter (λ r, result_success r = true) results)
       ≤ count_events is_accepted evs)%nat
    ∧ (length (broadcasts evs) ≤ length accounts_data)%nat
    ∧ same_faucet (self st) (self run.2).
Proof.
  intros Hsome run evs.
  destruct (fund_all_run accounts_data st)
    as (st' & evs' & results & Hrun & Htr & Hacc & Hres & Hn & _ & Hb & Hle
        & Hs).
  assert (Hevs : evs = evs').
  { unfold evs, run. rewrite Hrun. by apply new_events_app. }
  exists results. unfold run. rewrite Hevs, Hrun. cbn [fst snd].
  rewrite Hsome in Hres, Hn.
  by repeat (split; [done|]).
Qed.

(** X24 (fund_accounts.py, fund_all_addresses_sequential with
    fund_single_address and get_next_main_nonce): while the nonce of the
    faucet is not known (before the network configuration succeeded),
    the funding does not raise: every account gets the result "failed,
    no transaction hash", zero successes are returned, and neither the
    faucet nor the nodes are touched (nothing is reserved, signed or
    sent). *)
Theorem faucet_without_nonce_funds_nothing accounts_data (st : St State) :
  main_nonce (self st) = None →
  fund_all_addresses_sequential to_checksum_address
    wait_for_transaction_receipt get_balance accounts_data st
  = (Return (0, (λ a, mkFundingResult a false None) <$> accounts_data), st).
Proof.
  intros Hnone.
  destruct (fund_all_run accounts_data st)
    as (st' & evs' & results & Hrun & _ & Hacc & _ & _ & Hall & _).
  destruct (Hall Hnone) as (_ & -> & Hfailed).
  rewrite Hrun.
  assert (Hresults : results = (λ a, mkFundingResult a false None)
                                 <$> accounts_data).
  { rewrite <- Hacc, <- list_fmap_compose.
    rewrite <- (list_fmap_id results) at 1.
    apply list_fmap_ext. intros j r Hr. cbn.
    destruct (Hfailed r) as [Hsuccess Hhash].
    { by eapply list_elem_of_lookup_2. }
    destruct r as [a b h]. cbn in *. by subst. }
  assert (Hzero : filter (λ r, result_success r = true) results = []).
  { rewrite Hresults. clear.
    induction accounts_data as [|a rest IH]; [done|].
    cbn [fmap list_fmap]. rewrite filter_cons. by case_decide. }
  by rewrite Hzero, Hresults.
Qed.

End FaucetRun.

Lemma faucet_takes_one_nonce_per_account_witness :
  let st := Scenario.start (FaucetScenario.faucet (Some 7))
              [Return "0xbad"; Scenario.rejection] in
  let run := Faucet.fund_all_addresses_sequential (Api := Scenario.healthy)
               Return FaucetScenario.receipts FaucetScenario.balances
               [Scenario.acct1; Scenario.acct2; Scenario.acct3] st in
  (run.1 = Return (1, [Faucet.mkFundingResult Scenario.acct1 false (Some "0xbad");
                       Faucet.mkFundingResult Scenario.acct2 false None;
                       Faucet.mkFundingResult Scenario.acct3 true (Some "0xhash")])
   ∧ count_events is_accepted (new_events st run.2) = 2%nat)
  ∧ reservations (new_events st run.2) = [("0xFA", 7); ("0xFA", 8); ("0xFA", 9)]
  ∧ Faucet.main_nonce (self run.2) = Some 10.
Proof.
  intros st run. split; [by vm_compute|].
  assert (Hn : Faucet.main_nonce (self st) = Some 7) by reflexivity.
  pose proof (faucet_takes_one_nonce_per_account (Api := Scenario.healthy)
                Return FaucetScenario.receipts FaucetScenario.balances
                [Scenario.acct1; Scenario.acct2; Scenario.acct3] st 7 Hn)
    as (results & _ & _ & H3 & H4 & _).
  by split.
Defined.

Lemma faucet_without_nonce_funds_nothing_witness :
  let st := Scenario.start (FaucetScenario.faucet None) [] in
  Faucet.fund_all_addresses_sequential (Api := Scenario.healthy)
    Return FaucetScenario.receipts FaucetScenario.balances
    [Scenario.acct1; Scenario.acct2] st
  = (Return (0, [Faucet.mkFundingResult Scenario.acct1 false None;
                 Faucet.mkFundingResult Scenario.acct2 false None]), st).
Proof.
  intros st.
  exact (faucet_without_nonce_funds_nothing (Api := Scenario.healthy)
           Return FaucetScenario.receipts FaucetScenario.balances
           [Scenario.acct1; Scenario.acct2] st eq_refl).
Defined.
